(** * Whatsapp_Inbox: the dispatch pipeline, the conversation aggregator,
      the notification hub and the cache, embedded from the Python sources.

    Python values are modelled as the code has them: a [str] is a sequence of
    Unicode code points, a [dict] handed to the document store is a finite
    map from field names to values, exceptions are explicit results, and the
    collaborators the code talks to (clock, rate limiter, HTTP channel,
    document store, sockets) are explicit state. *)

From Stdlib Require Import ZArith NArith List String Ascii Lia Bool.
From stdpp Require Import gmap strings list fin_maps.
Import ListNotations.

Local Open Scope Z_scope.

(* ===================================================================== *)
(** ** Python strings *)
(* ===================================================================== *)

Module PyStr.

(** A Python [str]: a sequence of Unicode code points. *)
Definition char : Type := N.
Definition str : Type := list N.

(** A source literal (all literals of the repository are ASCII). *)
Definition lit (s : string) : str :=
  List.map N_of_ascii (list_ascii_of_string s).

(** [PyUnicode_IS_ASCII]. *)
Definition is_ascii_char (c : char) : bool := (c <? 128)%N.
Definition is_ascii (s : str) : bool := forallb is_ascii_char s.

(** The Unicode character tables behind [str.isdigit] and [str.isspace].
    The tables themselves are data of the interpreter; the law is the row
    the code relies on: the ASCII digits are digits. *)
Class Unicode : Type := {
  isdigit : char -> bool;
  isspace : char -> bool;
  isdigit_ascii : forall c : char, (48 <= c <= 57)%N -> isdigit c = true
}.

Fixpoint lstrip `{Unicode} (s : str) : str :=
  match s with
  | c :: s' => if isspace c then lstrip s' else s
  | [] => []
  end.

(** [s.strip()] *)
Definition strip `{Unicode} (s : str) : str :=
  rev (lstrip (rev (lstrip s))).

(** [''.join(filter(str.isdigit, s))] *)
Definition digits_of `{Unicode} (s : str) : str := List.filter isdigit s.

(** Truthiness of a [str]. *)
Definition truthy (s : str) : bool :=
  match s with [] => false | _ => true end.

End PyStr.
Import PyStr.

(* ===================================================================== *)
(** ** app/services/whatsapp.py, pure part *)
(* ===================================================================== *)

Module WhatsAppPure.

(** [WhatsAppService.normalize_phone_number] *)
Definition normalize_phone_number `{Unicode} (phone : str) : str :=
  let cleaned := digits_of phone in
  if (length cleaned =? 10)%nat then lit "91" ++ cleaned else cleaned.

End WhatsAppPure.
Import WhatsAppPure.

(* ===================================================================== *)
(** ** Exceptions and results *)
(* ===================================================================== *)

Module Py.

(** The exception classes the code raises, catches or lets through. An
    exception carries the text [str(e)] gives for it: the code reads nothing
    else of an exception it has caught. For [KeyError] that text is the repr
    of the missing key; for [tenacity.RetryError] it holds the repr of a
    [Future] object and is made by the library. *)
Inductive exn : Type :=
| Timeout (text : str)                 (* requests.exceptions.Timeout *)
| ConnectionError (text : str)         (* requests.exceptions.ConnectionError *)
| HTTPError (text : str)               (* requests.exceptions.HTTPError *)
| RequestsRetryError (text : str)      (* requests.exceptions.RetryError *)
| TenacityRetryError (last : exn) (text : str)   (* tenacity.RetryError *)
| KeyError (text : str)
| IndexError (text : str)
| ValueError (text : str)
| TypeError (text : str)
| AttributeError (text : str)
| WriteError (code : Z) (text : str)   (* pymongo.errors.WriteError *)
| PyMongoError (text : str)
| OtherException (text : str).

(** [str(e)] *)
Definition str_of_exn (e : exn) : str :=
  match e with
  | Timeout t | ConnectionError t | HTTPError t | RequestsRetryError t
  | TenacityRetryError _ t | KeyError t | IndexError t | ValueError t
  | TypeError t | AttributeError t | WriteError _ t | PyMongoError t
  | OtherException t => t
  end.

(** What a call does: it returns a value or raises. *)
Inductive outcome (A : Type) : Type :=
| Returns (a : A)
| Raises (e : exn).
Arguments Returns {A} a.
Arguments Raises {A} e.

End Py.
Import Py.

(* ===================================================================== *)
(** ** The document store (the part of MongoDB's update language the code uses) *)
(* ===================================================================== *)

Module Mongo.

#[warnings="-register-all"]
Inductive value : Type :=
| VNull
| VBool (b : bool)
| VInt (n : Z)
| VStr (s : str)
| VTime (t : Z)                      (* datetime / time.time() instants *)
| VOid (o : positive)                (* bson.ObjectId *)
| VList (l : list value)
| VDoc (d : gmap string value).

Abbreviation document := (gmap string value).
Abbreviation collection := (list (gmap string value)).

(** Equality of the scalars used as lookup keys. *)
Definition key_eqb (a b : value) : bool :=
  match a, b with
  | VStr s, VStr t => bool_decide (s = t)
  | VOid x, VOid y => bool_decide (x = y)
  | VInt x, VInt y => bool_decide (x = y)
  | _, _ => false
  end.

Definition matches (field : string) (v : value) (doc : document) : bool :=
  match doc !! field with
  | Some w => key_eqb v w
  | None => false
  end.

(** [find_one({field: v})] *)
Definition find_one (field : string) (v : value) (coll : collection)
  : option document :=
  List.find (matches field v) coll.

(** How the server treats a field whose name starts with [$] when an update
    operator is about to store it. Servers reject it with
    DollarPrefixedFieldName (code 52); the permissive reading, in which the
    field is stored under that literal name, is kept as an alternative so
    that results do not depend on the choice. In neither reading is the
    nested document run as an operator. *)
Inductive dollar_policy : Type := RejectDollarFields | StoreDollarFields.

Definition starts_with_dollar (f : string) : bool :=
  match f with
  | String c _ => bool_decide (c = "$"%char)
  | EmptyString => false
  end.

Definition known_operators : gset string :=
  {[ "$set"%string; "$setOnInsert"%string; "$inc"%string ]}.

(** The operand of a top-level operator: a document, empty when the
    operator is not used. *)
Definition operand (update : document) (op : string) : outcome document :=
  match update !! op with
  | None => Returns ∅
  | Some (VDoc d) => Returns d
  | Some _ => Raises (WriteError 9 (lit "Modifiers operate on fields"))
  end.

Definition validate_for_storage (policy : dollar_policy) (d : document)
  : outcome unit :=
  match policy with
  | StoreDollarFields => Returns tt
  | RejectDollarFields =>
      match List.find starts_with_dollar (map_to_list d).*1 with
      | Some _ =>
          Raises (WriteError 52 (lit "The dollar ($) prefixed field is not valid for storage"))
      | None => Returns tt
      end
  end.

(** [$inc] on one field: a missing field is created with the amount. *)
Definition inc_field (doc : document) (fa : string * value) : outcome document :=
  match fa.2, doc !! fa.1 with
  | VInt k, None => Returns (<[fa.1 := VInt k]> doc)
  | VInt k, Some (VInt n) => Returns (<[fa.1 := VInt (n + k)]> doc)
  | _, _ => Raises (WriteError 14 (lit "Cannot apply $inc to a value of non-numeric type"))
  end.

Fixpoint apply_inc (incs : list (string * value)) (doc : document)
  : outcome document :=
  match incs with
  | [] => Returns doc
  | fa :: rest =>
      match inc_field doc fa with
      | Returns doc' => apply_inc rest doc'
      | Raises e => Raises e
      end
  end.

(** The modifiers applied to one document ([$set] then [$inc]; the two act
    on disjoint fields, see [update_one]). *)
Definition modify (policy : dollar_policy) (d_set d_inc : document)
    (doc : document) : outcome document :=
  match validate_for_storage policy d_set with
  | Raises e => Raises e
  | Returns _ =>
      match validate_for_storage policy d_inc with
      | Raises e => Raises e
      | Returns _ => apply_inc (map_to_list d_inc) (d_set ∪ doc)
      end
  end.

(** Modify the first document that matches, if there is one. *)
Fixpoint update_first (f : document -> outcome document)
    (p : document -> bool) (coll : collection) : outcome (option collection) :=
  match coll with
  | [] => Returns None
  | d :: rest =>
      if p d then
        match f d with
        | Returns d' => Returns (Some (d' :: rest))
        | Raises e => Raises e
        end
      else
        match update_first f p rest with
        | Returns r => Returns (cons d <$> r)
        | Raises e => Raises e
        end
  end.

Definition disjoint_fields (a b : document) : bool :=
  bool_decide ((dom a : gset string) ## (dom b : gset string)).

(** [coll.update_one({field: v}, update, upsert=upsert)].
    Only top-level keys of [update] are operators; whatever sits inside an
    operand is data. *)
Definition update_one (policy : dollar_policy) (field : string) (v : value)
    (update : document) (upsert : bool) (coll : collection)
  : outcome collection :=
  if negb (bool_decide (dom update ⊆ known_operators)) then
    Raises (WriteError 9 (lit "Unknown modifier"))
  else
    match operand update "$set", operand update "$setOnInsert",
          operand update "$inc" with
    | Returns d_set, Returns d_soi, Returns d_inc =>
        if negb (disjoint_fields d_set d_inc && disjoint_fields d_set d_soi
                 && disjoint_fields d_inc d_soi) then
          Raises (WriteError 40 (lit "Updating the path would create a conflict"))
        else
          match update_first (modify policy d_set d_inc) (matches field v) coll with
          | Raises e => Raises e
          | Returns (Some coll') => Returns coll'
          | Returns None =>
              if upsert then
                match validate_for_storage policy d_soi with
                | Raises e => Raises e
                | Returns _ =>
                    match modify policy d_set d_inc (d_soi ∪ {[ field := v ]}) with
                    | Returns d => Returns (coll ++ [d])
                    | Raises e => Raises e
                    end
                end
              else Returns coll
          end
    | Raises e, _, _ | _, Raises e, _ | _, _, Raises e => Raises e
    end.

(** [coll.insert_one(doc)] *)
Definition insert_one (doc : document) (coll : collection) : collection :=
  coll ++ [doc].

(** An integer field read back as a counter (absent reads as 0). *)
Definition counter (field : string) (doc : option document) : Z :=
  match doc with
  | Some d => match d !! field with Some (VInt n) => n | _ => 0 end
  | None => 0
  end.

(** A field of a document read back from the store (absent document,
    absent field). *)
Definition stored_field (f : string) (c : option document) : option value :=
  match c with Some d => d !! f | None => None end.

End Mongo.
Import Mongo.

(* ===================================================================== *)
(** ** app/services/inbox.py *)
(* ===================================================================== *)

Module Inbox.

(** Modelled from the spec: [app/models/message.py] (the enum
    [MessageDirection]) is not among the sources; the spec gives a message
    the direction [inbound] or [outbound]. *)
Inductive MessageDirection : Type := INBOUND | OUTBOUND.

(** Modelled from the spec: [app/models/message.py] (the class [Message]) is
    not among the sources; these are the fields [_update_conversation] reads,
    with the types [MessageBase] of [app/schemas/message.py] gives them. *)
Record Message : Type := {
  user_id : str;
  body : str;
  timestamp : Z;
  direction : MessageDirection
}.

Definition direction_value (d : MessageDirection) : value :=
  match d with
  | INBOUND => VStr (lit "inbound")
  | OUTBOUND => VStr (lit "outbound")
  end.

(** The dict [conversation_data] as it stands when it is handed to
    [update_one]: the [$inc] entry is a key of this dict. *)
Definition conversation_data (message : Message) (utcnow : Z) : document :=
  let data : document :=
    {[ "user_id"%string := VStr (user_id message);
       "last_message"%string := VStr (take 500 (body message));
       "last_message_timestamp"%string := VTime (timestamp message);
       "last_message_direction"%string := direction_value (direction message);
       "updated_at"%string := VTime utcnow ]} in
  match direction message with
  | INBOUND =>
      <[ "$inc"%string :=
           VDoc {[ "unread_count"%string := VInt 1;
                   "total_messages"%string := VInt 1 ]} ]> data
  | OUTBOUND =>
      <[ "$inc"%string := VDoc {[ "total_messages"%string := VInt 1 ]} ]> data
  end.

Definition set_on_insert (utcnow : Z) : document :=
  {[ "created_at"%string := VTime utcnow;
     "is_archived"%string := VBool false;
     "labels"%string := VList [] ]}.

(** [InboxService._update_conversation]: the state is the [conversations]
    collection; an exception of the store is logged and swallowed. *)
Definition _update_conversation (policy : dollar_policy) (message : Message)
    (utcnow : Z) (conversations : collection) : collection :=
  match
    update_one policy "user_id" (VStr (user_id message))
      {[ "$set"%string := VDoc (conversation_data message utcnow);
         "$setOnInsert"%string := VDoc (set_on_insert utcnow) ]}
      true conversations
  with
  | Returns conversations' => conversations'
  | Raises _ => conversations
  end.

(** The conversation stored for a counterparty. *)
Definition conversation_of (user : str) (conversations : collection)
  : option document :=
  find_one "user_id" (VStr user) conversations.

End Inbox.
Import Inbox.

(* ===================================================================== *)
(** ** app/services/mongodb_cache.py *)
(* ===================================================================== *)

Module Cache.

(** [MongoDBCache]: [self.collection] is the [cache] collection, or [None]. *)
Record MongoDBCache : Type := { cache_collection : option collection }.

(** [MongoDBCache.get]; Python's [None] is [VNull]. [store_error] is what
    the round trip to the store does: it answers ([None]) or raises, and the
    [except] clause turns the exception into [None]. The method reads no
    clock and does not look at [expires_at]. *)
Definition get (store_error : option exn) (self : MongoDBCache) (key : str)
  : value :=
  match cache_collection self with
  | None => VNull
  | Some coll =>
      match store_error with
      | Some _ => VNull                       (* [except Exception] *)
      | None =>
          match find_one "_id" (VStr key) coll with
          | Some doc =>
              match map_to_list doc with
              | [] => VNull                   (* [doc and ...]: empty dict *)
              | _ => match doc !! "value"%string with
                     | Some v => v
                     | None => VNull
                     end
              end
          | None => VNull
          end
      end
  end.

(** [MongoDBCache.set], called at instant [time] ([time.time()]). An
    exception of the store, [store_error] or one [update_one] raises for the
    update itself, is caught by the [except] clause: nothing is written and
    nothing is raised. *)
Definition set (store_error : option exn) (policy : dollar_policy)
    (self : MongoDBCache) (key : str) (v : value) (ttl_seconds : Z) (time : Z)
  : MongoDBCache :=
  match cache_collection self with
  | None => self
  | Some coll =>
      match store_error with
      | Some _ => self                        (* [except Exception] *)
      | None =>
          match
            update_one policy "_id" (VStr key)
              {[ "$set"%string :=
                   VDoc {[ "value"%string := v;
                           "expires_at"%string := VTime (time + ttl_seconds) ]} ]}
              true coll
          with
          | Returns coll' => {| cache_collection := Some coll' |}
          | Raises _ => self
          end
      end
  end.

(** The expiry instant stored for a key. *)
Definition stored_expiry (self : MongoDBCache) (key : str) : option value :=
  match cache_collection self with
  | Some coll =>
      match find_one "_id" (VStr key) coll with
      | Some doc => doc !! "expires_at"%string
      | None => None
      end
  | None => None
  end.

End Cache.

(* ===================================================================== *)
(** ** The collaborators of the dispatch pipeline, as explicit state *)
(* ===================================================================== *)

Module Runtime.

(** A key of a JSON object: absent, [null], or present with a value. *)
Inductive json_field (A : Type) : Type :=
| Absent
| Null
| Present (a : A).
Arguments Absent {A}.
Arguments Null {A}.
Arguments Present {A} a.

(** A JSON body of the channel, as far as [_make_request] reads it. Where
    a value is present it has the type the Graph API gives it (an id and an
    error message are strings, an error code is an integer). *)
Record message_object : Type := {
  id_field : json_field str          (* message["id"] *)
}.

Record error_object : Type := {
  error_message : json_field str;    (* error["message"] *)
  error_code_field : json_field Z    (* error["code"] *)
}.

Record response_data : Type := {
  (* data["messages"]; an element is an object or [null] *)
  messages_field : json_field (list (option message_object));
  error_field : json_field error_object              (* data["error"] *)
}.

(** What [response.json()] gives: it raises, or returns a value that is not
    an object (the name of its Python type is kept), or returns an object. *)
Inductive json_body : Type :=
| NotJson (e : exn)
| NotObject (type_name : str)
| Object (d : response_data).

Record response : Type := {
  status_code : Z;
  (* the header [Retry-After]: absent, or what [int()] does with it *)
  retry_after_header : option (outcome Z);
  json : json_body
}.

Inductive post_outcome : Type :=
| PostRaises (e : exn)
| PostResponse (r : response).

(** The JSON payload of a send request. *)
Record payload : Type := {
  payload_to : str;
  payload_type : str;
  payload_text_body : str
}.

Inductive db_op : Type := OpInsertCampaign | OpInsertMessage | OpUpdateCampaign.

(** A contact: a dict with string keys whose values are strings or [None]
    (a row of [csv.DictReader], which fills a short row with [None], or the
    JSON object of a request). *)
Abbreviation contact := (gmap str (option str)).

(** What the environment answers: the k-th call of the rate limiter
    ([app/services/mongodb_rate_limiter.py] is a collaborator, its answers
    are taken as given), the k-th POST, the k-th write to the store; the
    clock, the id made by [ObjectId()], [str.format], how the store
    treats a field name that starts with [$], and the text tenacity gives
    the [RetryError] it raises after a last attempt that raised [e]. *)
Record world : Type := {
  utcnow : Z;
  acquire_answer : nat -> outcome bool;
  post_answer : nat -> post_outcome;
  db_answer : nat -> option exn;
  new_object_id : positive;
  str_format : str -> contact -> outcome str;
  store_policy : dollar_policy;
  retry_error_text : exn -> str
}.

Record state : Type := {
  acquire_calls : nat;
  posted : list payload;
  slept : list Z;
  db_calls : nat;
  db_log : list db_op;
  messages : collection;
  campaigns : collection;
  sends : list (nat * str * str);     (* calls of send_text_message made by
                                         the dispatcher: (index, to, message) *)
  successful : list contact;          (* the two lists of send_bulk_messages *)
  failed : list contact
}.

Definition set_acquire_calls (n : nat) (s : state) : state :=
  {| acquire_calls := n; posted := posted s; slept := slept s;
     db_calls := db_calls s; db_log := db_log s; messages := messages s;
     campaigns := campaigns s; sends := sends s;
     successful := successful s; failed := failed s |}.
Definition set_posted (l : list payload) (s : state) : state :=
  {| acquire_calls := acquire_calls s; posted := l; slept := slept s;
     db_calls := db_calls s; db_log := db_log s; messages := messages s;
     campaigns := campaigns s; sends := sends s;
     successful := successful s; failed := failed s |}.
Definition set_slept (l : list Z) (s : state) : state :=
  {| acquire_calls := acquire_calls s; posted := posted s; slept := l;
     db_calls := db_calls s; db_log := db_log s; messages := messages s;
     campaigns := campaigns s; sends := sends s;
     successful := successful s; failed := failed s |}.
Definition set_db_calls (n : nat) (s : state) : state :=
  {| acquire_calls := acquire_calls s; posted := posted s; slept := slept s;
     db_calls := n; db_log := db_log s; messages := messages s;
     campaigns := campaigns s; sends := sends s;
     successful := successful s; failed := failed s |}.
Definition set_messages (c : collection) (s : state) : state :=
  {| acquire_calls := acquire_calls s; posted := posted s; slept := slept s;
     db_calls := db_calls s; db_log := db_log s ++ [OpInsertMessage];
     messages := c; campaigns := campaigns s; sends := sends s;
     successful := successful s; failed := failed s |}.
Definition set_campaigns (op : db_op) (c : collection) (s : state) : state :=
  {| acquire_calls := acquire_calls s; posted := posted s; slept := slept s;
     db_calls := db_calls s; db_log := db_log s ++ [op];
     messages := messages s; campaigns := c; sends := sends s;
     successful := successful s; failed := failed s |}.
Definition set_sends (l : list (nat * str * str)) (s : state) : state :=
  {| acquire_calls := acquire_calls s; posted := posted s; slept := slept s;
     db_calls := db_calls s; db_log := db_log s; messages := messages s;
     campaigns := campaigns s; sends := l;
     successful := successful s; failed := failed s |}.
Definition set_successful (l : list contact) (s : state) : state :=
  {| acquire_calls := acquire_calls s; posted := posted s; slept := slept s;
     db_calls := db_calls s; db_log := db_log s; messages := messages s;
     campaigns := campaigns s; sends := sends s;
     successful := l; failed := failed s |}.
Definition set_failed (l : list contact) (s : state) : state :=
  {| acquire_calls := acquire_calls s; posted := posted s; slept := slept s;
     db_calls := db_calls s; db_log := db_log s; messages := messages s;
     campaigns := campaigns s; sends := sends s;
     successful := successful s; failed := l |}.

(** Computations: state passing with exceptions. *)
Definition M (A : Type) : Type := state -> outcome A * state.

Definition ret {A} (a : A) : M A := fun s => (Returns a, s).
Definition raise {A} (e : exn) : M A := fun s => (Raises e, s).
Definition bind {A B} (m : M A) (k : A -> M B) : M B :=
  fun s => match m s with
           | (Returns a, s') => k a s'
           | (Raises e, s') => (Raises e, s')
           end.
(** [try: m except Exception as e: handler(e)] *)
Definition try_except {A} (m : M A) (handler : exn -> M A) : M A :=
  fun s => match m s with
           | (Returns a, s') => (Returns a, s')
           | (Raises e, s') => handler e s'
           end.
Definition get_state : M state := fun s => (Returns s, s).
Definition modify_state (f : state -> state) : M unit := fun s => (Returns tt, f s).
Definition of_outcome {A} (o : outcome A) : M A := fun s => (o, s).

(** What the dispatcher owns: the channel client never touches it. *)
Definition dispatcher_view (s : state) :=
  (db_calls s, db_log s, messages s, campaigns s, sends s, successful s, failed s).

End Runtime.
Import Runtime.

Notation "'do' x <- m ; k" := (Runtime.bind m (fun x => k))
  (at level 10, x name, m at level 100, k at level 200, only parsing).
Notation "m ;; k" := (Runtime.bind m (fun _ => k))
  (at level 100, k at level 200, right associativity, only parsing).

(* ===================================================================== *)
(** ** tenacity: [@retry(stop=..., wait=..., retry=...)] *)
(* ===================================================================== *)

Module Tenacity.

(** [wait_exponential(multiplier=1, min=2, max=10)] after attempt [n]:
    [max(max(0, min), min(multiplier * 2 ** (n - 1), max))]. *)
Definition wait_exponential (multiplier lo hi : Z) (attempt_number : nat) : Z :=
  Z.max (Z.max 0 lo) (Z.min (multiplier * 2 ^ (Z.of_nat attempt_number - 1)) hi).

(** [retry_if_exception_type((Timeout, ConnectionError, HTTPError))] *)
Definition retry_if_transient (e : exn) : bool :=
  match e with
  | Timeout _ | ConnectionError _ | HTTPError _ => true
  | _ => false
  end.

Definition sleep (seconds : Z) : M unit :=
  modify_state (fun s => set_slept (slept s ++ [seconds]) s).

(** The decorated function: [attempts_left] attempts remain, the next one is
    attempt [attempt_number]. A returned value ends the loop; an exception
    outside [retry_on] is re-raised at once; after the last attempt
    [RetryError] is raised, with the text [error_text] gives it. *)
Fixpoint retrying {A} (error_text : exn -> str) (retry_on : exn -> bool)
    (wait : nat -> Z) (attempts_left attempt_number : nat) (body : M A) : M A :=
  match attempts_left with
  | O => raise (OtherException (lit "no attempt"))
  | S remaining =>
      try_except body (fun e =>
        if retry_on e then
          match remaining with
          | O => raise (TenacityRetryError e (error_text e))
          | S _ => sleep (wait attempt_number) ;;
                   retrying error_text retry_on wait remaining (S attempt_number) body
          end
        else raise e)
  end.

End Tenacity.

(* ===================================================================== *)
(** ** app/services/whatsapp.py *)
(* ===================================================================== *)

Module WhatsApp.

(** The dict a send operation returns. A key the code leaves out reads as
    [None]. *)
Record send_result : Type := {
  success : bool;
  message_id : option str;
  error : option str;
  error_code : option Z
}.

Definition failure (reason : str) : send_result :=
  {| success := false; message_id := None; error := Some reason;
     error_code := None |}.

(** [self.rate_limiter.acquire("whatsapp_api")]: the limiter is a
    collaborator; its k-th call answers [acquire_answer k]. *)
Definition acquire (w : world) : M bool :=
  fun s =>
    (acquire_answer w (acquire_calls s), set_acquire_calls (S (acquire_calls s)) s).

(** [requests.post(url, headers=..., json=payload, timeout=30)] *)
Definition post (w : world) (p : payload) : M response :=
  fun s =>
    let s' := set_posted (posted s ++ [p]) s in
    match post_answer w (length (posted s)) with
    | PostRaises e => (Raises e, s')
    | PostResponse r => (Returns r, s')
    end.

(** [time.sleep(seconds)] *)
Definition time_sleep (seconds : Z) : M unit :=
  if seconds <? 0 then raise (ValueError (lit "sleep length must be non-negative"))
  else Tenacity.sleep seconds.

(** [x.get(...)] on a value that is not a dict. *)
Definition no_get (type_name : str) : exn :=
  AttributeError (lit "'" ++ type_name ++ lit "' object has no attribute 'get'").

(** [response_data.get("messages", [{}])[0].get("id")] *)
Definition first_message_id (d : response_data) : outcome (option str) :=
  match messages_field d with
  | Absent => Returns None                       (* the default [{}] *)
  | Null => Raises (TypeError (lit "'NoneType' object is not subscriptable"))
  | Present [] => Raises (IndexError (lit "list index out of range"))
  | Present (None :: _) => Raises (no_get (lit "NoneType"))
  | Present (Some m :: _) =>
      Returns (match id_field m with Present id => Some id | _ => None end)
  end.

(** [error = response_data.get("error", {})], then
    [error.get("message", "Unknown error")] and [error.get("code")]. *)
Definition error_of (d : response_data) : outcome (option str * option Z) :=
  match error_field d with
  | Absent => Returns (Some (lit "Unknown error"), None)
  | Null => Raises (no_get (lit "NoneType"))
  | Present eo =>
      Returns (match error_message eo with
               | Absent => Some (lit "Unknown error")
               | Null => None
               | Present m => Some m
               end,
               match error_code_field eo with
               | Present n => Some n
               | _ => None
               end)
  end.

(** The [try] block of [_make_request]. A body that is not an object makes
    the first [.get] of either branch raise. *)
Definition _make_request_body (w : world) (p : payload) : M send_result :=
  do r <- post w p;
  if status_code r =? 429 then
    do retry_after <-
      match retry_after_header r with
      | None => ret 60
      | Some parsed => of_outcome parsed
      end;
    time_sleep retry_after ;;
    raise (RequestsRetryError (lit "Rate limited"))
  else
    do response_data <-
      match json r with
      | NotJson e => raise e
      | NotObject type_name => raise (no_get type_name)
      | Object d => ret d
      end;
    if status_code r =? 200 then
      do message_id <- of_outcome (first_message_id response_data);
      ret {| success := true; message_id := message_id; error := None;
             error_code := None |}
    else
      do error <- of_outcome (error_of response_data);
      ret {| success := false; message_id := None; error := error.1;
             error_code := error.2 |}.

(** [WhatsAppService._make_request]: the three [except] clauses turn every
    exception of the [try] block into a returned failure dict. *)
Definition _make_request (w : world) (p : payload) : M send_result :=
  try_except (_make_request_body w p) (fun e =>
    match e with
    | Timeout _ => ret (failure (lit "Request timeout"))
    | ConnectionError _ => ret (failure (lit "Connection error"))
    | _ => ret (failure (str_of_exn e))
    end).

(** The body of [send_text_message], one attempt. *)
Definition send_text_message_attempt `{Unicode} (w : world) (to message : str)
  : M send_result :=
  do granted <- acquire w;
  if negb granted then
    ret {| success := false; message_id := None;
           error := Some (lit "Rate limit exceeded"); error_code := Some 429 |}
  else
    _make_request w {| payload_to := normalize_phone_number to;
                       payload_type := lit "text";
                       payload_text_body := message |}.

(** [WhatsAppService.send_text_message], with its decorator
    [@retry(stop=stop_after_attempt(3),
            wait=wait_exponential(multiplier=1, min=2, max=10),
            retry=retry_if_exception_type((Timeout, ConnectionError, HTTPError)))]. *)
Definition send_text_message `{Unicode} (w : world) (to message : str)
  : M send_result :=
  Tenacity.retrying (retry_error_text w) Tenacity.retry_if_transient
    (Tenacity.wait_exponential 1 2 10) 3 1
    (send_text_message_attempt w to message).

(** The bytes-level collaborators of [validate_webhook_signature]:
    [str.encode('utf-8')] and [hmac.new(key, msg, hashlib.sha256).digest()]. *)
Class Hmac : Type := {
  utf8_encode : str -> list N;
  hmac_sha256 : list N -> list N -> list N
}.

Definition hex_digit (n : N) : char :=
  (if n <? 10 then 48 + n else 87 + n)%N.

(** [bytes.hex()] / [HMAC.hexdigest()] *)
Definition hexlify (bytes : list N) : str :=
  flat_map (fun b => [hex_digit ((b / 16) mod 16); hex_digit (b mod 16)]%N) bytes.

(** [hmac.compare_digest(a, b)] on two [str]: both must be ASCII. *)
Definition compare_digest (a b : str) : outcome bool :=
  if is_ascii a && is_ascii b then Returns (bool_decide (a = b))
  else Raises (TypeError (lit "comparing strings with non-ASCII characters is not supported")).

Definition falsy (s : option str) : bool :=
  match s with
  | None => true
  | Some t => negb (truthy t)
  end.

(** [hmac.new(secret.encode('utf-8'), payload, hashlib.sha256).hexdigest()]
    behind the [sha256=] prefix. *)
Definition expected_header `{Hmac} (secret : str) (payload_bytes : list N) : str :=
  lit "sha256=" ++ hexlify (hmac_sha256 (utf8_encode secret) payload_bytes).

(** [WhatsAppService.validate_webhook_signature]; [WHATSAPP_APP_SECRET] is
    [os.getenv(...)], a [str] or [None]. *)
Definition validate_webhook_signature `{Hmac} (WHATSAPP_APP_SECRET : option str)
    (payload_bytes : list N) (signature : option str) : outcome bool :=
  if falsy signature || falsy WHATSAPP_APP_SECRET then Returns false
  else
    match signature, WHATSAPP_APP_SECRET with
    | Some sig, Some secret =>
        compare_digest (expected_header secret payload_bytes) sig
    | _, _ => Returns false          (* not reached: [None] is falsy *)
    end.

(** *** The two other send operations *)

(** The dict returned when the rate limiter denies. *)
Definition rate_limit_exceeded : send_result :=
  {| success := false; message_id := None;
     error := Some (lit "Rate limit exceeded"); error_code := Some 429 |}.

(** What the request log keeps of a JSON payload: recipient and type. *)
Definition payload_summary (p : document) : payload :=
  {| payload_to := match p !! "to"%string with Some (VStr t) => t | _ => [] end;
     payload_type := match p !! "type"%string with Some (VStr t) => t | _ => [] end;
     payload_text_body := [] |}.

(** [template_data] of [send_template_message]: [components] is set only
    for a non-empty [parameters] list. *)
Definition template_data (template_name : str) (parameters : option (list value))
    (language_code : str) : document :=
  let data : document :=
    {[ "name"%string := VStr template_name;
       "language"%string := VDoc {[ "code"%string := VStr language_code ]} ]} in
  match parameters with
  | Some (p :: ps) =>
      <[ "components"%string :=
           VList [VDoc {[ "type"%string := VStr (lit "body");
                          "parameters"%string := VList (p :: ps) ]}] ]> data
  | _ => data
  end.

Definition template_payload `{Unicode} (to template_name : str)
    (parameters : option (list value)) (language_code : str) : document :=
  {[ "messaging_product"%string := VStr (lit "whatsapp");
     "to"%string := VStr (normalize_phone_number to);
     "type"%string := VStr (lit "template");
     "template"%string := VDoc (template_data template_name parameters language_code) ]}.

(** [WhatsAppService.send_template_message] (no [@retry] on this one). *)
Definition send_template_message `{Unicode} (w : world) (to template_name : str)
    (parameters : option (list value)) (language_code : str) : M send_result :=
  do granted <- acquire w;
  if negb granted then ret rate_limit_exceeded
  else
    _make_request w
      (payload_summary (template_payload to template_name parameters language_code)).

(** [{"link" if media_url else "id": media_url or media_id}] *)
Definition media_object (media_url media_id : option str) : document :=
  if falsy media_url
  then {[ "id"%string := from_option VStr VNull media_id ]}
  else {[ "link"%string := from_option VStr VNull media_url ]}.

(** [if caption: payload[kind]["caption"] = caption] *)
Definition with_caption (caption : option str) (object : document) : document :=
  if falsy caption then object
  else <[ "caption"%string := from_option VStr VNull caption ]> object.

(** The payload [send_media_message] builds once it has a url or an id. *)
Definition media_payload `{Unicode} (to media_type : str)
    (media_url media_id caption : option str) : document :=
  let payload : document :=
    {[ "messaging_product"%string := VStr (lit "whatsapp");
       "to"%string := VStr (normalize_phone_number to);
       "type"%string := VStr media_type ]} in
  if bool_decide (media_type = lit "image") then
    <[ "image"%string := VDoc (with_caption caption (media_object media_url media_id)) ]> payload
  else if bool_decide (media_type = lit "video") then
    <[ "video"%string := VDoc (with_caption caption (media_object media_url media_id)) ]> payload
  else if bool_decide (media_type = lit "audio") then
    <[ "audio"%string := VDoc (media_object media_url media_id) ]> payload
  else if bool_decide (media_type = lit "document") then
    <[ "document"%string := VDoc (with_caption caption (media_object media_url media_id)) ]> payload
  else payload.

(** [WhatsAppService.send_media_message]: the rate limiter is asked first,
    the arguments are checked after. *)
Definition send_media_message `{Unicode} (w : world) (to media_type : str)
    (media_url media_id caption : option str) : M send_result :=
  do granted <- acquire w;
  if negb granted then ret rate_limit_exceeded
  else if falsy media_url && falsy media_id then
    ret {| success := false; message_id := None;
           error := Some (lit "Either media_url or media_id must be provided");
           error_code := None |}
  else
    _make_request w
      (payload_summary (media_payload to media_type media_url media_id caption)).

End WhatsApp.
Import WhatsApp.

(* ===================================================================== *)
(** ** app/services/bulk_sender.py *)
(* ===================================================================== *)

Module BulkSender.

(** One round trip to the store; the k-th one fails when the environment
    says so. *)
Definition db_call (w : world) : M unit :=
  fun s =>
    let s' := set_db_calls (S (db_calls s)) s in
    match db_answer w (db_calls s) with
    | Some e => (Raises e, s')
    | None => (Returns tt, s')
    end.

(** [db.db.messages.insert_one(message_data)] *)
Definition messages_insert_one (w : world) (doc : document) : M unit :=
  db_call w ;;
  modify_state (fun s => set_messages (insert_one doc (messages s)) s).

(** [db.db.campaigns.insert_one({"_id": campaign_id, ...})]; [_id] is unique. *)
Definition campaigns_insert_one (w : world) (campaign_id : positive)
    (doc : document) : M unit :=
  db_call w ;;
  do s <- get_state;
  match find_one "_id" (VOid campaign_id) (campaigns s) with
  | Some _ => raise (WriteError 11000 (lit "duplicate key error"))
  | None =>
      modify_state
        (set_campaigns OpInsertCampaign
           (insert_one (<[ "_id"%string := VOid campaign_id ]> doc) (campaigns s)))
  end.

(** [db.db.campaigns.update_one({"_id": campaign_id}, {"$set": fields})] *)
Definition campaigns_update_one (w : world) (campaign_id : positive)
    (fields : document) : M unit :=
  db_call w ;;
  do s <- get_state;
  match update_one (store_policy w) "_id" (VOid campaign_id)
          {[ "$set"%string := VDoc fields ]} false (campaigns s) with
  | Returns c => modify_state (set_campaigns OpUpdateCampaign c)
  | Raises e => raise e
  end.

(** [BulkMessageSender._create_campaign] *)
Definition _create_campaign (w : world) (campaign_id : positive) (name : str)
    (total_contacts : nat) : M unit :=
  campaigns_insert_one w campaign_id
    {[ "name"%string := VStr name;
       "total_contacts"%string := VInt (Z.of_nat total_contacts);
       "status"%string := VStr (lit "running");
       "created_at"%string := VTime (utcnow w);
       "started_at"%string := VTime (utcnow w) ]}.

(** [BulkMessageSender._update_campaign] *)
Definition _update_campaign (w : world) (campaign_id : positive)
    (successful_count failed_count : nat) : M unit :=
  let status :=
    if (0 <? successful_count + failed_count)%nat
    then lit "completed" else lit "failed" in
  campaigns_update_one w campaign_id
    {[ "status"%string := VStr status;
       "successful_count"%string := VInt (Z.of_nat successful_count);
       "failed_count"%string := VInt (Z.of_nat failed_count);
       "completed_at"%string := VTime (utcnow w) ]}.

(** [BulkMessageSender._personalize_message]: [KeyError] is caught, any
    other exception of [str.format] goes on to the caller. *)
Definition _personalize_message (w : world) (template : str) (c : contact)
  : M str :=
  try_except (of_outcome (str_format w template c)) (fun e =>
    match e with
    | KeyError _ => ret template
    | _ => raise e
    end).

(** [{**contact, "error": value}] *)
Definition with_error_field (c : contact) (value : option str) : contact :=
  <[ lit "error" := value ]> c.

(** [{**contact, "error": reason}] for a text. *)
Definition with_error (c : contact) (reason : str) : contact :=
  with_error_field c (Some reason).

Definition append_successful (c : contact) : M unit :=
  modify_state (fun s => set_successful (successful s ++ [c]) s).
Definition append_failed (c : contact) : M unit :=
  modify_state (fun s => set_failed (failed s ++ [c]) s).

(** [asyncio.sleep(delay)] *)
Definition asyncio_sleep (delay : Z) : M unit := Tenacity.sleep delay.

(** [contact.get('phone', '').strip()]: the default applies to a missing
    key only, and [None] has no [strip]. *)
Definition stripped_phone `{Unicode} (c : contact) : outcome str :=
  match default (Some []) (c !! lit "phone") with
  | Some phone => Returns (strip phone)
  | None =>
      Raises (AttributeError (lit "'NoneType' object has no attribute 'strip'"))
  end.

(** The stripped phone of a contact, empty when there is none to strip. *)
Definition phone_of `{Unicode} (c : contact) : str :=
  match stripped_phone c with
  | Returns phone => phone
  | Raises _ => []
  end.

Definition message_data (w : world) (phone message : str)
    (campaign_id : positive) (r : send_result) : document :=
  let common : document :=
    {[ "user_id"%string := VStr phone;
       "direction"%string := VStr (lit "outbound");
       "message_type"%string := VStr (lit "text");
       "body"%string := VStr message;
       "timestamp"%string := VTime (utcnow w);
       "campaign_id"%string := VOid campaign_id ]} in
  if success r then
    <[ "message_id"%string := from_option VStr VNull (message_id r) ]>
      (<[ "status"%string := VStr (lit "sent") ]> common)
  else
    <[ "error_reason"%string := from_option VStr VNull (error r) ]>
      (<[ "status"%string := VStr (lit "failed") ]> common).

(** The progress callback, when one is given: it returns or raises. *)
Abbreviation callback := (option (nat -> nat -> nat -> nat -> outcome unit)).

(** The [try] block of the loop body for the contact at position [index]
    (counted from 1). *)
Definition process_contact `{Unicode} (w : world) (message_template : str)
    (campaign_id : positive) (total : nat) (delay : Z)
    (progress_callback : callback) (index : nat) (c : contact) : M unit :=
  do phone <- of_outcome (stripped_phone c);
  if negb (truthy phone) then
    append_failed (with_error c (lit "No phone number"))      (* continue *)
  else
    do message <- _personalize_message w message_template c;
    modify_state (fun s => set_sends (sends s ++ [(index, phone, message)]) s) ;;
    do result <- send_text_message w phone message;
    (if success result then
       messages_insert_one w (message_data w phone message campaign_id result) ;;
       append_successful c
     else
       messages_insert_one w (message_data w phone message campaign_id result) ;;
       append_failed (with_error_field c (error result))) ;;
    (match progress_callback with
     | Some cb =>
         do s <- get_state;
         of_outcome (cb index total (length (successful s)) (length (failed s)))
     | None => ret tt
     end) ;;
    if (index <? total)%nat then asyncio_sleep delay else ret tt.

(** One iteration: the [try] block and its [except Exception] clause. *)
Definition iteration `{Unicode} (w : world) (message_template : str)
    (campaign_id : positive) (total : nat) (delay : Z)
    (progress_callback : callback) (index : nat) (c : contact) : M unit :=
  try_except
    (process_contact w message_template campaign_id total delay
       progress_callback index c)
    (fun e => append_failed (with_error c (str_of_exn e))).

(** [for index, contact in enumerate(contacts, 1)] *)
Fixpoint loop `{Unicode} (w : world) (message_template : str)
    (campaign_id : positive) (total : nat) (delay : Z)
    (progress_callback : callback) (index : nat) (contacts : list contact)
  : M unit :=
  match contacts with
  | [] => ret tt
  | c :: rest =>
      iteration w message_template campaign_id total delay progress_callback
        index c ;;
      loop w message_template campaign_id total delay progress_callback
        (S index) rest
  end.

(** The dict returned by [send_bulk_messages] ([success_rate], a float
    derived from the two lists, is left out). *)
Record campaign_result : Type := {
  result_campaign_id : positive;
  result_total : nat;
  result_successful : list contact;
  result_failed : list contact
}.

(** [BulkMessageSender.send_bulk_messages]; the two local lists start
    empty. *)
Definition send_bulk_messages `{Unicode} (w : world) (contacts : list contact)
    (message_template campaign_name : str) (delay : Z)
    (progress_callback : callback) : M campaign_result :=
  let campaign_id := new_object_id w in
  let total := length contacts in
  modify_state (fun s => set_failed [] (set_successful [] s)) ;;
  _create_campaign w campaign_id campaign_name total ;;
  loop w message_template campaign_id total delay progress_callback 1 contacts ;;
  do s <- get_state;
  _update_campaign w campaign_id (length (successful s)) (length (failed s)) ;;
  do s <- get_state;
  ret {| result_campaign_id := campaign_id; result_total := total;
         result_successful := successful s; result_failed := failed s |}.

(** The Campaign record of a run, read back from the store. *)
Definition campaign_record (campaign_id : positive) (s : state)
  : option document :=
  find_one "_id" (VOid campaign_id) (campaigns s).

(** The loop of [validate_contacts] over the contacts still to visit, with
    the two lists built so far. Nothing catches what [strip] raises. *)
Fixpoint validate_loop `{Unicode} (contacts valid_contacts invalid_contacts
    : list contact) : outcome (list contact * list contact) :=
  match contacts with
  | [] => Returns (valid_contacts, invalid_contacts)
  | c :: rest =>
      match stripped_phone c with
      | Raises e => Raises e
      | Returns phone =>
          if negb (truthy phone) then
            validate_loop rest valid_contacts
              (invalid_contacts ++ [with_error c (lit "Missing phone number")])
          else if (length (digits_of phone) <? 10)%nat then
            validate_loop rest valid_contacts
              (invalid_contacts ++ [with_error c (lit "Invalid phone number")])
          else validate_loop rest (valid_contacts ++ [c]) invalid_contacts
      end
  end.

(** [BulkMessageSender.validate_contacts]: the pair is ([valid],
    [invalid]); [total_valid] and [total_invalid] are their lengths. *)
Definition validate_contacts `{Unicode} (contacts : list contact)
  : outcome (list contact * list contact) :=
  validate_loop contacts [] [].

(** *** Predicates used to state what a run does *)

(** What [_personalize_message] returns when [str.format] returns or raises
    [KeyError]. *)
Definition formatted_message (w : world) (template : str) (c : contact) : str :=
  match str_format w template c with
  | Returns message => message
  | Raises _ => template
  end.

(** The progress callback returns normally whenever it is called. *)
Definition callback_returns (cb : callback) : Prop :=
  match cb with
  | Some f => forall i t a b, f i t a b = Returns tt
  | None => True
  end.

(** What one iteration does to the state the dispatcher owns: [ok] and
    [ko] are what it appends to [successful] and to [failed]. *)
Record iteration_effect `{Unicode} (progress_callback : callback)
    (index : nat) (c : contact) (s s' : state) : Prop := {
  eff_campaigns : campaigns s' = campaigns s;
  eff_db_log : exists k, db_log s' = db_log s ++ replicate k OpInsertMessage;
  eff_sends :
    sends s' = sends s \/
    (phone_of c <> [] /\ exists m, sends s' = sends s ++ [(index, phone_of c, m)]);
  eff_lists :
    exists ok ko,
      successful s' = successful s ++ ok /\ failed s' = failed s ++ ko /\
      (ok = [] \/ ok = [c]) /\
      Forall (fun f => exists reason, f = with_error_field c reason) ko /\
      (1 <= length ok + length ko)%nat /\
      (callback_returns progress_callback -> (length ok + length ko = 1)%nat);
  eff_empty_phone :
    stripped_phone c = Returns [] ->
    s' = set_failed (failed s ++ [with_error c (lit "No phone number")]) s;
  eff_none_phone :
    forall e, stripped_phone c = Raises e ->
    s' = set_failed (failed s ++ [with_error c (str_of_exn e)]) s
}.

(** What the whole loop does, for the contacts numbered from [index0]. *)
Record loop_effect `{Unicode} (progress_callback : callback)
    (index0 : nat) (contacts : list contact) (s s' : state)
  : Prop := {
  loop_campaigns : campaigns s' = campaigns s;
  loop_db_log : exists k, db_log s' = db_log s ++ replicate k OpInsertMessage;
  loop_sends :
    exists new, sends s' = sends s ++ new /\
      Forall (fun e => exists j c, e.1.1 = (index0 + j)%nat /\
                                   contacts !! j = Some c /\
                                   phone_of c <> [] /\ e.1.2 = phone_of c) new;
  loop_lists :
    exists ok ko,
      successful s' = successful s ++ ok /\ failed s' = failed s ++ ko /\
      (length contacts <= length ok + length ko)%nat /\
      (callback_returns progress_callback ->
       (length ok + length ko = length contacts)%nat) /\
      (forall j c, contacts !! j = Some c -> stripped_phone c = Returns [] ->
                   with_error c (lit "No phone number") ∈ ko) /\
      (forall j c e, contacts !! j = Some c -> stripped_phone c = Raises e ->
                     with_error c (str_of_exn e) ∈ ko)
}.

End BulkSender.
Import BulkSender.

(* ===================================================================== *)
(** ** app/websockets/connection_manager.py *)
(* ===================================================================== *)

Module ConnectionManager.

(** A [WebSocket] handle. *)
Abbreviation WebSocket := positive.

(** One call of [connection.send_json(message)]: the handle, the message,
    and whether the call returned ([true]) or raised ([false]). *)
Abbreviation attempt Event := (positive * Event * bool)%type.

(** [ConnectionManager]: the set [active_connections], and the transcript of
    the [send_json] calls made so far (what each peer was sent). *)
Record manager (Event : Type) : Type := {
  active_connections : gset positive;
  transcript : list (positive * Event * bool)
}.
Arguments active_connections {Event} _.
Arguments transcript {Event} _.

(** The transport: given what was sent so far, whether sending [message] to
    a handle returns or raises. *)
Definition transport (Event : Type) : Type :=
  list (positive * Event * bool) -> positive -> Event -> bool.

(** [ConnectionManager.connect]: [accept] is what
    [await websocket.accept()] does, it returns ([None]) or raises. When it
    raises, the exception leaves [connect] before the handle is added. *)
Definition connect {Event} (accept : option exn) (websocket : WebSocket)
    (self : manager Event) : outcome unit * manager Event :=
  match accept with
  | Some e => (Raises e, self)
  | None =>
      (Returns tt,
       {| active_connections := active_connections self ∪ {[ websocket ]};
          transcript := transcript self |})
  end.

(** [ConnectionManager.disconnect] *)
Definition disconnect {Event} (websocket : WebSocket) (self : manager Event)
  : manager Event :=
  {| active_connections := active_connections self ∖ {[ websocket ]};
     transcript := transcript self |}.

(** The first loop of [broadcast] over the connections in iteration order:
    the pair is ([dead_connections], transcript). *)
Fixpoint send_all {Event} (send_json : transport Event) (message : Event)
    (connections : list WebSocket)
    (acc : gset positive * list (positive * Event * bool))
  : gset positive * list (positive * Event * bool) :=
  match connections with
  | [] => acc
  | connection :: rest =>
      let '(dead_connections, sent) := acc in
      if send_json sent connection message then
        send_all send_json message rest
          (dead_connections, sent ++ [(connection, message, true)])
      else
        send_all send_json message rest
          (dead_connections ∪ {[ connection ]},
           sent ++ [(connection, message, false)])
  end.

(** The second loop: [for conn in dead_connections: discard(conn)]. *)
Definition discard_all (dead : list WebSocket) (active : gset positive)
  : gset positive :=
  foldl (fun acc conn => acc ∖ {[ conn ]}) active dead.

(** [ConnectionManager.broadcast] *)
Definition broadcast {Event} (send_json : transport Event) (message : Event)
    (self : manager Event) : manager Event :=
  if decide (active_connections self = ∅) then self
  else
    let '(dead_connections, sent) :=
      send_all send_json message (elements (active_connections self))
        (∅, transcript self) in
    {| active_connections :=
         discard_all (elements dead_connections) (active_connections self);
       transcript := sent |}.

(** [get_connection_count] *)
Definition get_connection_count {Event} (self : manager Event) : nat :=
  size (active_connections self).

End ConnectionManager.
Import ConnectionManager.

(* ===================================================================== *)
(** ** Concrete tables used to run the definitions *)
(* ===================================================================== *)

Definition ascii_isdigit (c : char) : bool := ((48 <=? c) && (c <=? 57))%N.
Definition ascii_isspace (c : char) : bool :=
  ((c =? 32) || ((9 <=? c) && (c <=? 13)))%N.

#[local] Program Instance ascii_tables : Unicode :=
  {| isdigit := ascii_isdigit; isspace := ascii_isspace |}.
Next Obligation.
  intros c [H1 H2]. unfold ascii_isdigit.
  apply andb_true_intro; split; apply N.leb_le; assumption.
Qed.

(* ===================================================================== *)
(** ** Concrete environments and inputs *)
(* ===================================================================== *)

Module Scenarios.

Definition empty_state : state :=
  {| acquire_calls := 0; posted := []; slept := []; db_calls := 0;
     db_log := []; messages := []; campaigns := []; sends := [];
     successful := []; failed := [] |}.

Definition ok_response (id : str) : post_outcome :=
  PostResponse {| status_code := 200; retry_after_header := None;
                  json := Object {| messages_field :=
                                      Present [Some {| id_field := Present id |}];
                                    error_field := Absent |} |}.

(** The text tenacity gives its [RetryError] in the runs below. *)
Definition retry_text (e : exn) : str :=
  lit "RetryError[<Future at 0x1 state=finished raised Exception>]".

(** A channel that times out twice and accepts the third request. *)
Definition flaky_world : world :=
  {| utcnow := 1000;
     acquire_answer := fun _ => Returns true;
     post_answer := fun k => match k with
                             | O | S O => PostRaises (Timeout (lit "Read timed out."))
                             | _ => ok_response (lit "wamid.3")
                             end;
     db_answer := fun _ => None;
     new_object_id := 1%positive;
     str_format := fun template _ => Returns template;
     store_policy := RejectDollarFields;
     retry_error_text := retry_text |}.

(** A channel that accepts every request, a store that never fails. *)
Definition accepting_world : world :=
  {| utcnow := 1000;
     acquire_answer := fun _ => Returns true;
     post_answer := fun _ => ok_response (lit "wamid.1");
     db_answer := fun _ => None;
     new_object_id := 7%positive;
     str_format := fun template _ => Returns template;
     store_policy := RejectDollarFields;
     retry_error_text := retry_text |}.

Definition asha : contact :=
  {[ lit "phone" := Some (lit "9876543210"); lit "name" := Some (lit "Asha") ]}.
Definition short_phone : contact :=
  {[ lit "phone" := Some (lit "12345"); lit "name" := Some (lit "Ben") ]}.
Definition no_phone : contact :=
  {[ lit "phone" := Some (lit "  "); lit "name" := Some (lit "Chen") ]}.
(** A short row of [csv.DictReader]: the missing cell is [None]. *)
Definition null_phone : contact :=
  {[ lit "name" := Some (lit "Dev"); lit "phone" := None ]}.

Definition raising_callback : callback :=
  Some (fun _ _ _ _ => Raises (OtherException (lit "progress display closed"))).

(** A stand-in keyed hash, to run [validate_webhook_signature]. *)
Definition toy_hmac : Hmac :=
  {| utf8_encode := fun s => s;
     hmac_sha256 := fun key msg =>
       [N.of_nat (length key); N.of_nat (length msg);
        fold_right N.lxor 0%N (key ++ msg)] |}.

Definition inbound_hello : Message :=
  {| user_id := lit "919876543210"; body := lit "hello"; timestamp := 100;
     direction := INBOUND |}.

(** The update the aggregator would send if [$inc] stood beside [$set]. *)
Definition update_with_top_level_inc : document :=
  {[ "$set"%string := VDoc {[ "last_message"%string := VStr (lit "hello") ]};
     "$inc"%string := VDoc {[ "unread_count"%string := VInt 1;
                             "total_messages"%string := VInt 1 ]};
     "$setOnInsert"%string := VDoc (set_on_insert 101) ]}.

(** A transport on which handle 2 is dead. *)
Definition second_is_dead : transport str :=
  fun _ connection _ => negb (bool_decide (connection = 2%positive)).

Definition three_subscribers : manager str :=
  {| active_connections := {[ 1%positive; 2%positive; 3%positive ]};
     transcript := [] |}.

(** A channel that answers 429 with [Retry-After: 5]. *)
Definition busy_world : world :=
  {| utcnow := 1000;
     acquire_answer := fun _ => Returns true;
     post_answer := fun _ =>
       PostResponse {| status_code := 429;
                       retry_after_header := Some (Returns 5);
                       json := NotJson (ValueError (lit "Expecting value")) |};
     db_answer := fun _ => None;
     new_object_id := 1%positive;
     str_format := fun template _ => Returns template;
     store_policy := RejectDollarFields;
     retry_error_text := retry_text |}.

(** A rate limiter that denies every call. *)
Definition denying_world : world :=
  {| utcnow := 1000;
     acquire_answer := fun _ => Returns false;
     post_answer := fun _ => ok_response (lit "wamid.1");
     db_answer := fun _ => None;
     new_object_id := 1%positive;
     str_format := fun template _ => Returns template;
     store_policy := RejectDollarFields;
     retry_error_text := retry_text |}.

(** A store that refuses every write. *)
Definition store_down_world : world :=
  {| utcnow := 1000;
     acquire_answer := fun _ => Returns true;
     post_answer := fun _ => ok_response (lit "wamid.1");
     db_answer := fun _ => Some (PyMongoError (lit "connection refused"));
     new_object_id := 7%positive;
     str_format := fun template _ => Returns template;
     store_policy := RejectDollarFields;
     retry_error_text := retry_text |}.

(** A cache collection holding one entry. *)
Definition cached_bye : collection :=
  [ {[ "_id"%string := VStr (lit "template:bye");
       "value"%string := VStr (lit "bye");
       "expires_at"%string := VTime 60 ]} ].

(** A conversations collection holding the conversation of one other
    counterparty. *)
Definition other_conversation : collection :=
  [ {[ "user_id"%string := VStr (lit "15550001111");
       "last_message"%string := VStr (lit "see you") ]} ].

(** A channel that answers 400 with [{"error": {"message": null}}]. *)
Definition null_error_world : world :=
  {| utcnow := 1000;
     acquire_answer := fun _ => Returns true;
     post_answer := fun _ =>
       PostResponse {| status_code := 400; retry_after_header := None;
                       json := Object {| messages_field := Absent;
                                         error_field :=
                                           Present {| error_message := Null;
                                                      error_code_field := Absent |} |} |};
     db_answer := fun _ => None;
     new_object_id := 7%positive;
     str_format := fun template _ => Returns template;
     store_policy := RejectDollarFields;
     retry_error_text := retry_text |}.

(** A channel that answers 200 with [{"messages": [null]}]. *)
Definition null_message_world : world :=
  {| utcnow := 1000;
     acquire_answer := fun _ => Returns true;
     post_answer := fun _ =>
       PostResponse {| status_code := 200; retry_after_header := None;
                       json := Object {| messages_field := Present [None];
                                         error_field := Absent |} |};
     db_answer := fun _ => None;
     new_object_id := 7%positive;
     str_format := fun template _ => Returns template;
     store_policy := RejectDollarFields;
     retry_error_text := retry_text |}.

Definition hello_payload : payload :=
  {| payload_to := lit "919876543210"; payload_type := lit "text";
     payload_text_body := lit "hi" |}.

End Scenarios.
Import Scenarios.

(* ===================================================================== *)
(** ** Theorems *)
(* ===================================================================== *)

Section normalize_phone_number_facts.
Context `{Unicode}.

Lemma digits_of_all_digits (s : str) :
  Forall (fun c => isdigit c = true) (digits_of s).
Proof.
  unfold digits_of. induction s as [|c s IH]; simpl.
  - constructor.
  - destruct (isdigit c) eqn:E; [constructor|]; assumption.
Qed.

Lemma digits_of_fixed (s : str) :
  Forall (fun c => isdigit c = true) s -> digits_of s = s.
Proof.
  unfold digits_of. induction 1 as [|c s Hc _ IH]; simpl.
  - reflexivity.
  - rewrite Hc, IH. reflexivity.
Qed.

Lemma normalize_all_digits (phone : str) :
  Forall (fun c => isdigit c = true) (normalize_phone_number phone).
Proof.
  unfold normalize_phone_number.
  destruct (length (digits_of phone) =? 10)%nat.
  - apply Forall_app; split.
    + repeat constructor; apply isdigit_ascii; vm_compute; split; discriminate.
    + apply digits_of_all_digits.
  - apply digits_of_all_digits.
Qed.

(** C10: [normalize_phone_number] returns only digit characters and is
    idempotent: a second application returns its argument unchanged, so the
    country code is never prefixed twice. *)
Theorem normalize_phone_number_digits_idempotent (phone : str) :
  Forall (fun c => isdigit c = true) (normalize_phone_number phone) /\
  normalize_phone_number (normalize_phone_number phone)
    = normalize_phone_number phone.
Proof.
  split; [apply normalize_all_digits|].
  pose proof (normalize_all_digits phone) as Hd.
  unfold normalize_phone_number at 1.
  rewrite (digits_of_fixed _ Hd).
  unfold normalize_phone_number.
  destruct (length (digits_of phone) =? 10)%nat eqn:E.
  - apply Nat.eqb_eq in E.
    rewrite length_app, E. reflexivity.
  - rewrite E. reflexivity.
Qed.

End normalize_phone_number_facts.

Example normalize_ten_digits :
  normalize_phone_number (lit "(987) 654-3210") = lit "919876543210".
Proof. reflexivity. Qed.

Example normalize_twice :
  normalize_phone_number (normalize_phone_number (lit "(987) 654-3210"))
  = lit "919876543210".
Proof. reflexivity. Qed.

Example normalize_with_country_code :
  normalize_phone_number (lit "+91 98765 43210") = lit "919876543210".
Proof. reflexivity. Qed.




Section mongo_facts.

Lemma update_first_none f p (coll : collection) :
  update_first f p coll = Returns None -> List.find p coll = None.
Proof.
  induction coll as [|d rest IH]; simpl; [reflexivity|].
  destruct (p d).
  - destruct (f d); discriminate.
  - destruct (update_first f p rest) as [[r|]|]; simpl; try discriminate.
    intros _. apply IH. reflexivity.
Qed.

Lemma update_first_some f p (coll coll' : collection) :
  update_first f p coll = Returns (Some coll') ->
  exists d d', List.find p coll = Some d /\ f d = Returns d' /\
               (p d' = true -> List.find p coll' = Some d').
Proof.
  revert coll'. induction coll as [|d rest IH]; simpl; intros coll'; [discriminate|].
  destruct (p d) eqn:Hp.
  - destruct (f d) as [d'|] eqn:Hf; [|discriminate].
    intros [= <-]. exists d, d'. repeat split; [assumption|].
    intros Hp'. simpl. rewrite Hp'. reflexivity.
  - destruct (update_first f p rest) as [[r|]|]; simpl; try discriminate.
    intros [= <-]. destruct (IH r eq_refl) as (d0 & d' & H1 & H2 & H3).
    exists d0, d'. repeat split; try assumption.
    intros Hp'. simpl. rewrite Hp. apply H3, Hp'.
Qed.

Lemma update_first_total f p (coll : collection) e :
  (forall d, exists d', f d = Returns d') ->
  update_first f p coll <> Raises e.
Proof.
  intros Hf. induction coll as [|d rest IH]; simpl; [discriminate|].
  destruct (p d).
  - destruct (Hf d) as [d' ->]. discriminate.
  - destruct (update_first f p rest); [discriminate|]. exact IH.
Qed.

Lemma find_app_none {A} (p : A -> bool) (l : list A) (x : A) :
  List.find p l = None -> List.find p (l ++ [x]) = List.find p [x].
Proof.
  induction l as [|a l IH]; simpl; [reflexivity|].
  destruct (p a); [discriminate|]. exact IH.
Qed.

Lemma validate_rejects_dollar (d : document) (f : string) (v : value) :
  d !! f = Some v -> starts_with_dollar f = true ->
  exists e, validate_for_storage RejectDollarFields d = Raises e.
Proof.
  intros Hl Hf. unfold validate_for_storage.
  destruct (List.find starts_with_dollar (map_to_list d).*1) eqn:E; [eauto|].
  exfalso. pose proof (find_none _ _ E f) as Hn.
  rewrite Hn in Hf; [discriminate|].
  apply list_elem_of_In, list_elem_of_fmap. exists (f, v). split; [reflexivity|].
  apply elem_of_map_to_list. exact Hl.
Qed.

Lemma disjoint_fields_empty_r (a : document) : disjoint_fields a ∅ = true.
Proof.
  unfold disjoint_fields. apply bool_decide_eq_true. rewrite dom_empty_L.
  apply disjoint_empty_r.
Qed.

Lemma disjoint_fields_empty_l (a : document) : disjoint_fields ∅ a = true.
Proof.
  unfold disjoint_fields. apply bool_decide_eq_true. rewrite dom_empty_L.
  apply disjoint_empty_l.
Qed.

(** An update made of [$set] and [$setOnInsert] only. *)
Lemma update_one_set_soi policy field v (a b : document) upsert (coll : collection) :
  disjoint_fields a b = true ->
  update_one policy field v
    {[ "$set"%string := VDoc a; "$setOnInsert"%string := VDoc b ]} upsert coll
  = match update_first (modify policy a ∅) (matches field v) coll with
    | Raises e => Raises e
    | Returns (Some coll') => Returns coll'
    | Returns None =>
        if upsert then
          match validate_for_storage policy b with
          | Raises e => Raises e
          | Returns _ =>
              match modify policy a ∅ (b ∪ {[ field := v ]}) with
              | Returns d => Returns (coll ++ [d])
              | Raises e => Raises e
              end
          end
        else Returns coll
    end.
Proof.
  intros Hab. unfold update_one.
  match goal with
  | |- context [negb (bool_decide ?P)] =>
      assert (Hops : bool_decide P = true) by (vm_compute; reflexivity);
      rewrite Hops
  end.
  unfold operand. simplify_map_eq. simpl.
  rewrite disjoint_fields_empty_r, disjoint_fields_empty_l, Hab. simpl.
  reflexivity.
Qed.

(** An update made of [$set] only. *)
Lemma update_one_set policy field v (a : document) upsert (coll : collection) :
  update_one policy field v {[ "$set"%string := VDoc a ]} upsert coll
  = match update_first (modify policy a ∅) (matches field v) coll with
    | Raises e => Raises e
    | Returns (Some coll') => Returns coll'
    | Returns None =>
        if upsert then
          match modify policy a ∅ (∅ ∪ {[ field := v ]}) with
          | Returns d => Returns (coll ++ [d])
          | Raises e => Raises e
          end
        else Returns coll
    end.
Proof.
  unfold update_one.
  match goal with
  | |- context [negb (bool_decide ?P)] =>
      assert (Hops : bool_decide P = true) by (vm_compute; reflexivity);
      rewrite Hops
  end.
  unfold operand. simplify_map_eq. simpl.
  rewrite disjoint_fields_empty_r, disjoint_fields_empty_l. simpl.
  destruct (update_first _ _ coll) as [[c|]|]; try reflexivity.
  destruct upsert; [|reflexivity].
  destruct policy; reflexivity.
Qed.

Lemma no_dollar_modify policy (a d : document) :
  List.find starts_with_dollar (map_to_list a).*1 = None ->
  modify policy a ∅ d = Returns (a ∪ d).
Proof.
  intros Ha. unfold modify, validate_for_storage. rewrite Ha.
  rewrite map_to_list_empty. simpl. destruct policy; reflexivity.
Qed.

End mongo_facts.


Section inbox_facts.

Lemma conversation_data_has_inc (m : Message) (now : Z) :
  exists v, conversation_data m now !! "$inc"%string = Some v.
Proof.
  unfold conversation_data. destruct (direction m); eexists; apply lookup_insert_eq.
Qed.

Lemma conversation_data_no_counter (m : Message) (now : Z) (f : string) :
  f = "total_messages"%string \/ f = "unread_count"%string \/
  f = "created_at"%string \/ f = "is_archived"%string \/ f = "labels"%string ->
  conversation_data m now !! f = None.
Proof.
  unfold conversation_data.
  intros [->|[->|[->|[->| ->]]]]; destruct (direction m); reflexivity.
Qed.

Lemma conversation_fields_disjoint (m : Message) (now : Z) :
  disjoint_fields (conversation_data m now) (set_on_insert now) = true.
Proof.
  unfold conversation_data. destruct (direction m); vm_compute; reflexivity.
Qed.

Lemma conversation_update_rejected (m : Message) (now : Z) (coll : collection) :
  _update_conversation RejectDollarFields m now coll = coll.
Proof.
  unfold _update_conversation.
  rewrite update_one_set_soi by apply conversation_fields_disjoint.
  destruct (conversation_data_has_inc m now) as [v Hv].
  destruct (validate_rejects_dollar _ _ _ Hv eq_refl) as [e He].
  assert (Hmod : forall d, modify RejectDollarFields (conversation_data m now) ∅ d = Raises e).
  { intros d. unfold modify. rewrite He. reflexivity. }
  destruct (update_first _ _ coll) as [[c|]|] eqn:E.
  - apply update_first_some in E as (d & d' & _ & Hf & _).
    rewrite Hmod in Hf. discriminate.
  - destruct (validate_for_storage RejectDollarFields (set_on_insert now)); [|reflexivity].
    rewrite Hmod. reflexivity.
  - reflexivity.
Qed.

Lemma modify_store_no_inc (a d : document) :
  modify StoreDollarFields a ∅ d = Returns (a ∪ d).
Proof. unfold modify. simpl. rewrite map_to_list_empty. reflexivity. Qed.

Lemma conversation_data_matches (m : Message) (now : Z) (d : document) :
  matches "user_id" (VStr (user_id m)) (conversation_data m now ∪ d) = true.
Proof.
  unfold matches.
  assert (conversation_data m now !! "user_id"%string = Some (VStr (user_id m))) as Hu.
  { unfold conversation_data. destruct (direction m); reflexivity. }
  rewrite (lookup_union_Some_l _ _ _ _ Hu). simpl.
  apply bool_decide_eq_true. reflexivity.
Qed.

(** What the permissive store holds after one call: the first matching
    document overlaid with [conversation_data], or a fresh document made of
    the filter, the insert-only defaults and [conversation_data]. *)
Lemma conversation_update_stored (m : Message) (now : Z) (coll : collection) :
  conversation_of (user_id m) (_update_conversation StoreDollarFields m now coll)
  = Some (conversation_data m now ∪
            match conversation_of (user_id m) coll with
            | Some d => d
            | None => set_on_insert now ∪ {[ "user_id"%string := VStr (user_id m) ]}
            end).
Proof.
  unfold _update_conversation, conversation_of, find_one.
  rewrite update_one_set_soi by apply conversation_fields_disjoint.
  destruct (update_first _ _ coll) as [[c|]|] eqn:E.
  - apply update_first_some in E as (d & d' & Hfind & Hf & Hnew).
    rewrite modify_store_no_inc in Hf. injection Hf as <-.
    rewrite Hfind. apply Hnew, conversation_data_matches.
  - apply update_first_none in E. rewrite E. simpl.
    rewrite modify_store_no_inc, (find_app_none _ _ _ E). simpl.
    rewrite conversation_data_matches. reflexivity.
  - exfalso. eapply update_first_total; [|exact E].
    intros d. rewrite modify_store_no_inc. eauto.
Qed.

End inbox_facts.

(** The store does count when [$inc] is a top-level operator: two such updates
    leave [total_messages = 2] and [unread_count = 2]. *)
Example top_level_inc_counts :
  match update_one RejectDollarFields "user_id" (VStr (lit "919876543210"))
          update_with_top_level_inc true [] with
  | Returns c1 =>
      match update_one RejectDollarFields "user_id" (VStr (lit "919876543210"))
              update_with_top_level_inc true c1 with
      | Returns c2 =>
          counter "total_messages" (conversation_of (lit "919876543210") c2) = 2 /\
          counter "unread_count" (conversation_of (lit "919876543210") c2) = 2 /\
          length c2 = 1%nat
      | Raises _ => False
      end
  | Raises _ => False
  end.
Proof. vm_compute. repeat split. Qed.

(** The aggregator on an empty store, one inbound message: nothing is stored
    by a store that rejects the [$inc] key; a store that keeps it holds a
    conversation without counters. *)
Example inbound_message_on_empty_store :
  _update_conversation RejectDollarFields inbound_hello 101 [] = [] /\
  let stored := conversation_of (lit "919876543210")
                  (_update_conversation StoreDollarFields inbound_hello 101 []) in
  stored_field "total_messages" stored = None /\
  stored_field "unread_count" stored = None /\
  stored_field "$inc" stored
    = Some (VDoc {[ "unread_count"%string := VInt 1;
                    "total_messages"%string := VInt 1 ]}).
Proof. vm_compute. repeat split. Qed.

Section inbox_properties.

(** C1: [_update_conversation] leaves [total_messages] and [unread_count] of
    the stored conversation of the counterparty exactly as they were, for
    every message, inbound or outbound: the increment by one does not happen,
    whatever the store does with the [$inc] key that sits inside the [$set]
    operand. *)
Theorem update_conversation_counters_not_incremented
    (policy : dollar_policy) (m : Message) (now : Z) (coll : collection) :
  let before := conversation_of (user_id m) coll in
  let after := conversation_of (user_id m) (_update_conversation policy m now coll) in
  counter "total_messages" after = counter "total_messages" before /\
  counter "unread_count" after = counter "unread_count" before.
Proof.
  destruct policy; simpl.
  - rewrite conversation_update_rejected. split; reflexivity.
  - rewrite conversation_update_stored. unfold counter.
    split.
    + rewrite lookup_union_r by (apply conversation_data_no_counter; auto).
      destruct (conversation_of (user_id m) coll); reflexivity.
    + rewrite lookup_union_r by (apply conversation_data_no_counter; auto).
      destruct (conversation_of (user_id m) coll); reflexivity.
Qed.

(** C8: the first message of a counterparty does not create the conversation
    on a store that rejects the [$inc] key inside [$set]: the store is left
    as it was, for every message. On a permissive store the conversation is
    created with [is_archived = False], [labels = []] and [created_at], and
    later calls keep these three fields, but [total_messages] stays as it
    was (absent on creation): the counters are never updated. *)
Theorem update_conversation_seed_fields_and_counters
    (m : Message) (now : Z) (coll : collection) :
  _update_conversation RejectDollarFields m now coll = coll /\
  let after :=
    conversation_of (user_id m) (_update_conversation StoreDollarFields m now coll) in
  match conversation_of (user_id m) coll with
  | None =>
      stored_field "is_archived" after = Some (VBool false) /\
      stored_field "labels" after = Some (VList []) /\
      stored_field "created_at" after = Some (VTime now) /\
      stored_field "total_messages" after = None
  | Some d =>
      stored_field "is_archived" after = d !! "is_archived"%string /\
      stored_field "labels" after = d !! "labels"%string /\
      stored_field "created_at" after = d !! "created_at"%string /\
      stored_field "total_messages" after = d !! "total_messages"%string
  end.
Proof.
  split; [apply conversation_update_rejected|].
  simpl. rewrite conversation_update_stored. unfold stored_field. simpl.
  rewrite !lookup_union_r by (apply conversation_data_no_counter; auto 6).
  destruct (conversation_of (user_id m) coll); repeat split; reflexivity.
Qed.

End inbox_properties.

Section cache_properties.

(** C5: on a store that answers, an entry written by [set] at instant
    [time] with a time to live [ttl] is stored with [expires_at = time + ttl],
    and [get] returns its value: [get] takes no instant and never reads
    [expires_at], so the value is returned at every later instant, also once
    [expires_at] has passed. *)
Theorem cache_get_returns_expired_entry
    (policy : dollar_policy) (coll : collection) (key : str) (v : value)
    (ttl time : Z) :
  let cache :=
    Cache.set None policy {| Cache.cache_collection := Some coll |} key v ttl time in
  Cache.stored_expiry cache key = Some (VTime (time + ttl)) /\
  Cache.get None cache key = v.
Proof.
  simpl. unfold Cache.set, Cache.stored_expiry, Cache.get. simpl.
  rewrite update_one_set.
  set (a := ({[ "value"%string := v; "expires_at"%string := VTime (time + ttl) ]} : document)).
  assert (Hplain : forall d, modify policy a ∅ d = Returns (a ∪ d)).
  { intros d. apply no_dollar_modify. reflexivity. }
  assert (Hm : forall d, matches "_id" (VStr key) d = true ->
                         matches "_id" (VStr key) (a ∪ d) = true).
  { intros d. unfold matches. rewrite lookup_union_r by reflexivity. auto. }
  assert (Hval : forall d, (a ∪ d) !! "value"%string = Some v).
  { intros d. apply lookup_union_Some_l. reflexivity. }
  assert (Hexp : forall d, (a ∪ d) !! "expires_at"%string = Some (VTime (time + ttl))).
  { intros d. apply lookup_union_Some_l. reflexivity. }
  assert (Hne : forall d, map_to_list (a ∪ d) <> []).
  { intros d Hd. apply map_to_list_empty_iff in Hd.
    specialize (Hval d). rewrite Hd in Hval. discriminate. }
  assert (Hfound : forall c d, find_one "_id" (VStr key) c = Some (a ∪ d) ->
    match find_one "_id" (VStr key) c with
    | Some doc => doc !! "expires_at"%string | None => None end
      = Some (VTime (time + ttl)) /\
    match find_one "_id" (VStr key) c with
    | Some doc => match map_to_list doc with
                  | [] => VNull
                  | _ => match doc !! "value"%string with Some x => x | None => VNull end
                  end
    | None => VNull end = v).
  { intros c d ->. rewrite Hexp, Hval. split; [reflexivity|].
    destruct (map_to_list (a ∪ d)) eqn:E; [|reflexivity].
    exfalso. exact (Hne d E). }
  destruct (update_first _ _ coll) as [[c|]|] eqn:E.
  - apply update_first_some in E as (d & d' & Hfind & Hf & Hnew).
    rewrite Hplain in Hf. injection Hf as <-. simpl.
    apply (Hfound c d). apply Hnew, Hm.
    apply find_some in Hfind. apply Hfind.
  - apply update_first_none in E. rewrite Hplain. simpl.
    apply (Hfound _ (∅ ∪ {[ "_id"%string := VStr key ]})).
    unfold find_one. rewrite (find_app_none _ _ _ E). simpl.
    rewrite Hm; [reflexivity|].
    unfold matches. simplify_map_eq. simpl. apply bool_decide_eq_true. reflexivity.
  - exfalso. eapply update_first_total; [|exact E]. intros d. rewrite Hplain. eauto.
Qed.

(** Written at instant 0 with a time to live of 10: read at any later
    instant, say 100, the entry is still returned. *)
Example cache_entry_survives_expiry :
  let cache := Cache.set None RejectDollarFields
                 {| Cache.cache_collection := Some [] |}
                 (lit "template:welcome") (VStr (lit "cached")) 10 0 in
  Cache.stored_expiry cache (lit "template:welcome") = Some (VTime 10) /\
  Cache.get None cache (lit "template:welcome") = VStr (lit "cached").
Proof. vm_compute. repeat split. Qed.

End cache_properties.

(** Every path through [_make_request]: what the channel answers, the
    status, the header, the body. *)
Ltac make_request_paths w s :=
  unfold _make_request, try_except, _make_request_body, bind, post, of_outcome;
  destruct (post_answer w (length (posted s))) as [?e|?rsp]; simpl;
  [ destruct e; simpl
  | destruct (status_code rsp =? 429);
    [ destruct (retry_after_header rsp) as [[?n|?e]|]; simpl;
      unfold time_sleep; try destruct (_ <? 0); simpl; try (destruct e; simpl)
    | destruct (json rsp) as [?e|?t|?d]; simpl;
      [ destruct e; simpl
      |
      | destruct (status_code rsp =? 200); simpl;
        [ unfold first_message_id;
          destruct (messages_field d) as [| |[|[?m|] ?l]]; simpl
        | unfold error_of; destruct (error_field d) as [| |?eo]; simpl ] ] ] ].

Section whatsapp_facts.
Context `{Unicode}.

Lemma make_request_returns (w : world) (p : payload) (s : state) :
  exists r, _make_request w p s =
            (Returns r, snd (_make_request w p s)) /\
            posted (snd (_make_request w p s)) = posted s ++ [p].
Proof. make_request_paths w s; eauto. Qed.

Lemma make_request_view (w : world) (p : payload) (s : state) :
  dispatcher_view (snd (_make_request w p s)) = dispatcher_view s.
Proof. make_request_paths w s; reflexivity. Qed.

Lemma make_request_acquire (w : world) (p : payload) (s : state) :
  acquire_calls (snd (_make_request w p s)) = acquire_calls s.
Proof. make_request_paths w s; reflexivity. Qed.

(** One attempt either stops at the rate limiter (an exception or a denial,
    nothing posted) or posts once and returns. *)
Lemma attempt_cases (w : world) (to message : str) (s : state) :
  let '(o, s') := send_text_message_attempt w to message s in
  dispatcher_view s' = dispatcher_view s /\
  acquire_calls s' = S (acquire_calls s) /\
  ((posted s' = posted s) \/
   (exists r p, o = Returns r /\ posted s' = posted s ++ [p])).
Proof.
  unfold send_text_message_attempt, bind, acquire.
  destruct (acquire_answer w (acquire_calls s)) as [granted|e]; simpl.
  - destruct granted; simpl.
    + destruct (make_request_returns w
        {| payload_to := normalize_phone_number to; payload_type := lit "text";
           payload_text_body := message |}
        (set_acquire_calls (S (acquire_calls s)) s)) as (r & Hr & Hp).
      pose proof (make_request_view w
        {| payload_to := normalize_phone_number to; payload_type := lit "text";
           payload_text_body := message |}
        (set_acquire_calls (S (acquire_calls s)) s)) as Hv.
      pose proof (make_request_acquire w
        {| payload_to := normalize_phone_number to; payload_type := lit "text";
           payload_text_body := message |}
        (set_acquire_calls (S (acquire_calls s)) s)) as Ha.
      rewrite Hr in Hv, Ha, Hp |- *. simpl in Hv, Ha, Hp.
      split; [exact Hv|]. split; [exact Ha|]. right. eauto.
    + repeat split. left. reflexivity.
  - repeat split. left. reflexivity.
Qed.

(** The decorated function never posts more than once: an attempt that
    reaches the channel returns, and a returned value ends the retry loop. *)
Lemma retrying_attempt_cases (n k : nat) (w : world) (to message : str) (s : state) :
  let '(o, s') :=
    Tenacity.retrying (retry_error_text w) Tenacity.retry_if_transient (Tenacity.wait_exponential 1 2 10)
      n k (send_text_message_attempt w to message) s in
  dispatcher_view s' = dispatcher_view s /\
  ((posted s' = posted s) \/
   (exists r p, o = Returns r /\ posted s' = posted s ++ [p])).
Proof.
  revert k s. induction n as [|n IH]; intros k s; simpl.
  - split; [reflexivity|left; reflexivity].
  - unfold try_except.
    pose proof (attempt_cases w to message s) as Hc.
    destruct (send_text_message_attempt w to message s) as [[r|e] s1].
    + destruct Hc as (Hv & _ & Hp). split; assumption.
    + destruct Hc as (Hv & _ & [Hp|(r & p & Habs & _)]); [|discriminate].
      destruct (Tenacity.retry_if_transient e).
      * destruct n as [|n'].
        -- simpl. split; [assumption|left; assumption].
        -- unfold bind at 1. unfold Tenacity.sleep, modify_state.
           specialize (IH (S k) (set_slept (slept s1 ++ [Tenacity.wait_exponential 1 2 10 k]) s1)).
           destruct (Tenacity.retrying _ _ _ (S n') (S k) _ _) as [o2 s2].
           destruct IH as (Hv2 & Hp2). split.
           ++ rewrite Hv2. exact Hv.
           ++ simpl in Hp2. rewrite Hp in Hp2. exact Hp2.
      * simpl. split; [assumption|left; assumption].
Qed.

Lemma send_text_message_posts_at_most_once (w : world) (to message : str) (s : state) :
  (length (posted (snd (send_text_message w to message s)))
     <= S (length (posted s)))%nat /\
  dispatcher_view (snd (send_text_message w to message s)) = dispatcher_view s.
Proof.
  unfold send_text_message.
  pose proof (retrying_attempt_cases 3 1 w to message s) as Hc.
  destruct (Tenacity.retrying _ _ _ 3 1 _ s) as [o s']. simpl.
  destruct Hc as (Hv & [Hp|(r & p & _ & Hp)]); rewrite Hp; split; try assumption.
  - lia.
  - rewrite length_app. simpl. lia.
Qed.

End whatsapp_facts.

Section whatsapp_properties.

(** C3: [send_text_message] never posts a second request, whatever the
    rate limiter and the channel answer: [_make_request] turns every
    exception into a returned dict, so the decorator has nothing to retry.
    On a channel whose first two requests time out and whose third would
    succeed, it makes one request, never waits, and returns the failure
    "Request timeout" instead of the identifier of the third attempt. *)
Theorem send_text_message_does_not_retry_timeout :
  (forall (U : Unicode) (w : world) (to message : str) (s : state),
     (length (posted (@send_text_message U w to message s).2)
        <= S (length (posted s)))%nat) /\
  let '(result, s) :=
    send_text_message flaky_world (lit "9876543210") (lit "hi") empty_state in
  result = Returns (failure (lit "Request timeout")) /\
  length (posted s) = 1%nat /\ slept s = [].
Proof.
  split.
  - intros U w to message s.
    pose proof (retrying_attempt_cases 3 1 w to message s) as Hc.
    unfold send_text_message.
    destruct (Tenacity.retrying _ _ _ 3 1 _ s) as [o s']. simpl.
    destruct Hc as (_ & [Hp|(r & p & _ & Hp)]); rewrite Hp.
    + lia.
    + rewrite length_app. simpl. lia.
  - vm_compute. repeat split.
Qed.

(** Neither is a 5xx answer or a refused connection retried: both come back
    as failure dicts after one request. *)
Example send_text_message_does_not_retry_5xx_or_connection_error :
  let unavailable :=
    PostResponse {| status_code := 503; retry_after_header := None;
                    json := Object {| messages_field := Absent;
                                      error_field :=
                                        Present {| error_message := Present (lit "Service unavailable");
                                                   error_code_field := Present 2 |} |} |} in
  let w answer :=
    {| utcnow := 1000; acquire_answer := fun _ => Returns true;
       post_answer := fun k => match k with
                               | O => answer
                               | _ => ok_response (lit "wamid.2")
                               end;
       db_answer := fun _ => None; new_object_id := 1%positive;
       str_format := fun template _ => Returns template;
       store_policy := RejectDollarFields; retry_error_text := retry_text |} in
  let run answer := send_text_message (w answer) (lit "9876543210") (lit "hi") empty_state in
  (run unavailable).1
    = Returns {| success := false; message_id := None;
                 error := Some (lit "Service unavailable"); error_code := Some 2 |} /\
  length (posted (run unavailable).2) = 1%nat /\
  (run (PostRaises (ConnectionError (lit "Connection refused")))).1
    = Returns (failure (lit "Connection error")) /\
  length (posted (run (PostRaises (ConnectionError (lit "Connection refused")))).2)
    = 1%nat.
Proof. vm_compute. repeat split. Qed.

(** The decorator itself does retry when the exception reaches it: applied
    to the [try] block without its [except] clauses, the same channel gives
    the identifier of the third attempt after two waits of 2. *)
Example retrying_unswallowed_body :
  let p := {| payload_to := lit "919876543210"; payload_type := lit "text";
              payload_text_body := lit "hi" |} in
  let '(result, s) :=
    Tenacity.retrying retry_text Tenacity.retry_if_transient
      (Tenacity.wait_exponential 1 2 10) 3 1
      (_make_request_body flaky_world p) empty_state in
  (success <$> (match result with Returns r => Some r | Raises _ => None end)) = Some true /\
  (message_id <$> (match result with Returns r => Some r | Raises _ => None end))
    = Some (Some (lit "wamid.3")) /\
  length (posted s) = 3%nat /\ slept s = [2; 2].
Proof. vm_compute. repeat split. Qed.

Context `{Hmac}.

Lemma hex_digit_ascii (n : N) : (n < 16)%N -> is_ascii_char (hex_digit n) = true.
Proof.
  intros Hn. unfold is_ascii_char, hex_digit.
  destruct (n <? 10)%N eqn:E; apply N.ltb_lt; [apply N.ltb_lt in E|]; lia.
Qed.

Lemma hexlify_ascii (bytes : list N) : is_ascii (hexlify bytes) = true.
Proof.
  unfold is_ascii, hexlify. induction bytes as [|b bs IH]; simpl; [reflexivity|].
  rewrite !hex_digit_ascii by (apply N.mod_lt; discriminate). exact IH.
Qed.

Lemma expected_header_ascii (secret : str) (payload_bytes : list N) :
  is_ascii (expected_header secret payload_bytes) = true.
Proof.
  unfold expected_header, is_ascii. rewrite forallb_app.
  fold (is_ascii (hexlify (hmac_sha256 (utf8_encode secret) payload_bytes))).
  rewrite hexlify_ascii. reflexivity.
Qed.

(** A missing or empty header, or a missing or empty secret: [False], no
    exception. *)
Lemma validate_webhook_signature_absent
    (secret : option str) (payload_bytes : list N) (signature : option str) :
  falsy signature = true \/ falsy secret = true ->
  validate_webhook_signature secret payload_bytes signature = Returns false.
Proof.
  unfold validate_webhook_signature.
  intros [->| ->]; [reflexivity|]. rewrite orb_true_r. reflexivity.
Qed.

(** Present inputs: [True] exactly for the header computed from the payload
    and the secret. *)
Lemma validate_webhook_signature_true_iff
    (secret : str) (payload_bytes : list N) (sig : str) :
  secret <> [] -> sig <> [] ->
  validate_webhook_signature (Some secret) payload_bytes (Some sig) = Returns true
  <-> sig = expected_header secret payload_bytes.
Proof.
  intros Hk Hs. unfold validate_webhook_signature, falsy.
  assert (truthy secret = true) as -> by (destruct secret; [congruence|reflexivity]).
  assert (truthy sig = true) as -> by (destruct sig; [congruence|reflexivity]).
  simpl. unfold compare_digest. rewrite expected_header_ascii. simpl.
  split.
  - destruct (is_ascii sig); [|intros Hd; discriminate Hd].
    intros [= Hd]. apply bool_decide_eq_true in Hd. congruence.
  - intros Heq. rewrite Heq, expected_header_ascii.
    rewrite bool_decide_eq_true_2; reflexivity.
Qed.

(** A present ASCII header that differs from the computed one: [False]. *)
Lemma validate_webhook_signature_ascii_mismatch
    (secret : str) (payload_bytes : list N) (sig : str) :
  is_ascii sig = true -> sig <> expected_header secret payload_bytes ->
  validate_webhook_signature (Some secret) payload_bytes (Some sig) = Returns false.
Proof.
  intros Ha Hne. unfold validate_webhook_signature.
  destruct (falsy (Some sig) || falsy (Some secret)); [reflexivity|].
  unfold compare_digest. rewrite expected_header_ascii, Ha. simpl.
  rewrite bool_decide_eq_false_2; [reflexivity|congruence].
Qed.

(** C6: for a present secret and the header computed from the payload, the
    result is [True]; once the last character of that header is replaced by
    U+00E9 the call raises [TypeError] instead of returning [False]:
    [hmac.compare_digest] refuses a [str] that is not ASCII. *)
Theorem validate_webhook_signature_raises_on_non_ascii (payload_bytes : list N) :
  let secret := lit "app-secret" in
  let valid := expected_header secret payload_bytes in
  let mutated := removelast valid ++ [233%N] in
  validate_webhook_signature (Some secret) payload_bytes (Some valid)
    = Returns true /\
  validate_webhook_signature (Some secret) payload_bytes (Some mutated)
    = Raises (TypeError (lit "comparing strings with non-ASCII characters is not supported")).
Proof.
  cbv zeta. split.
  - apply validate_webhook_signature_true_iff; [discriminate| |reflexivity].
    unfold expected_header. discriminate.
  - unfold validate_webhook_signature.
    assert (falsy (Some (removelast (expected_header (lit "app-secret") payload_bytes) ++ [233%N])) = false) as ->.
    { unfold falsy. destruct (removelast _); reflexivity. }
    assert (falsy (Some (lit "app-secret")) = false) as -> by reflexivity.
    cbv beta iota. simpl orb. cbv iota. unfold compare_digest.
    rewrite expected_header_ascii. unfold is_ascii at 1.
    rewrite forallb_app. simpl forallb. rewrite andb_false_r. reflexivity.
Qed.

End whatsapp_properties.

Example webhook_signature_runs :
  let header := @expected_header toy_hmac (lit "app-secret") (lit "{}") in
  @validate_webhook_signature toy_hmac (Some (lit "app-secret")) (lit "{}") (Some header)
    = Returns true /\
  @validate_webhook_signature toy_hmac (Some (lit "app-secret")) (lit "{x}") (Some header)
    = Returns false /\
  @validate_webhook_signature toy_hmac (Some (lit "app-secret")) (lit "{}")
    (Some (lit "sha256=0a0200")) = Returns false /\
  @validate_webhook_signature toy_hmac (Some (lit "app-secret")) (lit "{}") None
    = Returns false /\
  @validate_webhook_signature toy_hmac (Some (lit "app-secret")) (lit "{}") (Some [])
    = Returns false /\
  @validate_webhook_signature toy_hmac None (lit "{}") (Some header) = Returns false.
Proof. vm_compute. repeat split. Qed.

Section connection_manager_properties.
Context {Event : Type}.
Implicit Types (send_json : transport Event) (message : Event)
               (self : manager Event).

Lemma send_all_spec send_json message (connections : list WebSocket)
    (dead : gset positive) (sent : list (positive * Event * bool)) :
  exists attempts,
    (send_all send_json message connections (dead, sent)).2 = sent ++ attempts /\
    attempts.*1.*1 = connections /\
    Forall (fun a => a.1.2 = message) attempts /\
    forall c, c ∈ (send_all send_json message connections (dead, sent)).1
              <-> c ∈ dead \/ (c, message, false) ∈ attempts.
Proof.
  revert dead sent. induction connections as [|conn rest IH]; intros dead sent.
  - exists []. simpl. rewrite app_nil_r. repeat split; auto.
    + intros [?|Hin]; [assumption|]. inversion Hin.
  - simpl. destruct (send_json sent conn message) eqn:Hs.
    + destruct (IH dead (sent ++ [(conn, message, true)])) as (att & H1 & H2 & H3 & H4).
      exists ((conn, message, true) :: att). rewrite H1, <- app_assoc. simpl.
      split; [reflexivity|]. split; [f_equal; exact H2|].
      split; [constructor; auto|]. split.
      * intros Hc. apply H4 in Hc as [?|?]; [left; assumption|right; right; assumption].
      * intros [?|Hc]; apply H4; [left; assumption|].
        right. apply elem_of_cons in Hc as [Hc|Hc]; [discriminate|assumption].
    + destruct (IH (dead ∪ {[conn]}) (sent ++ [(conn, message, false)]))
        as (att & H1 & H2 & H3 & H4).
      exists ((conn, message, false) :: att). rewrite H1, <- app_assoc. simpl.
      split; [reflexivity|]. split; [f_equal; exact H2|].
      split; [constructor; auto|]. split.
      * intros Hc. apply H4 in Hc as [Hc|?]; [|right; right; assumption].
        apply elem_of_union in Hc as [?|Hc]; [left; assumption|].
        apply elem_of_singleton in Hc as ->. right. left.
      * intros [?|Hc]; apply H4.
        -- left. apply elem_of_union. left. assumption.
        -- apply elem_of_cons in Hc as [Hc|Hc].
           ++ injection Hc as ->. left. apply elem_of_union. right.
              apply elem_of_singleton. reflexivity.
           ++ right. assumption.
Qed.

Lemma discard_all_spec (dead : list WebSocket) (active : gset positive) (c : positive) :
  c ∈ discard_all dead active <-> c ∈ active /\ c ∉ dead.
Proof.
  unfold discard_all. revert active. induction dead as [|d dead IH]; intros active; simpl.
  - split; [intros ?; split; [assumption|apply not_elem_of_nil]|intros [? _]; assumption].
  - rewrite IH, elem_of_difference, elem_of_singleton, not_elem_of_cons. tauto.
Qed.

Lemma attempts_unique (attempts : list (positive * Event * bool)) c m b b' :
  NoDup (attempts.*1.*1) ->
  (c, m, b) ∈ attempts -> (c, m, b') ∈ attempts -> b = b'.
Proof.
  induction attempts as [|a att IH]; intros Hnd H1 H2; [inversion H1|].
  simpl in Hnd. apply NoDup_cons in Hnd as [Hnotin Hnd].
  assert (Hfst : forall x, x ∈ att -> x.1.1 ∈ att.*1.*1).
  { intros x Hx. apply list_elem_of_fmap. exists x.1. split; [reflexivity|].
    apply list_elem_of_fmap. exists x. split; [reflexivity|assumption]. }
  apply elem_of_cons in H1 as [H1|H1]; apply elem_of_cons in H2 as [H2|H2].
  - congruence.
  - subst a. exfalso. apply Hnotin. apply (Hfst _ H2).
  - subst a. exfalso. apply Hnotin. apply (Hfst _ H1).
  - apply IH; assumption.
Qed.

(** The flag logged for a call is what the transport did with it, given
    everything sent before. *)
Lemma send_all_flags send_json message (connections : list WebSocket)
    (dead : gset positive) (sent : list (positive * Event * bool)) :
  exists attempts,
    (send_all send_json message connections (dead, sent)).2 = sent ++ attempts /\
    forall i c m b, attempts !! i = Some (c, m, b) ->
                    b = send_json (sent ++ take i attempts) c m.
Proof.
  revert dead sent. induction connections as [|c rest IH]; intros dead sent.
  - exists []. simpl. rewrite app_nil_r. split; [reflexivity|].
    intros i c m b Hi. rewrite lookup_nil in Hi. discriminate.
  - assert (Hcons : forall dead', exists attempts,
      (send_all send_json message rest
         (dead', sent ++ [(c, message, send_json sent c message)])).2
      = sent ++ attempts /\
      forall i c0 m b, attempts !! i = Some (c0, m, b) ->
                       b = send_json (sent ++ take i attempts) c0 m).
    { intros dead'.
      destruct (IH dead' (sent ++ [(c, message, send_json sent c message)]))
        as (attempts & Hsent & Hflags).
      exists ((c, message, send_json sent c message) :: attempts).
      split; [rewrite Hsent, <- app_assoc; reflexivity|].
      intros [|i] c0 m b Hi; simpl in Hi.
      - injection Hi as <- <- <-. simpl. rewrite app_nil_r. reflexivity.
      - rewrite (Hflags i c0 m b Hi). simpl. rewrite <- app_assoc. reflexivity. }
    simpl. destruct (send_json sent c message) eqn:Hsend; apply Hcons.
Qed.

(** C7: [broadcast] calls [send_json] once for every current subscriber,
    with the event, and logs for each call whether it returned; a subscriber
    whose call raises is no longer in the set afterwards, every other
    subscriber stays and was sent the event; on an empty set nothing is sent
    and the manager is unchanged. *)
Theorem broadcast_delivers_to_all_and_prunes_dead send_json message self :
  let self' := broadcast send_json message self in
  exists attempts : list (positive * Event * bool),
    transcript self' = transcript self ++ attempts /\
    attempts.*1.*1 = elements (active_connections self) /\
    Forall (fun a => a.1.2 = message) attempts /\
    (forall i c m b, attempts !! i = Some (c, m, b) ->
       b = send_json (transcript self ++ take i attempts) c m) /\
    (forall c, c ∈ active_connections self' <->
               c ∈ active_connections self /\ (c, message, true) ∈ attempts) /\
    (forall c, (c, message, false) ∈ attempts <->
               c ∈ active_connections self /\ c ∉ active_connections self') /\
    (active_connections self = ∅ -> self' = self /\ attempts = []).
Proof.
  cbv zeta. unfold broadcast.
  destruct (decide (active_connections self = ∅)) as [Hempty|Hne].
  - exists []. rewrite app_nil_r, Hempty, elements_empty.
    split; [reflexivity|]. split; [reflexivity|]. split; [constructor|].
    split; [intros i c m b Hi; rewrite lookup_nil in Hi; discriminate|].
    split; [|split].
    + intros c. split; [intros Hc|intros [Hc _]]; exfalso; set_solver.
    + intros c. split; [intros Hc; inversion Hc|intros [Hc _]; exfalso; set_solver].
    + auto.
  - destruct (send_all_spec send_json message (elements (active_connections self))
                ∅ (transcript self)) as (attempts & Hsent & Hconns & Hmsg & Hdead).
    destruct (send_all_flags send_json message (elements (active_connections self))
                ∅ (transcript self)) as (attempts' & Hsent' & Hflags).
    rewrite Hsent in Hsent'. apply app_inv_head in Hsent'. subst attempts'.
    destruct (send_all send_json message _ (∅, transcript self)) as [dead sent] eqn:E.
    simpl in Hsent, Hdead. simpl.
    assert (Hnd : NoDup (attempts.*1.*1)) by (rewrite Hconns; apply NoDup_elements).
    assert (Hin : forall c m b, (c, m, b) ∈ attempts -> c ∈ active_connections self).
    { intros c m b Hc. apply elem_of_elements. rewrite <- Hconns.
      apply list_elem_of_fmap. exists (c, m). split; [reflexivity|].
      apply list_elem_of_fmap. exists (c, m, b). split; [reflexivity|assumption]. }
    assert (Htried : forall c, c ∈ active_connections self ->
                               exists b, (c, message, b) ∈ attempts).
    { intros c Hc. apply elem_of_elements in Hc. rewrite <- Hconns in Hc.
      apply list_elem_of_fmap in Hc as ([c' m] & Hfst & Hc). simpl in Hfst. subst c'.
      apply list_elem_of_fmap in Hc as ([[c' m'] b] & Hfst & Hc).
      simpl in Hfst. injection Hfst as <- <-.
      rewrite Forall_forall in Hmsg. pose proof (Hmsg _ Hc) as Hm. simpl in Hm.
      subst m. eauto. }
    assert (Hdead' : forall c, c ∈ dead <-> (c, message, false) ∈ attempts).
    { intros c. rewrite Hdead. split; [intros [Hc|Hc]; [set_solver|assumption]|auto]. }
    exists attempts. split; [assumption|]. split; [assumption|].
    split; [assumption|]. split; [exact Hflags|]. split; [|split].
    + intros c. rewrite discard_all_spec, elem_of_elements, Hdead'. split.
      * intros [Hc Hnot]. split; [assumption|].
        destruct (Htried c Hc) as [[|] Hb]; [assumption|contradiction].
      * intros [Hc Ht]. split; [assumption|]. intros Hf.
        pose proof (attempts_unique _ _ _ _ _ Hnd Ht Hf). discriminate.
    + intros c. rewrite discard_all_spec, elem_of_elements, Hdead'. split.
      * intros Hf. split; [eapply Hin; eassumption|]. intros [_ Hnot]. contradiction.
      * intros [Hc Hnot]. destruct (Htried c Hc) as [[|] Hb]; [|assumption].
        exfalso. apply Hnot. split; [assumption|]. intros Hf.
        pose proof (attempts_unique _ _ _ _ _ Hnd Hb Hf). discriminate.
    + intros Habs. contradiction.
Qed.

End connection_manager_properties.

Example broadcast_three_one_dead :
  let after := broadcast second_is_dead (lit "new_message") three_subscribers in
  active_connections after = {[ 1%positive; 3%positive ]} /\
  (1%positive, lit "new_message", true) ∈ transcript after /\
  (3%positive, lit "new_message", true) ∈ transcript after /\
  (2%positive, lit "new_message", false) ∈ transcript after /\
  length (transcript after) = 3%nat.
Proof.
  vm_compute. split; [reflexivity|].
  repeat split; repeat (first [apply list_elem_of_here | apply list_elem_of_further]).
Qed.

Example broadcast_to_nobody :
  broadcast second_is_dead (lit "new_message")
    {| active_connections := ∅; transcript := [] |}
  = {| active_connections := ∅; transcript := [] |}.
Proof. reflexivity. Qed.

Section bulk_sender_facts.
Context `{Unicode}.
Variables (w : world) (message_template : str) (campaign_id : positive)
          (total : nat) (delay : Z) (progress_callback : callback).

Lemma truthy_false (x : str) : truthy x = false <-> x = [].
Proof. destruct x; simpl; split; congruence. Qed.

Lemma personalize_cases (c : contact) (s : state) :
  (exists m, _personalize_message w message_template c s = (Returns m, s)) \/
  (exists e, _personalize_message w message_template c s = (Raises e, s)).
Proof.
  unfold _personalize_message, try_except, of_outcome.
  destruct (str_format w message_template c) as [m|e]; [eauto|].
  destruct e; simpl; eauto.
Qed.

Lemma one_failed (c : contact) (l l' : list contact) (reason : option str) :
  exists ok ko,
    l = l ++ ok /\ l' ++ [with_error_field c reason] = l' ++ ko /\
    (ok = [] \/ ok = [c]) /\
    Forall (fun f => exists r, f = with_error_field c r) ko /\
    (1 <= length ok + length ko)%nat /\
    (callback_returns progress_callback -> (length ok + length ko = 1)%nat).
Proof.
  exists [], [with_error_field c reason]. rewrite app_nil_r.
  repeat split; eauto.
Qed.

Lemma iteration_effects (index : nat) (c : contact) (s : state) :
  exists s', iteration w message_template campaign_id total delay
               progress_callback index c s = (Returns tt, s') /\
             iteration_effect progress_callback index c s s'.
Proof.
  unfold iteration, try_except, process_contact.
  assert (Hlog0 : forall l : list db_op, exists k, l = l ++ replicate k OpInsertMessage).
  { intros l. exists 0%nat. simpl. rewrite app_nil_r. reflexivity. }
  unfold bind at 1. unfold of_outcome at 1.
  destruct (stripped_phone c) as [p|e0] eqn:Hstrip.
  2:{ eexists. split; [reflexivity|]. unfold with_error.
      constructor; simpl; eauto using one_failed; intros;
        unfold with_error; congruence. }
  assert (Hp : phone_of c = p) by (unfold phone_of; rewrite Hstrip; reflexivity).
  subst p.
  destruct (truthy (phone_of c)) eqn:Hphone; simpl.
  2:{ apply truthy_false in Hphone. eexists. split; [reflexivity|]. unfold with_error.
      constructor; simpl; eauto using one_failed; intros; unfold with_error; congruence. }
  assert (Hne : phone_of c <> []).
  { intros Habs. apply truthy_false in Habs. congruence. }
  unfold bind at 1.
  destruct (personalize_cases c s) as [[m Hm]|[e Hm]]; rewrite Hm.
  2:{ eexists. split; [reflexivity|]. unfold with_error.
      constructor; simpl; eauto using one_failed; intros; unfold with_error; congruence. }
  unfold bind at 1. unfold modify_state at 1. unfold bind at 1.
  set (s0 := set_sends (sends s ++ [(index, phone_of c, m)]) s).
  destruct (send_text_message_posts_at_most_once w (phone_of c) m s0) as [_ Hview].
  destruct (send_text_message w (phone_of c) m s0) as [[r|e] s1]; simpl in Hview;
    injection Hview as Hv1 Hv2 Hv3 Hv4 Hv5 Hv6 Hv7.
  2:{ eexists. split; [reflexivity|]. unfold with_error. constructor; simpl;
        rewrite ?Hv1, ?Hv2, ?Hv3, ?Hv4, ?Hv5, ?Hv6, ?Hv7;
        eauto using one_failed; intros; unfold with_error; congruence. }
  unfold bind at 1.
  assert (Hstore : exists s2,
    (if success r
     then bind (messages_insert_one w (message_data w (phone_of c) m campaign_id r))
            (fun _ => append_successful c)
     else bind (messages_insert_one w (message_data w (phone_of c) m campaign_id r))
            (fun _ => append_failed (with_error_field c (error r)))) s1
    = (match db_answer w (db_calls s1) with
       | Some e => Raises e
       | None => Returns tt
       end, s2) /\
    campaigns s2 = campaigns s /\ sends s2 = sends s0 /\
    (exists k, db_log s2 = db_log s ++ replicate k OpInsertMessage) /\
    match db_answer w (db_calls s1) with
    | Some _ => successful s2 = successful s /\ failed s2 = failed s
    | None =>
        (successful s2 = successful s ++ [c] /\ failed s2 = failed s) \/
        (successful s2 = successful s /\
         failed s2 = failed s ++ [with_error_field c (error r)])
    end).
  { unfold messages_insert_one, bind, db_call, modify_state, append_successful,
      append_failed.
    destruct (success r), (db_answer w (db_calls s1)); simpl;
      eexists; (split; [reflexivity|]); simpl;
      rewrite ?Hv1, ?Hv2, ?Hv3, ?Hv4, ?Hv5, ?Hv6, ?Hv7; repeat split; eauto;
      exists 1%nat; reflexivity. }
  destruct Hstore as (s2 & -> & Hc2 & Hs2 & Hl2 & Hlists).
  destruct (db_answer w (db_calls s1)) as [e|].
  { destruct Hlists as [Hsu Hfa]. eexists. split; [reflexivity|]. unfold with_error.
    constructor; simpl; rewrite ?Hc2, ?Hs2, ?Hsu, ?Hfa;
      eauto using one_failed; intros; unfold with_error; congruence. }
  unfold bind at 1.
  assert (Hcb : exists o,
    match progress_callback with
    | Some cb => bind get_state (fun s3 =>
                   of_outcome (cb index total (length (successful s3)) (length (failed s3))))
    | None => ret tt
    end s2 = (o, s2) /\
    (forall e, o = Raises e -> ~ callback_returns progress_callback)).
  { destruct progress_callback as [cb|]; simpl.
    - unfold bind, get_state, of_outcome. eexists. split; [reflexivity|].
      intros e He Hret. simpl in Hret. rewrite Hret in He. discriminate.
    - eexists. split; [reflexivity|]. discriminate. }
  destruct Hcb as (o & -> & Hraise).
  destruct o as [[]|e].
  - assert (Hsl : exists s3, (if (index <? total)%nat then asyncio_sleep delay else ret tt) s2
                             = (Returns tt, s3) /\ dispatcher_view s3 = dispatcher_view s2).
    { destruct (index <? total)%nat; eexists; split; reflexivity. }
    destruct Hsl as (s3 & -> & Hv). injection Hv as Hw1 Hw2 Hw3 Hw4 Hw5 Hw6 Hw7.
    eexists. split; [reflexivity|].
    constructor; rewrite ?Hw1, ?Hw2, ?Hw3, ?Hw4, ?Hw5, ?Hw6, ?Hw7, ?Hc2, ?Hs2; simpl; eauto;
      try (intros; unfold with_error; congruence).
    destruct Hlists as [[-> ->]|[-> ->]]; [|apply one_failed].
    exists [c], []. rewrite app_nil_r. repeat split; eauto.
  - specialize (Hraise e eq_refl).
    eexists. split; [reflexivity|]. unfold with_error.
    constructor; simpl; rewrite ?Hc2, ?Hs2; simpl; eauto; try (intros; unfold with_error; congruence).
    destruct Hlists as [[-> ->]|[-> ->]].
    + exists [c], [with_error_field c (Some (str_of_exn e))].
      split; [reflexivity|]. split; [reflexivity|]. split; [auto|].
      split; [repeat constructor; eauto|]. split; [simpl; lia|contradiction].
    + exists [], [with_error_field c (error r); with_error_field c (Some (str_of_exn e))].
      rewrite app_nil_r, <- app_assoc.
      split; [reflexivity|]. split; [reflexivity|]. split; [auto|].
      split; [repeat constructor; eauto|]. split; [simpl; lia|contradiction].
Qed.

Lemma loop_effects (contacts : list contact) (index0 : nat) (s : state) :
  exists s', loop w message_template campaign_id total delay progress_callback
               index0 contacts s = (Returns tt, s') /\
             loop_effect progress_callback index0 contacts s s'.
Proof.
  revert index0 s. induction contacts as [|c rest IH]; intros index0 s; simpl.
  - exists s. split; [reflexivity|]. constructor.
    + reflexivity.
    + exists 0%nat. simpl. rewrite app_nil_r. reflexivity.
    + exists []. rewrite app_nil_r. split; [reflexivity|constructor].
    + exists [], []. rewrite !app_nil_r. repeat split; auto.
      * intros j c' Hj. rewrite lookup_nil in Hj. discriminate.
      * intros j c' e Hj. rewrite lookup_nil in Hj. discriminate.
  - unfold bind at 1.
    destruct (iteration_effects index0 c s) as (s1 & -> & E1).
    destruct (IH (S index0) s1) as (s2 & -> & E2).
    exists s2. split; [reflexivity|].
    destruct E1 as [Hc1 [k1 Hl1] Hs1
                    (ok1 & ko1 & Hok1 & Hko1 & Hshape & Hall1 & Hge1 & Heq1)
                    Hemp1 Hnone1].
    destruct E2 as [Hc2 [k2 Hl2] (new2 & Hs2 & Hnew2)
                    (ok2 & ko2 & Hok2 & Hko2 & Hge2 & Heq2 & Hin2 & Hnone2)].
    constructor.
    + congruence.
    + exists (k1 + k2)%nat. rewrite Hl2, Hl1, <- app_assoc, replicate_add. reflexivity.
    + assert (Hshift : Forall (fun e => exists j c0, e.1.1 = (index0 + j)%nat /\
                         (c :: rest) !! j = Some c0 /\ phone_of c0 <> [] /\
                         e.1.2 = phone_of c0) new2).
      { eapply Forall_impl; [exact Hnew2|].
        intros e (j & c0 & He & Hj & Hp & Ht). exists (S j), c0.
        repeat split; try assumption. lia. }
      destruct Hs1 as [Hs1|(Hne & m & Hs1)].
      * exists new2. split; [congruence|assumption].
      * exists ((index0, phone_of c, m) :: new2). split.
        -- rewrite Hs2, Hs1, <- app_assoc. reflexivity.
        -- constructor; [|assumption]. exists 0%nat, c. simpl.
           repeat split; auto.
    + exists (ok1 ++ ok2), (ko1 ++ ko2). rewrite !length_app.
      split; [rewrite Hok2, Hok1, <- app_assoc; reflexivity|].
      split; [rewrite Hko2, Hko1, <- app_assoc; reflexivity|].
      split; [simpl; lia|]. split; [|split].
      * intros Hcb. specialize (Heq1 Hcb). specialize (Heq2 Hcb). simpl. lia.
      * intros [|j] c0 Hj Hp; simpl in Hj.
        -- injection Hj as <-. specialize (Hemp1 Hp). subst s1. simpl in Hko1.
           apply app_inv_head in Hko1. subst ko1. apply elem_of_app. left.
           apply list_elem_of_singleton. reflexivity.
        -- apply elem_of_app. right. eapply Hin2; eassumption.
      * intros [|j] c0 e Hj Hp; simpl in Hj.
        -- injection Hj as <-. specialize (Hnone1 e Hp). subst s1. simpl in Hko1.
           apply app_inv_head in Hko1. subst ko1. apply elem_of_app. left.
           apply list_elem_of_singleton. reflexivity.
        -- apply elem_of_app. right. eapply Hnone2; eassumption.
Qed.

Lemma create_campaign_effects (name : str) (n : nat) (s s1 : state) :
  _create_campaign w campaign_id name n s = (Returns tt, s1) ->
  db_log s1 = db_log s ++ [OpInsertCampaign] /\
  successful s1 = successful s /\ failed s1 = failed s /\ sends s1 = sends s /\
  exists doc, campaign_record campaign_id s1 = Some doc /\
              doc !! "status"%string = Some (VStr (lit "running")) /\
              doc !! "total_contacts"%string = Some (VInt (Z.of_nat n)).
Proof.
  unfold _create_campaign, campaigns_insert_one, bind, db_call, get_state.
  destruct (db_answer w (db_calls s)); [discriminate|]. simpl.
  destruct (find_one "_id" (VOid campaign_id) (campaigns s)) eqn:Hfind; [discriminate|].
  unfold modify_state. intros [= <-]. simpl. repeat split.
  eexists. split.
  - unfold campaign_record, find_one, insert_one. simpl.
    rewrite (find_app_none _ _ _ Hfind). simpl.
    unfold matches. rewrite lookup_insert_eq. simpl.
    rewrite bool_decide_eq_true_2; reflexivity.
  - split; reflexivity.
Qed.

Lemma update_campaign_effects (a b : nat) (s s' : state) (doc : document) :
  _update_campaign w campaign_id a b s = (Returns tt, s') ->
  campaign_record campaign_id s = Some doc ->
  db_log s' = db_log s ++ [OpUpdateCampaign] /\
  successful s' = successful s /\ failed s' = failed s /\ sends s' = sends s /\
  exists doc', campaign_record campaign_id s' = Some doc' /\
    doc' !! "status"%string
      = Some (VStr (if (0 <? a + b)%nat then lit "completed" else lit "failed")) /\
    doc' !! "successful_count"%string = Some (VInt (Z.of_nat a)) /\
    doc' !! "failed_count"%string = Some (VInt (Z.of_nat b)).
Proof.
  unfold _update_campaign, campaigns_update_one, bind, db_call, get_state.
  destruct (db_answer w (db_calls s)); [discriminate|]. simpl.
  rewrite update_one_set.
  set (fields := ({[ "status"%string := _; "successful_count"%string := _;
                     "failed_count"%string := _; "completed_at"%string := _ ]} : document)).
  assert (Hplain : forall d, modify (store_policy w) fields ∅ d = Returns (fields ∪ d)).
  { intros d. apply no_dollar_modify. reflexivity. }
  unfold campaign_record, find_one. intros Hrun Hfind.
  destruct (update_first _ _ (campaigns s)) as [[c'|]|] eqn:E.
  - apply update_first_some in E as (d & d' & Hfind' & Hf & Hnew).
    rewrite Hplain in Hf. injection Hf as <-.
    unfold modify_state in Hrun. injection Hrun as <-. simpl.
    repeat split. exists (fields ∪ d). split.
    + apply Hnew. unfold matches. rewrite lookup_union_r by reflexivity.
      apply find_some in Hfind'. apply Hfind'.
    + repeat split; apply lookup_union_Some_l; reflexivity.
  - apply update_first_none in E. congruence.
  - discriminate.
Qed.

Lemma send_bulk_messages_stages (contacts : list contact) (name : str)
    (s s' : state) (r : campaign_result) :
  send_bulk_messages w contacts message_template name delay progress_callback s
    = (Returns r, s') ->
  exists s1 s2,
    _create_campaign w (new_object_id w) name (length contacts)
      (set_failed [] (set_successful [] s)) = (Returns tt, s1) /\
    loop w message_template (new_object_id w) (length contacts) delay
      progress_callback 1 contacts s1 = (Returns tt, s2) /\
    _update_campaign w (new_object_id w) (length (successful s2))
      (length (failed s2)) s2 = (Returns tt, s') /\
    r = {| result_campaign_id := new_object_id w;
           result_total := length contacts;
           result_successful := successful s'; result_failed := failed s' |}.
Proof.
  unfold send_bulk_messages. unfold bind at 1. unfold modify_state at 1.
  unfold bind at 1.
  destruct (_create_campaign w (new_object_id w) name (length contacts) _)
    as [[[]|e] s1] eqn:E1; [|discriminate].
  unfold bind at 1.
  destruct (loop w message_template (new_object_id w) (length contacts) delay
              progress_callback 1 contacts s1) as [[[]|e] s2] eqn:E2; [|discriminate].
  unfold bind at 1. unfold get_state at 1. unfold bind at 1.
  destruct (_update_campaign w (new_object_id w) _ _ s2) as [[[]|e] s3] eqn:E3;
    [|discriminate].
  unfold bind, get_state, ret. intros [= <- <-].
  exists s1, s2. repeat split; assumption.
Qed.

End bulk_sender_facts.

Section bulk_sender_properties.

(** The failing input of C2 evaluated: a recipient whose phone has five
    digits is not put in [failed]; the channel client is called for it, the
    rate limiter is asked once and one request is posted. *)
Example short_phone_recipient_is_sent :
  let run :=
    send_bulk_messages accepting_world [short_phone] (lit "Hello") (lit "promo")
      1 None empty_state in
  (length (digits_of (phone_of short_phone)) < 10)%nat /\
  run.1 = Returns {| result_campaign_id := 7; result_total := 1;
                     result_successful := [short_phone]; result_failed := [] |} /\
  sends run.2 = [(1%nat, lit "12345", lit "Hello")] /\
  acquire_calls run.2 = 1%nat /\ length (posted run.2) = 1%nat.
Proof. vm_compute. repeat split. lia. Qed.

(** The part of C2 the dispatcher does: a recipient without a usable phone
    is recorded in [failed] and [send_text_message] is not called for it.
    The reason is "No phone number" when the phone is missing or empty once
    stripped, and the text of the [AttributeError] when the phone is
    [None]. *)
Lemma empty_phone_recipient_fails_without_send `{Unicode}
    (w : world) (contacts : list contact) (message_template campaign_name : str)
    (delay : Z) (progress_callback : callback) (s s' : state)
    (r : campaign_result) (j : nat) (c : contact) :
  send_bulk_messages w contacts message_template campaign_name delay
    progress_callback s = (Returns r, s') ->
  contacts !! j = Some c ->
  phone_of c = [] ->
  with_error c (match stripped_phone c with
                | Returns _ => lit "No phone number"
                | Raises e => str_of_exn e
                end) ∈ result_failed r /\
  (exists new, sends s' = sends s ++ new /\ forall e, e ∈ new -> e.1.1 <> S j).
Proof.
  intros Hrun Hj Hphone.
  apply send_bulk_messages_stages in Hrun as (s1 & s2 & Hcreate & Hloop & Hupdate & ->).
  apply create_campaign_effects in Hcreate as (_ & Hsu1 & Hfa1 & Hse1 & doc & Hrec1 & _).
  destruct (loop_effects w message_template (new_object_id w) (length contacts)
              delay progress_callback contacts 1 s1) as (s2' & Hloop' & Heff).
  rewrite Hloop in Hloop'. injection Hloop' as <-.
  destruct Heff as [Hcamp _ (new & Hsends & Hnew)
                    (ok & ko & Hok & Hko & _ & _ & Hin & Hnone)].
  assert (Hrec2 : campaign_record (new_object_id w) s2 = Some doc).
  { unfold campaign_record in *. rewrite Hcamp. exact Hrec1. }
  destruct (update_campaign_effects _ _ _ _ _ _ _ Hupdate Hrec2)
    as (_ & Hsu3 & Hfa3 & Hse3 & _).
  simpl. split.
  - rewrite Hfa3, Hko. apply elem_of_app. right.
    unfold phone_of in Hphone.
    destruct (stripped_phone c) as [p|e] eqn:Hstrip.
    + subst p. eapply Hin; eassumption.
    + eapply Hnone; eassumption.
  - exists new. split; [rewrite Hse3, Hsends, Hse1; reflexivity|].
    intros e He. rewrite Forall_forall in Hnew.
    destruct (Hnew e He) as (j' & c' & Hidx & Hj' & Hne & _).
    intros Heq. rewrite Hidx in Heq. simpl in Heq. injection Heq as ->.
    rewrite Hj in Hj'. injection Hj' as <-. contradiction.
Qed.

(** A blank phone and a [None] phone, after a recipient that is sent. *)
Example unusable_phones_fail_without_send :
  let run :=
    send_bulk_messages accepting_world [asha; no_phone; null_phone] (lit "Hello")
      (lit "promo") 1 None empty_state in
  run.1 = Returns
    {| result_campaign_id := 7; result_total := 3;
       result_successful := [asha];
       result_failed :=
         [with_error no_phone (lit "No phone number");
          with_error null_phone
            (lit "'NoneType' object has no attribute 'strip'")] |} /\
  sends run.2 = [(1%nat, lit "9876543210", lit "Hello")] /\
  acquire_calls run.2 = 1%nat.
Proof. vm_compute. repeat split. Qed.

(** C4: with a progress callback that raises, a recipient whose message was
    sent and stored is appended to [successful] and then, by the [except]
    clause, to [failed] as well: one recipient, two entries, and the
    Campaign record stores 1 and 1. *)
Theorem raising_callback_counts_recipient_twice :
  let run :=
    send_bulk_messages accepting_world [asha] (lit "Hello") (lit "promo") 1
      raising_callback empty_state in
  let r := {| result_campaign_id := 7; result_total := 1;
              result_successful := [asha];
              result_failed := [with_error asha (lit "progress display closed")] |} in
  run.1 = Returns r /\
  (length (result_successful r) + length (result_failed r))%nat = 2%nat /\
  stored_field "successful_count" (campaign_record 7 run.2) = Some (VInt 1) /\
  stored_field "failed_count" (campaign_record 7 run.2) = Some (VInt 1).
Proof. vm_compute. repeat split. Qed.

(** A run returns whenever the store answers every write and the fresh
    campaign id is not in use: nothing a recipient, the channel, the rate
    limiter or the callback does makes [send_bulk_messages] raise. *)
Lemma send_bulk_messages_returns `{Unicode}
    (w : world) (contacts : list contact) (message_template campaign_name : str)
    (delay : Z) (progress_callback : callback) (s : state) :
  (forall k, db_answer w k = None) ->
  campaign_record (new_object_id w) s = None ->
  exists r s',
    send_bulk_messages w contacts message_template campaign_name delay
      progress_callback s = (Returns r, s').
Proof.
  intros Hdb Hfresh.
  unfold send_bulk_messages. unfold bind at 1. unfold modify_state at 1.
  unfold bind at 1.
  assert (Hcreate : exists s1,
    _create_campaign w (new_object_id w) campaign_name (length contacts)
      (set_failed [] (set_successful [] s)) = (Returns tt, s1)).
  { unfold _create_campaign, campaigns_insert_one, bind, db_call, get_state.
    rewrite Hdb. simpl. unfold campaign_record in Hfresh. rewrite Hfresh.
    unfold modify_state. eauto. }
  destruct Hcreate as (s1 & ->).
  unfold bind at 1.
  destruct (loop_effects w message_template (new_object_id w) (length contacts)
              delay progress_callback contacts 1 s1) as (s2 & -> & _).
  unfold bind at 1. unfold get_state at 1. unfold bind at 1.
  assert (Hupdate : exists s3,
    _update_campaign w (new_object_id w) (length (successful s2))
      (length (failed s2)) s2 = (Returns tt, s3)).
  { unfold _update_campaign, campaigns_update_one, bind, db_call, get_state.
    rewrite Hdb. simpl. rewrite update_one_set.
    destruct (update_first _ _ (campaigns s2)) as [[c|]|] eqn:E.
    - unfold modify_state. eauto.
    - unfold modify_state. eauto.
    - exfalso. eapply update_first_total; [|exact E].
      intros d. rewrite no_dollar_modify by reflexivity. eauto. }
  destruct Hupdate as (s3 & ->).
  unfold bind, get_state, ret. eauto.
Qed.

(** When the progress callback returns normally (or none is given), every
    recipient lands in exactly one of the two lists, and the Campaign record
    stores the two lengths. *)
Lemma send_bulk_messages_partitions `{Unicode}
    (w : world) (contacts : list contact) (message_template campaign_name : str)
    (delay : Z) (progress_callback : callback) (s s' : state)
    (r : campaign_result) :
  send_bulk_messages w contacts message_template campaign_name delay
    progress_callback s = (Returns r, s') ->
  (callback_returns progress_callback ->
   (length (result_successful r) + length (result_failed r))%nat = result_total r) /\
  result_total r = length contacts /\
  stored_field "successful_count" (campaign_record (result_campaign_id r) s')
    = Some (VInt (Z.of_nat (length (result_successful r)))) /\
  stored_field "failed_count" (campaign_record (result_campaign_id r) s')
    = Some (VInt (Z.of_nat (length (result_failed r)))).
Proof.
  intros Hrun.
  apply send_bulk_messages_stages in Hrun as (s1 & s2 & Hcreate & Hloop & Hupdate & ->).
  apply create_campaign_effects in Hcreate as (_ & Hsu1 & Hfa1 & _ & doc & Hrec1 & _).
  destruct (loop_effects w message_template (new_object_id w) (length contacts)
              delay progress_callback contacts 1 s1) as (s2' & Hloop' & Heff).
  rewrite Hloop in Hloop'. injection Hloop' as <-.
  destruct Heff as [Hcamp _ _ (ok & ko & Hok & Hko & _ & Heq & _)].
  assert (Hrec2 : campaign_record (new_object_id w) s2 = Some doc).
  { unfold campaign_record in *. rewrite Hcamp. exact Hrec1. }
  destruct (update_campaign_effects _ _ _ _ _ _ _ Hupdate Hrec2)
    as (_ & Hsu3 & Hfa3 & _ & doc' & Hrec3 & _ & Hsc & Hfc).
  simpl. rewrite Hrec3, Hsu3, Hfa3. simpl. repeat split; try assumption.
  intros Hcb. rewrite Hok, Hko, Hsu1, Hfa1. simpl. apply Heq, Hcb.
Qed.



End bulk_sender_properties.

(* ===================================================================== *)
(** ** Further properties of the channel client *)
(* ===================================================================== *)

Section channel_client_properties.
Context `{Unicode}.

Lemma digits_of_app (a b : str) : digits_of (a ++ b) = digits_of a ++ digits_of b.
Proof. unfold digits_of. apply List.filter_app. Qed.

Lemma digits_of_91 : digits_of (lit "91") = lit "91".
Proof.
  unfold digits_of. simpl.
  rewrite !isdigit_ascii by (split; apply N.leb_le; reflexivity). reflexivity.
Qed.

(** [normalize_phone_number] returns the digits of its argument, in order,
    with the country code 91 in front exactly when there are ten of them. So
    the result never has ten characters, it has twelve exactly when the
    argument has ten or twelve digits, and a ten-digit number gives the same
    result whether or not it is written with a leading 91. *)
Theorem normalize_phone_number_keeps_digits_never_ten (phone : str) :
  (length (digits_of phone) = 10%nat ->
   normalize_phone_number phone = lit "91" ++ digits_of phone) /\
  (length (digits_of phone) <> 10%nat ->
   normalize_phone_number phone = digits_of phone) /\
  length (normalize_phone_number phone) <> 10%nat /\
  (length (normalize_phone_number phone) = 12%nat <->
   length (digits_of phone) = 10%nat \/ length (digits_of phone) = 12%nat) /\
  (length (digits_of phone) = 10%nat ->
   normalize_phone_number (lit "91" ++ phone) = normalize_phone_number phone).
Proof.
  unfold normalize_phone_number.
  rewrite digits_of_app, digits_of_91, length_app.
  destruct (length (digits_of phone) =? 10)%nat eqn:E.
  - apply Nat.eqb_eq in E. rewrite length_app, E. simpl.
    split; [reflexivity|]. split; [contradiction|]. split; [lia|].
    split; [split; auto|reflexivity].
  - apply Nat.eqb_neq in E.
    split; [contradiction|]. split; [reflexivity|]. split; [assumption|].
    split; [|contradiction].
    split; [auto|intros [?|?]; [contradiction|assumption]].
Qed.

(** [_make_request] always returns a dict: whatever the channel does, no
    exception leaves it; it posts exactly the payload it was given, once,
    and does not consult the rate limiter. *)
Theorem make_request_always_returns_a_dict (w : world) (p : payload) (s : state) :
  exists r s',
    _make_request w p s = (Returns r, s') /\
    posted s' = posted s ++ [p] /\
    acquire_calls s' = acquire_calls s /\
    dispatcher_view s' = dispatcher_view s.
Proof.
  destruct (make_request_returns w p s) as (r & Hr & Hp).
  exists r, (_make_request w p s).2. split; [exact Hr|]. split; [exact Hp|].
  split; [apply make_request_acquire|apply make_request_view].
Qed.

(** What [_make_request] returns once the channel has answered with a
    response: the three paths of the [try] block, and the [except] clauses
    for what they raise. *)
Lemma make_request_on_response (w : world) (p : payload) (s : state) (rsp : response) :
  post_answer w (length (posted s)) = PostResponse rsp ->
  status_code rsp <> 429 ->
  (_make_request w p s).1
  = match json rsp with
    | NotJson e =>
        Returns (match e with
                 | Timeout _ => failure (lit "Request timeout")
                 | ConnectionError _ => failure (lit "Connection error")
                 | _ => failure (str_of_exn e)
                 end)
    | NotObject type_name => Returns (failure (str_of_exn (no_get type_name)))
    | Object d =>
        if status_code rsp =? 200 then
          match first_message_id d with
          | Returns id => Returns {| success := true; message_id := id;
                                     error := None; error_code := None |}
          | Raises e => Returns (failure (str_of_exn e))
          end
        else
          match error_of d with
          | Returns error => Returns {| success := false; message_id := None;
                                        error := error.1; error_code := error.2 |}
          | Raises e => Returns (failure (str_of_exn e))
          end
    end.
Proof.
  intros Hans H429. apply Z.eqb_neq in H429.
  unfold _make_request, try_except, _make_request_body, bind, post, of_outcome.
  rewrite Hans. simpl. rewrite H429.
  destruct (json rsp) as [e|t|d]; simpl; [destruct e; reflexivity|reflexivity|].
  destruct (status_code rsp =? 200); simpl.
  - unfold first_message_id.
    destruct (messages_field d) as [| |[|[m|] l]]; reflexivity.
  - unfold error_of. destruct (error_field d) as [| |eo]; reflexivity.
Qed.

(** Without a response, or with a 429, the result is a failure with a
    text. *)
Lemma make_request_otherwise (w : world) (p : payload) (s : state) :
  (forall rsp, post_answer w (length (posted s)) = PostResponse rsp ->
               status_code rsp = 429) ->
  exists reason, (_make_request w p s).1 = Returns (failure reason).
Proof.
  intros Hno.
  unfold _make_request, try_except, _make_request_body, bind, post, of_outcome.
  destruct (post_answer w (length (posted s))) as [e|rsp]; simpl.
  - destruct e; simpl; eauto.
  - rewrite (Hno rsp eq_refl). simpl.
    destruct (retry_after_header rsp) as [[n|e]|]; simpl;
      unfold time_sleep; try destruct (_ <? 0); simpl; try (destruct e; simpl);
      eauto.
Qed.

(** The dict [_make_request] returns says [success] exactly when the channel
    answered 200 with a JSON object whose [messages] key is absent or is a
    list that starts with an object; the id reported is the id of that
    object ([None] when there is none). A [null] or empty [messages], a
    [null] first element, a body that is not an object, and every other
    status or exception give a failure without a message id. *)
Theorem make_request_success_iff_200 (w : world) (p : payload) (s : state) (r : send_result) :
  (_make_request w p s).1 = Returns r ->
  (success r = true <->
   exists rsp d,
     post_answer w (length (posted s)) = PostResponse rsp /\
     status_code rsp = 200 /\ json rsp = Object d /\
     (messages_field d = Absent \/
      exists m rest, messages_field d = Present (Some m :: rest))) /\
  (success r = true ->
   error r = None /\
   exists rsp d,
     post_answer w (length (posted s)) = PostResponse rsp /\ json rsp = Object d /\
     message_id r = match messages_field d with
                    | Present (Some {| id_field := Present id |} :: _) => Some id
                    | _ => None
                    end) /\
  (success r = false -> message_id r = None).
Proof.
  intros Hrun.
  assert (Hfail : forall reason,
    Returns (failure reason) = Returns r ->
    (forall rsp d, post_answer w (length (posted s)) = PostResponse rsp ->
       status_code rsp = 200 -> json rsp = Object d ->
       messages_field d = Absent \/
       (exists m rest, messages_field d = Present (Some m :: rest)) -> False) ->
    (success r = true <->
     exists rsp d,
       post_answer w (length (posted s)) = PostResponse rsp /\
       status_code rsp = 200 /\ json rsp = Object d /\
       (messages_field d = Absent \/
        exists m rest, messages_field d = Present (Some m :: rest))) /\
    (success r = true ->
     error r = None /\
     exists rsp d,
       post_answer w (length (posted s)) = PostResponse rsp /\ json rsp = Object d /\
       message_id r = match messages_field d with
                      | Present (Some {| id_field := Present id |} :: _) => Some id
                      | _ => None
                      end) /\
    (success r = false -> message_id r = None)).
  { intros reason [= <-] Hnot. simpl. split; [|split].
    - split; [discriminate|]. intros (rsp & d & Ha & H2 & Hj & Hm).
      exfalso. eapply Hnot; eassumption.
    - discriminate.
    - reflexivity. }
  destruct (post_answer w (length (posted s))) as [e|rsp] eqn:Hans.
  { destruct (make_request_otherwise w p s) as [reason Hr].
    - intros rsp Habs. rewrite Hans in Habs. discriminate.
    - rewrite Hr in Hrun. apply (Hfail reason Hrun). intros; discriminate. }
  destruct (Z.eq_dec (status_code rsp) 429) as [E429|E429].
  { destruct (make_request_otherwise w p s) as [reason Hr].
    - intros rsp0 Habs. rewrite Hans in Habs. injection Habs as <-. exact E429.
    - rewrite Hr in Hrun. apply (Hfail reason Hrun).
      intros rsp0 d [= <-] H200. lia. }
  rewrite (make_request_on_response w p s rsp Hans E429) in Hrun.
  destruct (json rsp) as [e|t|d] eqn:Hj.
  { assert (Hr : exists reason, Returns (failure reason) = Returns r)
      by (destruct e; eauto).
    destruct Hr as [reason Hr]. apply (Hfail reason Hr).
    intros rsp0 d [= <-] _ Hd. congruence. }
  { apply (Hfail _ Hrun). intros rsp0 d [= <-] _ Hd. congruence. }
  destruct (status_code rsp =? 200) eqn:E200.
  2:{ apply Z.eqb_neq in E200.
      assert (Hr : exists reason, Returns (failure reason) = Returns r \/
                   (success r = false /\ message_id r = None)).
      { destruct (error_of d) as [error|e]; [|eauto].
        exists []. right. injection Hrun as <-. split; reflexivity. }
      destruct Hr as [reason [Hr|[Hs Hm]]].
      - apply (Hfail reason Hr). intros rsp0 d0 [= <-] H200. contradiction.
      - rewrite Hs. split; [|split; [discriminate|auto]].
        split; [discriminate|]. intros (rsp0 & d0 & [= <-] & H200 & _).
        contradiction. }
  apply Z.eqb_eq in E200.
  unfold first_message_id in Hrun.
  destruct (messages_field d) as [| |[|[m|] l]] eqn:Hm.
  - injection Hrun as <-. simpl. split; [|split; [|discriminate]].
    + split; [|reflexivity]. intros _. exists rsp, d. auto.
    + intros _. split; [reflexivity|]. exists rsp, d. rewrite Hm. auto.
  - apply (Hfail _ Hrun). intros rsp0 d0 [= <-] _ Hd [Habs|(m & l & Habs)];
      congruence.
  - apply (Hfail _ Hrun). intros rsp0 d0 [= <-] _ Hd [Habs|(m & l & Habs)];
      congruence.
  - injection Hrun as <-. simpl. split; [|split; [|discriminate]].
    + split; [|reflexivity]. intros _. exists rsp, d.
      split; [reflexivity|]. split; [assumption|]. split; [assumption|].
      right. eauto.
    + intros _. split; [reflexivity|]. exists rsp, d. rewrite Hm.
      split; [reflexivity|]. split; [assumption|].
      destruct m as [[| |id]]; reflexivity.
  - apply (Hfail _ Hrun). intros rsp0 d0 [= <-] _ Hd [Habs|(m & l' & Habs)];
      congruence.
Qed.

(** A channel answer 429 is never followed by a second request. Without a
    [Retry-After] header [_make_request] sleeps 60 seconds, with a header
    that [int()] reads as a non-negative number it sleeps that long, and it
    then returns the failure "Rate limited". With a negative number, or a
    header [int()] rejects, it does not sleep at all and returns a failure
    that carries the text of the exception. *)
Theorem make_request_waits_on_429 (w : world) (p : payload) (s : state)
    (rsp : response) :
  post_answer w (length (posted s)) = PostResponse rsp ->
  status_code rsp = 429 ->
  let posted_once := set_posted (posted s ++ [p]) s in
  let rate_limited seconds :=
    (Returns (failure (lit "Rate limited")),
     set_slept (slept s ++ [seconds]) posted_once) in
  match retry_after_header rsp with
  | None => _make_request w p s = rate_limited 60
  | Some (Returns seconds) =>
      if seconds <? 0 then
        _make_request w p s
        = (Returns (failure (lit "sleep length must be non-negative")), posted_once)
      else _make_request w p s = rate_limited seconds
  | Some (Raises e) =>
      (_make_request w p s).2 = posted_once /\
      exists reason, (_make_request w p s).1 = Returns (failure reason) /\
        (forall text, e = ValueError text -> reason = text)
  end.
Proof.
  intros Hans H429. cbv zeta.
  unfold _make_request, try_except, _make_request_body, bind, post, of_outcome.
  rewrite Hans. simpl. rewrite H429. simpl.
  destruct (retry_after_header rsp) as [[n|e]|]; simpl.
  - unfold time_sleep. destruct (n <? 0); reflexivity.
  - destruct e; simpl; (split; [reflexivity|]); eexists; (split; [reflexivity|]);
      intros text0 Habs; try discriminate.
    injection Habs as ->. reflexivity.
  - reflexivity.
Qed.

(** When the rate limiter denies, each of the three send operations returns
    the same failure dict with code 429 and posts nothing: the only change
    is the one call of the limiter. *)
Theorem send_operations_denied_by_rate_limiter (w : world) (s : state)
    (to message template_name language_code media_type : str)
    (parameters : option (list value)) (media_url media_id caption : option str) :
  acquire_answer w (acquire_calls s) = Returns false ->
  let denied := (Returns rate_limit_exceeded, set_acquire_calls (S (acquire_calls s)) s) in
  send_text_message w to message s = denied /\
  send_template_message w to template_name parameters language_code s = denied /\
  send_media_message w to media_type media_url media_id caption s = denied.
Proof.
  intros Hdeny. cbv zeta.
  unfold send_text_message, send_template_message, send_media_message,
    send_text_message_attempt. simpl.
  unfold try_except, bind, acquire. rewrite Hdeny. simpl. repeat split.
Qed.

(** Channel failures never leave a send operation as an exception: whenever
    the rate limiter answers (grants or denies), each of the three operations
    returns a dict. *)
Theorem send_operations_raise_only_if_limiter_raises (w : world) (s : state)
    (to message template_name language_code media_type : str)
    (parameters : option (list value)) (media_url media_id caption : option str)
    (granted : bool) :
  acquire_answer w (acquire_calls s) = Returns granted ->
  (exists r s', send_text_message w to message s = (Returns r, s')) /\
  (exists r s', send_template_message w to template_name parameters language_code s
                = (Returns r, s')) /\
  (exists r s', send_media_message w to media_type media_url media_id caption s
                = (Returns r, s')).
Proof.
  intros Hans.
  unfold send_text_message, send_template_message, send_media_message,
    send_text_message_attempt. simpl.
  unfold try_except, bind, acquire. rewrite Hans. simpl.
  destruct granted; simpl; [|repeat split; eauto].
  split; [|split].
  - destruct (make_request_returns w
        {| payload_to := normalize_phone_number to; payload_type := lit "text";
           payload_text_body := message |}
        (set_acquire_calls (S (acquire_calls s)) s)) as (r & -> & _). eauto.
  - destruct (make_request_returns w
        (payload_summary (template_payload to template_name parameters language_code))
        (set_acquire_calls (S (acquire_calls s)) s)) as (r & -> & _). eauto.
  - destruct (falsy media_url && falsy media_id); [eauto|].
    destruct (make_request_returns w
        (payload_summary (media_payload to media_type media_url media_id caption))
        (set_acquire_calls (S (acquire_calls s)) s)) as (r & -> & _). eauto.
Qed.

(** [send_media_message] checks its arguments after it has asked the rate
    limiter: without a url and without an id it posts nothing and returns its
    own failure dict, but the call of the limiter has been made. *)
Theorem send_media_message_without_media (w : world) (s : state)
    (to media_type : str) (media_url media_id caption : option str) :
  acquire_answer w (acquire_calls s) = Returns true ->
  falsy media_url = true -> falsy media_id = true ->
  send_media_message w to media_type media_url media_id caption s
  = (Returns {| success := false; message_id := None;
                error := Some (lit "Either media_url or media_id must be provided");
                error_code := None |},
     set_acquire_calls (S (acquire_calls s)) s).
Proof.
  intros Hans Hu Hi. unfold send_media_message, bind, acquire.
  rewrite Hans, Hu, Hi. reflexivity.
Qed.

(** [send_media_message] does not reject a media type it does not know: with
    a url or an id it posts a request whose payload has the recipient and the
    type but no media object at all. *)
Theorem send_media_message_unknown_type_is_posted (w : world) (s : state)
    (to media_type : str) (media_url media_id caption : option str) :
  acquire_answer w (acquire_calls s) = Returns true ->
  falsy media_url && falsy media_id = false ->
  media_type <> lit "image" -> media_type <> lit "video" ->
  media_type <> lit "audio" -> media_type <> lit "document" ->
  (dom (media_payload to media_type media_url media_id caption) : gset string)
    = {[ "messaging_product"%string; "to"%string; "type"%string ]} /\
  exists r s',
    send_media_message w to media_type media_url media_id caption s = (Returns r, s') /\
    posted s' = posted s ++ [ {| payload_to := normalize_phone_number to;
                                 payload_type := media_type;
                                 payload_text_body := [] |} ].
Proof.
  intros Hans Hmedia Hi Hv Ha Hd.
  assert (Hpayload : media_payload to media_type media_url media_id caption
                     = {[ "messaging_product"%string := VStr (lit "whatsapp");
                          "to"%string := VStr (normalize_phone_number to);
                          "type"%string := VStr media_type ]}).
  { unfold media_payload. rewrite !bool_decide_eq_false_2 by assumption. reflexivity. }
  split.
  - rewrite Hpayload. vm_compute. reflexivity.
  - unfold send_media_message, bind, acquire. rewrite Hans, Hmedia. simpl.
    rewrite Hpayload.
    destruct (make_request_returns w
        (payload_summary {[ "messaging_product"%string := VStr (lit "whatsapp");
                            "to"%string := VStr (normalize_phone_number to);
                            "type"%string := VStr media_type ]})
        (set_acquire_calls (S (acquire_calls s)) s)) as (r & Hr & Hp).
    rewrite Hr. eexists. eexists. split; [reflexivity|]. rewrite Hp. reflexivity.
Qed.

Lemma make_request_shape (w : world) (p : payload) (s : state) (r : send_result) :
  (_make_request w p s).1 = Returns r ->
  (success r = true -> error r = None) /\
  (success r = false -> error r = None ->
   exists k rsp d eo,
     post_answer w k = PostResponse rsp /\ status_code rsp <> 200 /\
     json rsp = Object d /\ error_field d = Present eo /\
     error_message eo = Null).
Proof.
  intros Hrun.
  assert (Hfail : forall reason, Returns (failure reason) = Returns r ->
    (success r = true -> error r = None) /\
    (success r = false -> error r = None ->
     exists k rsp d eo,
       post_answer w k = PostResponse rsp /\ status_code rsp <> 200 /\
       json rsp = Object d /\ error_field d = Present eo /\
       error_message eo = Null)).
  { intros reason [= <-]. simpl. split; discriminate. }
  destruct (post_answer w (length (posted s))) as [e|rsp] eqn:Hans.
  { destruct (make_request_otherwise w p s) as [reason Hr].
    - intros rsp Habs. rewrite Hans in Habs. discriminate.
    - rewrite Hr in Hrun. apply (Hfail reason Hrun). }
  destruct (Z.eq_dec (status_code rsp) 429) as [E429|E429].
  { destruct (make_request_otherwise w p s) as [reason Hr].
    - intros rsp0 Habs. rewrite Hans in Habs. injection Habs as <-. exact E429.
    - rewrite Hr in Hrun. apply (Hfail reason Hrun). }
  rewrite (make_request_on_response w p s rsp Hans E429) in Hrun.
  destruct (json rsp) as [e|t|d] eqn:Hj.
  { destruct e; apply (Hfail _ Hrun). }
  { apply (Hfail _ Hrun). }
  destruct (status_code rsp =? 200) eqn:E200.
  { destruct (first_message_id d) as [id|e]; [|apply (Hfail _ Hrun)].
    injection Hrun as <-. simpl. split; [reflexivity|discriminate]. }
  apply Z.eqb_neq in E200. unfold error_of in Hrun.
  destruct (error_field d) as [| |eo] eqn:He;
    [apply (Hfail _ Hrun)|apply (Hfail _ Hrun)|].
  injection Hrun as <-. simpl. split; [discriminate|]. intros _ Hnone.
  exists (length (posted s)), rsp, d, eo.
  repeat split; try assumption.
  destruct (error_message eo); [discriminate|reflexivity|discriminate].
Qed.

(** A value returned by the decorated function is a value returned by one of
    the attempts. *)
Lemma retrying_returns_from_body {A} (P : A -> Prop) error_text retry_on wait_for
    (n k : nat) (body : M A) :
  (forall s r s', body s = (Returns r, s') -> P r) ->
  forall s r s',
    Tenacity.retrying error_text retry_on wait_for n k body s = (Returns r, s') ->
    P r.
Proof.
  intros Hbody. revert k. induction n as [|n IH]; intros k s r s'; simpl.
  - discriminate.
  - unfold try_except. destruct (body s) as [[a|e] s1] eqn:E.
    + intros [= <- <-]. eapply Hbody. exact E.
    + destruct (retry_on e); [|discriminate].
      destruct n as [|n']; [discriminate|].
      unfold bind at 1. unfold Tenacity.sleep, modify_state. apply IH.
Qed.

(** The dicts the send operations return: with [success] the error is
    [None]. Without [success] the error is a text, with one exception: when
    the channel answered with a status other than 200 and an error object
    whose message is [null], the error is [None] as well. *)
Theorem send_operations_result_has_error_iff_failed (w : world) (s s' : state)
    (to message template_name language_code media_type : str)
    (parameters : option (list value)) (media_url media_id caption : option str)
    (r : send_result) :
  send_text_message w to message s = (Returns r, s') \/
  send_template_message w to template_name parameters language_code s = (Returns r, s') \/
  send_media_message w to media_type media_url media_id caption s = (Returns r, s') ->
  (success r = true -> error r = None) /\
  (success r = false -> error r = None ->
   exists k rsp d eo,
     post_answer w k = PostResponse rsp /\ status_code rsp <> 200 /\
     json rsp = Object d /\ error_field d = Present eo /\
     error_message eo = Null).
Proof.
  set (P := fun r0 : send_result =>
    (success r0 = true -> error r0 = None) /\
    (success r0 = false -> error r0 = None ->
     exists k rsp d eo,
       post_answer w k = PostResponse rsp /\ status_code rsp <> 200 /\
       json rsp = Object d /\ error_field d = Present eo /\
       error_message eo = Null)).
  assert (Hgate : forall (p : payload) (check : bool) (other : send_result) s0 r0 s0',
    P other ->
    bind (acquire w) (fun granted =>
      if negb granted then ret rate_limit_exceeded
      else if check then ret other else _make_request w p) s0 = (Returns r0, s0') ->
    P r0).
  { intros p check other s0 r0 s0' Hother. unfold bind, acquire.
    destruct (acquire_answer w (acquire_calls s0)) as [[|]|e]; simpl; [| |discriminate].
    - destruct check.
      + intros [= <- _]. exact Hother.
      + intros Hrun. apply (make_request_shape w p (set_acquire_calls (S (acquire_calls s0)) s0)).
        rewrite Hrun. reflexivity.
    - intros [= <- _]. split; simpl; discriminate. }
  assert (Hdenied : P rate_limit_exceeded) by (split; simpl; discriminate).
  intros [Hrun|[Hrun|Hrun]]; fold (P r).
  - unfold send_text_message in Hrun.
    eapply (retrying_returns_from_body P); [|exact Hrun].
    intros s0 r0 s0' Hattempt.
    eapply (Hgate _ false rate_limit_exceeded); [exact Hdenied|exact Hattempt].
  - eapply (Hgate _ false rate_limit_exceeded); [exact Hdenied|exact Hrun].
  - eapply (Hgate _ (falsy media_url && falsy media_id)); [|exact Hrun].
    split; simpl; discriminate.
Qed.

Lemma attempt_trace (w : world) (to message : str) (s : state) :
  let '(o, s1) := send_text_message_attempt w to message s in
  acquire_calls s1 = S (acquire_calls s) /\
  match o with
  | Returns _ =>
      posted s1 = posted s \/
      posted s1 = posted s ++ [ {| payload_to := normalize_phone_number to;
                                   payload_type := lit "text";
                                   payload_text_body := message |} ]
  | Raises e => posted s1 = posted s /\ acquire_answer w (acquire_calls s) = Raises e
  end.
Proof.
  pose proof (attempt_cases w to message s) as Hc.
  destruct (send_text_message_attempt w to message s) as [o s1] eqn:E.
  destruct Hc as (_ & Ha & _). split; [exact Ha|].
  revert E. unfold send_text_message_attempt, bind, acquire.
  destruct (acquire_answer w (acquire_calls s)) as [[|]|e]; simpl.
  - destruct (make_request_returns w
        {| payload_to := normalize_phone_number to; payload_type := lit "text";
           payload_text_body := message |}
        (set_acquire_calls (S (acquire_calls s)) s)) as (r & Hr & Hp).
    rewrite Hr. intros [= <- <-]. right. exact Hp.
  - intros [= <- <-]. left. reflexivity.
  - intros [= <- <-]. split; reflexivity.
Qed.

Lemma retrying_last {A} error_text retry_on wait_for (k : nat) (body : M A)
    (s : state) :
  Tenacity.retrying error_text retry_on wait_for 1 k body s
  = match body s with
    | (Returns a, s1) => (Returns a, s1)
    | (Raises e, s1) =>
        (Raises (if retry_on e then TenacityRetryError e (error_text e) else e), s1)
    end.
Proof.
  simpl. unfold try_except. destruct (body s) as [[a|e] s1]; [reflexivity|].
  destruct (retry_on e); reflexivity.
Qed.

Lemma retrying_step {A} error_text retry_on wait_for (n k : nat) (body : M A)
    (s : state) :
  Tenacity.retrying error_text retry_on wait_for (S (S n)) k body s
  = match body s with
    | (Returns a, s1) => (Returns a, s1)
    | (Raises e, s1) =>
        if retry_on e
        then Tenacity.retrying error_text retry_on wait_for (S n) (S k) body
               (set_slept (slept s1 ++ [wait_for k]) s1)
        else (Raises e, s1)
    end.
Proof.
  change (Tenacity.retrying error_text retry_on wait_for (S (S n)) k body s)
    with (try_except body (fun e =>
            if retry_on e
            then bind (Tenacity.sleep (wait_for k))
                   (fun _ => Tenacity.retrying error_text retry_on wait_for (S n) (S k) body)
            else raise e) s).
  unfold try_except. destruct (body s) as [[a|e] s1]; [reflexivity|].
  destruct (retry_on e); reflexivity.
Qed.

Lemma retrying_attempt_trace (n k : nat) (w : world) (to message : str) (s : state) :
  let '(o, s') :=
    Tenacity.retrying (retry_error_text w) Tenacity.retry_if_transient (Tenacity.wait_exponential 1 2 10)
      (S n) k (send_text_message_attempt w to message) s in
  (acquire_calls s < acquire_calls s' <= acquire_calls s + S n)%nat /\
  (posted s' = posted s \/
   posted s' = posted s ++ [ {| payload_to := normalize_phone_number to;
                                payload_type := lit "text";
                                payload_text_body := message |} ]) /\
  (acquire_calls s' <> S (acquire_calls s) ->
   exists e, acquire_answer w (acquire_calls s) = Raises e /\
             Tenacity.retry_if_transient e = true).
Proof.
  revert k s. induction n as [|n IH]; intros k s;
    [rewrite retrying_last|rewrite retrying_step];
    pose proof (attempt_trace w to message s) as Ht;
    destruct (send_text_message_attempt w to message s) as [[r|e] s1];
    cbv beta iota in Ht; destruct Ht as (Ha & Hp).
  - split; [lia|]. split; [exact Hp|]. intros Hn. contradiction.
  - destruct Hp as (Hp & Hans).
    split; [lia|]. split; [left; exact Hp|]. intros Hn. contradiction.
  - split; [lia|]. split; [exact Hp|]. intros Hn. contradiction.
  - destruct Hp as (Hp & Hans).
    destruct (Tenacity.retry_if_transient e) eqn:Hretry.
    + specialize (IH (S k)
        (set_slept (slept s1 ++ [Tenacity.wait_exponential 1 2 10 k]) s1)).
      destruct (Tenacity.retrying _ _ _ (S n) (S k) _ _) as [o2 s2].
      destruct IH as (Hb & Hq & _). simpl in Hb, Hq.
      split; [lia|]. split; [rewrite Hp in Hq; exact Hq|]. eauto.
    + split; [lia|]. split; [left; exact Hp|]. intros Hn. contradiction.
Qed.

(** One call of [send_text_message] asks the rate limiter at least once and
    at most three times, and more than once only when the first call of the
    limiter itself raised one of the three exceptions the decorator retries
    on ([Timeout], [ConnectionError], [HTTPError] of requests); it posts at
    most one request, and that request carries the normalised recipient, the
    type [text] and the message unchanged. *)
Theorem send_text_message_limiter_calls_and_request (w : world) (to message : str)
    (s : state) :
  let s' := (send_text_message w to message s).2 in
  (acquire_calls s < acquire_calls s' <= acquire_calls s + 3)%nat /\
  (posted s' = posted s \/
   posted s' = posted s ++ [ {| payload_to := normalize_phone_number to;
                                payload_type := lit "text";
                                payload_text_body := message |} ]) /\
  (acquire_calls s' <> S (acquire_calls s) ->
   exists text,
     acquire_answer w (acquire_calls s) = Raises (Timeout text) \/
     acquire_answer w (acquire_calls s) = Raises (ConnectionError text) \/
     acquire_answer w (acquire_calls s) = Raises (HTTPError text)).
Proof.
  cbv zeta. unfold send_text_message.
  pose proof (retrying_attempt_trace 2 1 w to message s) as Ht.
  destruct (Tenacity.retrying _ _ _ 3 1 _ s) as [o s'].
  destruct Ht as (Ha & Hp & Hmore). split; [exact Ha|]. split; [exact Hp|].
  intros Hn. destruct (Hmore Hn) as (e & -> & Hretry).
  destruct e; try discriminate; eauto.
Qed.

(** A limiter that raises [HTTPError] once is asked a second time. *)
Example limiter_http_error_is_retried :
  let w := {| utcnow := 1000;
              acquire_answer := fun k => match k with
                                         | O => Raises (HTTPError (lit "502"))
                                         | _ => Returns true
                                         end;
              post_answer := fun _ => ok_response (lit "wamid.1");
              db_answer := fun _ => None; new_object_id := 1%positive;
              str_format := fun template _ => Returns template;
              store_policy := RejectDollarFields;
              retry_error_text := retry_text |} in
  let run := send_text_message w (lit "9876543210") (lit "hi") empty_state in
  acquire_calls run.2 = 2%nat /\ slept run.2 = [2] /\ length (posted run.2) = 1%nat.
Proof. vm_compute. repeat split. Qed.

End channel_client_properties.

(** [make_request_success_iff_200] on a channel that accepts the request. *)
Lemma make_request_success_iff_200_witness :
  let r := {| success := true; message_id := Some (lit "wamid.1"); error := None;
              error_code := None |} in
  (_make_request accepting_world hello_payload empty_state).1 = Returns r /\
  (success r = true <->
   exists rsp d,
     post_answer accepting_world (length (posted empty_state)) = PostResponse rsp /\
     status_code rsp = 200 /\ json rsp = Object d /\
     (messages_field d = Absent \/
      exists m rest, messages_field d = Present (Some m :: rest))) /\
  (success r = true ->
   error r = None /\
   exists rsp d,
     post_answer accepting_world (length (posted empty_state)) = PostResponse rsp /\
     json rsp = Object d /\
     message_id r = match messages_field d with
                    | Present (Some {| id_field := Present id |} :: _) => Some id
                    | _ => None
                    end) /\
  (success r = false -> message_id r = None).
Proof.
  split; [reflexivity|].
  exact (make_request_success_iff_200 accepting_world hello_payload empty_state _ eq_refl).
Defined.

(** A 200 answer whose [messages] list holds [null] is a failure. *)
Example make_request_null_message_fails :
  (_make_request null_message_world hello_payload empty_state).1
  = Returns (failure (lit "'NoneType' object has no attribute 'get'")).
Proof. reflexivity. Qed.

(** [make_request_waits_on_429] on a channel that announces 5 seconds. *)
Lemma make_request_waits_on_429_witness :
  _make_request busy_world hello_payload empty_state
  = (Returns (failure (lit "Rate limited")),
     set_slept (slept empty_state ++ [5])
       (set_posted (posted empty_state ++ [hello_payload]) empty_state)).
Proof.
  exact (make_request_waits_on_429 busy_world hello_payload empty_state
           {| status_code := 429; retry_after_header := Some (Returns 5);
              json := NotJson (ValueError (lit "Expecting value")) |}
           eq_refl eq_refl).
Defined.

(** [send_operations_denied_by_rate_limiter] with a limiter that denies. *)
Lemma send_operations_denied_by_rate_limiter_witness :
  let denied := (Returns rate_limit_exceeded,
                 set_acquire_calls (S (acquire_calls empty_state)) empty_state) in
  send_text_message denying_world (lit "9876543210") (lit "hi") empty_state = denied /\
  send_template_message denying_world (lit "9876543210") (lit "welcome") None
    (lit "en_US") empty_state = denied /\
  send_media_message denying_world (lit "9876543210") (lit "image")
    (Some (lit "https://example.org/a.png")) None None empty_state = denied.
Proof.
  apply (send_operations_denied_by_rate_limiter denying_world empty_state).
  reflexivity.
Defined.

(** [send_operations_raise_only_if_limiter_raises] on a channel that times
    out. *)
Lemma send_operations_raise_only_if_limiter_raises_witness :
  (exists r s', send_text_message flaky_world (lit "9876543210") (lit "hi") empty_state
                = (Returns r, s')) /\
  (exists r s', send_template_message flaky_world (lit "9876543210") (lit "welcome")
                  None (lit "en_US") empty_state = (Returns r, s')) /\
  (exists r s', send_media_message flaky_world (lit "9876543210") (lit "image")
                  (Some (lit "https://example.org/a.png")) None None empty_state
                = (Returns r, s')).
Proof.
  apply (send_operations_raise_only_if_limiter_raises flaky_world empty_state
           _ _ _ _ _ _ _ _ _ true).
  reflexivity.
Defined.

(** [send_media_message_without_media]: neither url nor id, empty strings
    included. *)
Lemma send_media_message_without_media_witness :
  send_media_message accepting_world (lit "9876543210") (lit "image") (Some []) None
    (Some (lit "a picture")) empty_state
  = (Returns {| success := false; message_id := None;
                error := Some (lit "Either media_url or media_id must be provided");
                error_code := None |},
     set_acquire_calls (S (acquire_calls empty_state)) empty_state).
Proof.
  apply (send_media_message_without_media accepting_world empty_state);
    reflexivity.
Defined.

(** [send_media_message_unknown_type_is_posted] for the type [sticker]. *)
Lemma send_media_message_unknown_type_is_posted_witness :
  (dom (media_payload (lit "9876543210") (lit "sticker") None (Some (lit "media-77")) None)
     : gset string)
    = {[ "messaging_product"%string; "to"%string; "type"%string ]} /\
  exists r s',
    send_media_message accepting_world (lit "9876543210") (lit "sticker") None
      (Some (lit "media-77")) None empty_state = (Returns r, s') /\
    posted s' = posted empty_state
                ++ [ {| payload_to := normalize_phone_number (lit "9876543210");
                        payload_type := lit "sticker"; payload_text_body := [] |} ].
Proof.
  apply (send_media_message_unknown_type_is_posted accepting_world empty_state);
    [reflexivity|reflexivity|discriminate|discriminate|discriminate|discriminate].
Defined.

(** [send_operations_result_has_error_iff_failed] on a channel that answers
    400 with an error object whose message is [null]: the dict has neither
    [success] nor an error. *)
Lemma send_operations_result_has_error_iff_failed_witness :
  let run := send_text_message null_error_world (lit "9876543210") (lit "hi")
               empty_state in
  let r := {| success := false; message_id := None; error := None;
              error_code := None |} in
  run = (Returns r, run.2) /\
  (success r = true -> error r = None) /\
  (success r = false -> error r = None ->
   exists k rsp d eo,
     post_answer null_error_world k = PostResponse rsp /\ status_code rsp <> 200 /\
     json rsp = Object d /\ error_field d = Present eo /\
     error_message eo = Null).
Proof.
  cbv zeta.
  assert (Hrun :
    send_text_message null_error_world (lit "9876543210") (lit "hi") empty_state
    = (Returns {| success := false; message_id := None; error := None;
                  error_code := None |},
       (send_text_message null_error_world (lit "9876543210") (lit "hi")
          empty_state).2)) by (vm_compute; reflexivity).
  split; [exact Hrun|].
  exact (send_operations_result_has_error_iff_failed null_error_world empty_state
           _ (lit "9876543210") (lit "hi") [] [] [] None None None None _
           (or_introl Hrun)).
Defined.

Section webhook_properties.
Context `{Hmac}.

(** A missing or empty signature header, or a missing or empty app secret,
    makes [validate_webhook_signature] return [False] for every payload; it
    does not raise. *)
Theorem webhook_signature_missing_input_is_false
    (secret : option str) (payload_bytes : list N) (signature : option str) :
  signature = None \/ signature = Some [] \/ secret = None \/ secret = Some [] ->
  validate_webhook_signature secret payload_bytes signature = Returns false.
Proof.
  intros Hmissing. apply validate_webhook_signature_absent.
  destruct Hmissing as [->|[->|[->| ->]]]; auto.
Qed.

(** With a secret and a non-empty ASCII header, [validate_webhook_signature]
    returns a boolean (it does not raise): [True] when the header is
    [sha256=] followed by the hex digest of the payload under the secret,
    [False] for every other header. *)
Theorem webhook_signature_ascii_header_is_decided
    (secret : str) (payload_bytes : list N) (sig : str) :
  secret <> [] -> sig <> [] -> is_ascii sig = true ->
  validate_webhook_signature (Some secret) payload_bytes (Some sig)
  = Returns (bool_decide (sig = expected_header secret payload_bytes)).
Proof.
  intros Hk Hs Ha.
  destruct (decide (sig = expected_header secret payload_bytes)) as [Heq|Hne].
  - rewrite bool_decide_eq_true_2 by assumption.
    apply validate_webhook_signature_true_iff; assumption.
  - rewrite bool_decide_eq_false_2 by assumption.
    apply validate_webhook_signature_ascii_mismatch; assumption.
Qed.

End webhook_properties.

(** [webhook_signature_missing_input_is_false] with an empty header. *)
Lemma webhook_signature_missing_input_is_false_witness :
  @validate_webhook_signature toy_hmac (Some (lit "app-secret")) (lit "{}") (Some [])
  = Returns false.
Proof.
  apply (@webhook_signature_missing_input_is_false toy_hmac). right. left. reflexivity.
Defined.

(** [webhook_signature_ascii_header_is_decided] with a header of the right
    shape and a wrong digest. *)
Lemma webhook_signature_ascii_header_is_decided_witness :
  @validate_webhook_signature toy_hmac (Some (lit "app-secret")) (lit "{}")
    (Some (lit "sha256=0a0200"))
  = Returns (bool_decide (lit "sha256=0a0200"
                          = @expected_header toy_hmac (lit "app-secret") (lit "{}"))).
Proof.
  apply (@webhook_signature_ascii_header_is_decided toy_hmac);
    [discriminate|discriminate|reflexivity].
Defined.

Section retry_policy_properties.

(** The waits configured on [send_text_message],
    [wait_exponential(multiplier=1, min=2, max=10)], lie between 2 and 10 for
    every attempt and never decrease from one attempt to the next. *)
Theorem configured_wait_between_2_and_10 (attempt later : nat) :
  2 <= Tenacity.wait_exponential 1 2 10 attempt <= 10 /\
  ((attempt <= later)%nat ->
   Tenacity.wait_exponential 1 2 10 attempt <= Tenacity.wait_exponential 1 2 10 later).
Proof.
  unfold Tenacity.wait_exponential. split; [lia|].
  intros Hle.
  assert (Hpow : 2 ^ (Z.of_nat attempt - 1) <= 2 ^ (Z.of_nat later - 1)).
  { destruct attempt as [|a].
    - simpl. destruct later as [|l]; [simpl; lia|].
      replace (Z.of_nat (S l) - 1) with (Z.of_nat l) by lia.
      pose proof (Z.pow_pos_nonneg 2 (Z.of_nat l)). lia.
    - apply Z.pow_le_mono_r; lia. }
  lia.
Qed.

End retry_policy_properties.

(* ===================================================================== *)
(** ** Further properties of the campaign dispatcher *)
(* ===================================================================== *)

Section dispatcher_properties.
Context `{Unicode}.

Lemma validate_loop_spec (contacts valid invalid : list contact) :
  let accepted c :=
    truthy (phone_of c) && negb (length (digits_of (phone_of c)) <? 10)%nat in
  let report c :=
    with_error c (if truthy (phone_of c) then lit "Invalid phone number"
                  else lit "Missing phone number") in
  match validate_loop contacts valid invalid with
  | Returns (v, i) =>
      Forall (fun c => c !! lit "phone" <> Some None) contacts /\
      v = valid ++ List.filter accepted contacts /\
      i = invalid ++ List.map report (List.filter (fun c => negb (accepted c)) contacts)
  | Raises e =>
      e = AttributeError (lit "'NoneType' object has no attribute 'strip'") /\
      Exists (fun c => c !! lit "phone" = Some None) contacts
  end.
Proof.
  cbv zeta. revert valid invalid.
  induction contacts as [|c rest IH]; intros valid invalid.
  - simpl. rewrite !app_nil_r. repeat split. constructor.
  - cbn [validate_loop List.filter].
    assert (Hcases :
      (exists p, stripped_phone c = Returns p /\ phone_of c = p /\
                 c !! lit "phone" <> Some None) \/
      (stripped_phone c
       = Raises (AttributeError (lit "'NoneType' object has no attribute 'strip'")) /\
       c !! lit "phone" = Some None)).
    { unfold phone_of, stripped_phone.
      destruct (c !! lit "phone") as [[p|]|]; simpl.
      - left. eexists. repeat split. discriminate.
      - right. split; reflexivity.
      - left. eexists. repeat split. discriminate. }
    destruct Hcases as [(p & Hs & Hp & Hnn)|[Hs Hnone]]; rewrite Hs.
    2:{ split; [reflexivity|]. apply Exists_cons_hd. exact Hnone. }
    rewrite Hp.
    assert (Hstep : forall valid' invalid',
      match validate_loop rest valid' invalid' with
      | Returns (v, i) =>
          Forall (fun c0 => c0 !! lit "phone" <> Some None) rest /\
          v = valid' ++ List.filter
                (fun c0 => truthy (phone_of c0)
                           && negb (length (digits_of (phone_of c0)) <? 10)%nat) rest /\
          i = invalid' ++ List.map
                (fun c0 => with_error c0
                   (if truthy (phone_of c0) then lit "Invalid phone number"
                    else lit "Missing phone number"))
                (List.filter
                   (fun c0 => negb (truthy (phone_of c0)
                                    && negb (length (digits_of (phone_of c0)) <? 10)%nat))
                   rest)
      | Raises e =>
          e = AttributeError (lit "'NoneType' object has no attribute 'strip'") /\
          Exists (fun c0 => c0 !! lit "phone" = Some None) (c :: rest)
      end).
    { intros valid' invalid'. specialize (IH valid' invalid').
      destruct (validate_loop rest valid' invalid') as [[v i]|e]; [exact IH|].
      destruct IH as [He Hex]. split; [exact He|]. apply Exists_cons_tl. exact Hex. }
    destruct (truthy p) eqn:Ht; simpl.
    + destruct (length (digits_of p) <? 10)%nat eqn:Hd; simpl.
      * specialize (Hstep valid (invalid ++ [with_error c (lit "Invalid phone number")])).
        destruct (validate_loop rest _ _) as [[v i]|e]; [|exact Hstep].
        destruct Hstep as (Hall & -> & ->). rewrite Hp, Ht. rewrite <- app_assoc.
        repeat split. constructor; assumption.
      * specialize (Hstep (valid ++ [c]) invalid).
        destruct (validate_loop rest _ _) as [[v i]|e]; [|exact Hstep].
        destruct Hstep as (Hall & -> & ->). rewrite <- app_assoc.
        repeat split. constructor; assumption.
    + specialize (Hstep valid (invalid ++ [with_error c (lit "Missing phone number")])).
      destruct (validate_loop rest _ _) as [[v i]|e]; [|exact Hstep].
      destruct Hstep as (Hall & -> & ->). rewrite Hp, Ht. rewrite <- app_assoc.
      repeat split. constructor; assumption.
Qed.

Lemma filter_partition_length {A} (f : A -> bool) (l : list A) :
  (length (List.filter f l) + length (List.filter (fun x => negb (f x)) l)
   = length l)%nat.
Proof.
  induction l as [|x l IH]; simpl; [reflexivity|].
  destruct (f x); simpl; lia.
Qed.

(** [validate_contacts] raises, with the [AttributeError] of [None.strip],
    exactly when some contact has the phone [None]: nothing in it catches
    the exception and no list is returned. Otherwise it returns as valid, in
    input order and unchanged, exactly the contacts whose stripped phone is
    not empty and has at least ten digits, and every contact lands in one of
    the two lists. *)
Theorem validate_contacts_keeps_valid_in_order (contacts : list contact) :
  let accepted c :=
    truthy (phone_of c) && negb (length (digits_of (phone_of c)) <? 10)%nat in
  match validate_contacts contacts with
  | Returns (valid, invalid) =>
      Forall (fun c => c !! lit "phone" <> Some None) contacts /\
      valid = List.filter accepted contacts /\
      (length valid + length invalid = length contacts)%nat /\
      Forall (fun c => phone_of c <> [] /\
                       (10 <= length (digits_of (phone_of c)))%nat) valid
  | Raises e =>
      e = AttributeError (lit "'NoneType' object has no attribute 'strip'") /\
      Exists (fun c => c !! lit "phone" = Some None) contacts
  end.
Proof.
  cbv zeta. unfold validate_contacts.
  pose proof (validate_loop_spec contacts [] []) as Hspec. cbv zeta in Hspec.
  destruct (validate_loop contacts [] []) as [[valid invalid]|e]; [|exact Hspec].
  destruct Hspec as (Hall & -> & ->). simpl.
  split; [exact Hall|]. split; [reflexivity|]. split.
  - rewrite length_map. apply filter_partition_length.
  - apply Forall_forall. intros c Hc. apply list_elem_of_In in Hc.
    apply filter_In in Hc as [_ Hc].
    apply andb_true_iff in Hc as [Ht Hd]. apply negb_true_iff in Hd.
    apply Nat.ltb_ge in Hd. split; [|exact Hd].
    destruct (phone_of c); discriminate.
Qed.

(** When [validate_contacts] returns, the contacts it refuses come back in
    input order, each with an [error] entry: "Missing phone number" when the
    stripped phone is empty, "Invalid phone number" when it has fewer than
    ten digits. *)
Theorem validate_contacts_reports_reasons (contacts valid invalid : list contact) :
  validate_contacts contacts = Returns (valid, invalid) ->
  let accepted c :=
    truthy (phone_of c) && negb (length (digits_of (phone_of c)) <? 10)%nat in
  let report c :=
    with_error c (if truthy (phone_of c) then lit "Invalid phone number"
                  else lit "Missing phone number") in
  invalid = List.map report (List.filter (fun c => negb (accepted c)) contacts).
Proof.
  unfold validate_contacts. intros Hrun. cbv zeta.
  pose proof (validate_loop_spec contacts [] []) as Hspec. cbv zeta in Hspec.
  rewrite Hrun in Hspec. destruct Hspec as (_ & _ & ->). reflexivity.
Qed.

Variables (w : world) (message_template : str) (campaign_id : positive)
          (total : nat) (delay : Z) (progress_callback : callback).

Lemma personalize_formatted (c : contact) (s : state) (o : outcome str) :
  _personalize_message w message_template c s = (o, s) ->
  (forall e, str_format w message_template c = Raises e -> exists k, e = KeyError k) ->
  o = Returns (formatted_message w message_template c).
Proof.
  unfold _personalize_message, try_except, of_outcome, formatted_message.
  intros Hrun Hfmt.
  destruct (str_format w message_template c) as [m|e];
    [simpl in Hrun; congruence|].
  destruct (Hfmt e eq_refl) as [k ->]. simpl in Hrun. unfold ret in Hrun.
  congruence.
Qed.

(** What one iteration uses: requests posted, limiter calls, messages
    stored, what it appends to [successful], and the call of
    [send_text_message] it makes for a phone that is not empty. *)
Lemma iteration_usage (index : nat) (c : contact) (s : state) :
  let s' := (iteration w message_template campaign_id total delay
               progress_callback index c s).2 in
  let budget := if truthy (phone_of c) then 1%nat else 0%nat in
  (exists new, posted s' = posted s ++ new /\ (length new <= budget)%nat /\
     Forall (fun p => payload_to p = normalize_phone_number (phone_of c) /\
                      payload_type p = lit "text") new) /\
  (acquire_calls s <= acquire_calls s' <= acquire_calls s + 3 * budget)%nat /\
  (exists stored ok,
    messages s' = messages s ++ stored /\ successful s' = successful s ++ ok /\
    (length ok <= length stored <= budget)%nat) /\
  (forall p, stripped_phone c = Returns p -> p <> [] ->
     (forall e, str_format w message_template c = Raises e ->
                exists k, e = KeyError k) ->
     sends s' = sends s ++ [(index, p, formatted_message w message_template c)] /\
     (acquire_calls s < acquire_calls s')%nat).
Proof.
  cbv zeta.
  destruct (iteration w message_template campaign_id total delay
              progress_callback index c s) as [o' s'] eqn:Hrun.
  cbn [snd]. revert Hrun.
  unfold iteration, try_except, process_contact.
  assert (Hnil : forall (n : nat) (l : collection) (l' : list contact),
            exists stored ok, l = l ++ stored /\ l' = l' ++ ok /\
                              (length ok <= length stored <= n)%nat).
  { intros n l l'. exists [], []. rewrite !app_nil_r. simpl. repeat split; lia. }
  assert (Hnop : forall (n : nat) (l : list payload),
            exists new, l = l ++ new /\ (length new <= n)%nat /\
              Forall (fun p => payload_to p = normalize_phone_number (phone_of c) /\
                               payload_type p = lit "text") new).
  { intros n l. exists []. rewrite app_nil_r. simpl. repeat split; [lia|constructor]. }
  unfold bind at 1. unfold of_outcome at 1.
  destruct (stripped_phone c) as [p|e0] eqn:Hstrip.
  2:{ assert (Hb : truthy (phone_of c) = false)
        by (unfold phone_of; rewrite Hstrip; reflexivity).
      rewrite Hb. intros [= <- <-]. simpl.
      split; [apply Hnop|]. split; [lia|]. split; [apply Hnil|].
      intros p Hs. discriminate. }
  assert (Hp : phone_of c = p) by (unfold phone_of; rewrite Hstrip; reflexivity).
  subst p.
  destruct (truthy (phone_of c)) eqn:Hphone; simpl.
  2:{ intros [= <- <-]. simpl. split; [apply Hnop|]. split; [lia|].
      split; [apply Hnil|]. intros p [= <-] Hne.
      apply truthy_false in Hphone. contradiction. }
  unfold bind at 1.
  destruct (personalize_cases w message_template c s) as [[m Hm]|[e Hm]]; rewrite Hm.
  2:{ intros [= <- <-]. simpl. split; [apply Hnop|]. split; [lia|].
      split; [apply Hnil|]. intros p _ _ Hfmt.
      pose proof (personalize_formatted c s _ Hm Hfmt). discriminate. }
  unfold bind at 1. unfold modify_state at 1. unfold bind at 1.
  set (s0 := set_sends (sends s ++ [(index, phone_of c, m)]) s).
  destruct (send_text_message_posts_at_most_once w (phone_of c) m s0) as [_ Hview].
  pose proof (retrying_attempt_trace 2 1 w (phone_of c) m s0) as Htrace.
  unfold send_text_message in *.
  destruct (Tenacity.retrying _ _ _ 3 1 _ s0) as [[r|e] s1]; simpl in Hview;
    injection Hview as Hv1 Hv2 Hv3 Hv4 Hv5 Hv6 Hv7;
    destruct Htrace as (Hacq & Hposted & _); simpl in Hacq, Hposted;
    assert (Hpost : exists new, posted s1 = posted s ++ new /\ (length new <= 1)%nat /\
              Forall (fun p => payload_to p = normalize_phone_number (phone_of c) /\
                               payload_type p = lit "text") new)
      by (destruct Hposted as [->| ->]; [apply Hnop|];
          eexists; split; [reflexivity|]; split; [simpl; lia|];
          repeat constructor);
    assert (Hsent : forall p, Returns (A := str) (phone_of c) = Returns p -> p <> [] ->
              (forall e, str_format w message_template c = Raises e ->
                         exists k, e = KeyError k) ->
              sends s1 = sends s ++ [(index, p, formatted_message w message_template c)] /\
              (acquire_calls s < acquire_calls s1)%nat)
      by (intros p [= <-] _ Hfmt;
          pose proof (personalize_formatted c s _ Hm Hfmt) as Hf;
          injection Hf as <-; rewrite Hv5; split; [reflexivity|lia]).
  2:{ intros [= <- <-]. simpl. rewrite Hv3, Hv6.
      split; [exact Hpost|]. split; [lia|]. split; [apply Hnil|].
      intros p Hs Hne Hfmt. destruct (Hsent p Hs Hne Hfmt) as [Hx Hy].
      split; assumption. }
  unfold bind at 1.
  assert (Hstore : exists s2 o,
    (if success r
     then bind (messages_insert_one w (message_data w (phone_of c) m campaign_id r))
            (fun _ => append_successful c)
     else bind (messages_insert_one w (message_data w (phone_of c) m campaign_id r))
            (fun _ => append_failed (with_error_field c (error r)))) s1
    = (o, s2) /\
    posted s2 = posted s1 /\ acquire_calls s2 = acquire_calls s1 /\
    sends s2 = sends s1 /\
    exists stored ok, messages s2 = messages s ++ stored /\
                      successful s2 = successful s ++ ok /\
                      (length ok <= length stored <= 1)%nat).
  { unfold messages_insert_one, bind, db_call, modify_state, append_successful,
      append_failed, insert_one.
    destruct (success r), (db_answer w (db_calls s1)); simpl;
      eexists; eexists; (split; [reflexivity|]); simpl;
      rewrite ?Hv3, ?Hv6; (split; [reflexivity|]); (split; [reflexivity|]);
      (split; [reflexivity|]);
      first [ apply Hnil
            | exists [message_data w (phone_of c) m campaign_id r], [c];
              simpl; repeat split; lia
            | exists [message_data w (phone_of c) m campaign_id r], [];
              rewrite app_nil_r; simpl; repeat split; lia ]. }
  destruct Hstore as (s2 & o & -> & Hp2 & Ha2 & Hse2 & Hlists).
  assert (Hdone : forall (s3 : state) (o3 : outcome unit),
    posted s3 = posted s2 -> acquire_calls s3 = acquire_calls s2 ->
    messages s3 = messages s2 -> successful s3 = successful s2 ->
    sends s3 = sends s2 ->
    (o3, s3) = (o', s') ->
    (exists new, posted s' = posted s ++ new /\ (length new <= 1)%nat /\
       Forall (fun p => payload_to p = normalize_phone_number (phone_of c) /\
                        payload_type p = lit "text") new) /\
    (acquire_calls s <= acquire_calls s' <= acquire_calls s + 3 * 1)%nat /\
    (exists stored ok, messages s' = messages s ++ stored /\
                       successful s' = successful s ++ ok /\
                       (length ok <= length stored <= 1)%nat) /\
    (forall p, Returns (A := str) (phone_of c) = Returns p -> p <> [] ->
       (forall e, str_format w message_template c = Raises e ->
                  exists k, e = KeyError k) ->
       sends s' = sends s ++ [(index, p, formatted_message w message_template c)] /\
       (acquire_calls s < acquire_calls s')%nat)).
  { intros s3 o3 E1 E2 E3 E4 E5 [= <- <-]. rewrite E1, E2, E3, E4, E5, Hp2, Ha2, Hse2.
    split; [exact Hpost|]. split; [lia|]. split; [exact Hlists|]. exact Hsent. }
  destruct o as [[]|e]; [|apply Hdone; reflexivity].
  unfold bind at 1.
  destruct progress_callback as [cb|]; unfold bind, get_state, of_outcome, ret.
  - destruct (cb index total (length (successful s2)) (length (failed s2))) as [[]|e];
      [|apply Hdone; reflexivity].
    destruct (index <? total)%nat; apply Hdone; reflexivity.
  - destruct (index <? total)%nat; apply Hdone; reflexivity.
Qed.

Lemma loop_cons_returns (c : contact) (rest : list contact) (index0 : nat)
    (s s1 : state) :
  iteration w message_template campaign_id total delay progress_callback
    index0 c s = (Returns tt, s1) ->
  loop w message_template campaign_id total delay progress_callback
    index0 (c :: rest) s
  = loop w message_template campaign_id total delay progress_callback
      (S index0) rest s1.
Proof. intros Hrun. cbn [loop]. unfold bind. rewrite Hrun. reflexivity. Qed.

Lemma loop_usage (contacts : list contact) (index0 : nat) (s : state) :
  let s' := (loop w message_template campaign_id total delay progress_callback
               index0 contacts s).2 in
  let n := length (List.filter (fun c => truthy (phone_of c)) contacts) in
  (exists new, posted s' = posted s ++ new /\ (length new <= n)%nat /\
     Forall (fun p => exists c, c ∈ contacts /\
                        payload_to p = normalize_phone_number (phone_of c) /\
                        payload_type p = lit "text") new) /\
  (acquire_calls s <= acquire_calls s' <= acquire_calls s + 3 * n)%nat /\
  exists stored ok,
    messages s' = messages s ++ stored /\ successful s' = successful s ++ ok /\
    (length ok <= length stored <= n)%nat.
Proof.
  cbv zeta. revert index0 s.
  induction contacts as [|c rest IH]; intros index0 s.
  - simpl. split; [|split; [lia|]].
    + exists []. rewrite app_nil_r. repeat split; [simpl; lia|constructor].
    + exists [], []. rewrite !app_nil_r. simpl. repeat split; lia.
  - pose proof (iteration_usage index0 c s) as Hit. cbv zeta in Hit.
    destruct (iteration_effects w message_template campaign_id total delay
                progress_callback index0 c s) as (s1 & Hrun & _).
    rewrite (loop_cons_returns _ _ _ _ _ Hrun).
    rewrite Hrun in Hit. cbn [snd] in Hit.
    specialize (IH (S index0) s1).
    destruct Hit as ((new1 & Hp1 & Hn1 & Hall1) & Ha1 & (st1 & ok1 & Hm1 & Hs1 & Hl1) & _).
    destruct IH as ((new2 & Hp2 & Hn2 & Hall2) & Ha2 & st2 & ok2 & Hm2 & Hs2 & Hl2).
    assert (Hcount : length (List.filter (fun c0 => truthy (phone_of c0)) (c :: rest))
                     = ((if truthy (phone_of c) then 1 else 0)
                        + length (List.filter (fun c0 => truthy (phone_of c0)) rest))%nat).
    { simpl. destruct (truthy (phone_of c)); reflexivity. }
    rewrite Hcount. split; [|split; [lia|]].
    + exists (new1 ++ new2). rewrite Hp2, Hp1, <- app_assoc, length_app.
      split; [reflexivity|]. split; [lia|].
      apply Forall_app. split.
      * eapply Forall_impl; [exact Hall1|]. intros p0 [Hto Hty].
        exists c. split; [apply elem_of_cons; left; reflexivity|]. split; assumption.
      * eapply Forall_impl; [exact Hall2|]. intros p0 (c0 & Hin & Hto & Hty).
        exists c0. split; [apply elem_of_cons; right; exact Hin|]. split; assumption.
    + exists (st1 ++ st2), (ok1 ++ ok2).
      rewrite Hm2, Hm1, Hs2, Hs1, <- !app_assoc, !length_app.
      split; [reflexivity|]. split; [reflexivity|]. lia.
Qed.

(** [successful] keeps the input order; every entry of [failed] is a
    recipient of the list with its reason; no recipient is left out. *)
Lemma loop_order (contacts : list contact) (index0 : nat) (s : state) :
  let s' := (loop w message_template campaign_id total delay progress_callback
               index0 contacts s).2 in
  exists ok ko,
    successful s' = successful s ++ ok /\ failed s' = failed s ++ ko /\
    sublist ok contacts /\
    Forall (fun f => exists c reason, c ∈ contacts /\ f = with_error_field c reason) ko /\
    forall c, c ∈ contacts -> c ∈ ok \/ exists reason, with_error_field c reason ∈ ko.
Proof.
  cbv zeta. revert index0 s.
  induction contacts as [|c rest IH]; intros index0 s.
  - simpl. exists [], []. rewrite !app_nil_r.
    repeat split; [constructor|constructor|].
    intros c Hc. apply elem_of_nil in Hc. contradiction.
  - destruct (iteration_effects w message_template campaign_id total delay
                progress_callback index0 c s) as (s1 & Hrun & E1).
    rewrite (loop_cons_returns _ _ _ _ _ Hrun).
    destruct E1 as [_ _ _ (ok1 & ko1 & Hok1 & Hko1 & Hshape & Hall1 & Hge1 & _) _ _].
    destruct (IH (S index0) s1) as (ok2 & ko2 & Hok2 & Hko2 & Hsub & Hall2 & Hcov).
    exists (ok1 ++ ok2), (ko1 ++ ko2).
    split; [rewrite Hok2, Hok1, <- app_assoc; reflexivity|].
    split; [rewrite Hko2, Hko1, <- app_assoc; reflexivity|].
    split; [|split].
    + destruct Hshape as [->| ->]; simpl;
        [apply sublist_cons|apply sublist_skip]; exact Hsub.
    + apply Forall_app. split.
      * eapply Forall_impl; [exact Hall1|]. intros f [reason ->].
        exists c, reason. split; [apply elem_of_cons; left|]; reflexivity.
      * eapply Forall_impl; [exact Hall2|]. intros f (c0 & reason & Hin & ->).
        exists c0, reason. split; [apply elem_of_cons; right; exact Hin|reflexivity].
    + intros c0 Hc0. apply elem_of_cons in Hc0 as [->|Hc0].
      * destruct Hshape as [->| ->].
        -- right. destruct ko1 as [|f ko1]; [simpl in Hge1; lia|].
           apply Forall_cons in Hall1 as [[reason ->] _].
           exists reason. apply elem_of_app. left. apply elem_of_cons. left. reflexivity.
        -- left. apply elem_of_app. left. apply elem_of_cons. left. reflexivity.
      * destruct (Hcov c0 Hc0) as [Hin|[reason Hin]].
        -- left. apply elem_of_app. right. exact Hin.
        -- right. exists reason. apply elem_of_app. right. exact Hin.
Qed.

(** The dispatcher calls [send_text_message] for every recipient whose
    stripped phone is not empty and whose message [str.format] can build,
    and that call asks the rate limiter. *)
Lemma loop_sent (contacts : list contact) (index0 : nat) (s : state)
    (j : nat) (c : contact) (p : str) :
  contacts !! j = Some c ->
  stripped_phone c = Returns p -> p <> [] ->
  (forall e, str_format w message_template c = Raises e -> exists k, e = KeyError k) ->
  let s' := (loop w message_template campaign_id total delay progress_callback
               index0 contacts s).2 in
  ((index0 + j)%nat, p, formatted_message w message_template c) ∈ sends s' /\
  (acquire_calls s < acquire_calls s')%nat.
Proof.
  cbv zeta. revert index0 s j.
  induction contacts as [|c0 rest IH]; intros index0 s j Hj Hs Hne Hfmt.
  - rewrite lookup_nil in Hj. discriminate.
  - pose proof (iteration_usage index0 c0 s) as Hit. cbv zeta in Hit.
    destruct (iteration_effects w message_template campaign_id total delay
                progress_callback index0 c0 s) as (s1 & Hrun & _).
    rewrite (loop_cons_returns _ _ _ _ _ Hrun).
    rewrite Hrun in Hit. cbn [snd] in Hit.
    destruct Hit as (_ & Ha1 & _ & Hsent).
    destruct j as [|j]; simpl in Hj.
    + injection Hj as ->.
      destruct (Hsent p Hs Hne Hfmt) as [Hsends Hacq].
      destruct (loop_effects w message_template campaign_id total delay
                  progress_callback rest (S index0) s1) as (s2 & Hloop & E2).
      pose proof (loop_usage rest (S index0) s1) as Hu. cbv zeta in Hu.
      rewrite Hloop in Hu |- *. cbn [snd] in Hu |- *.
      destruct E2 as [_ _ (new & Hnew & _) _]. destruct Hu as (_ & Ha2 & _).
      split; [|lia].
      rewrite Hnew, Hsends, Nat.add_0_r. apply elem_of_app. left.
      apply elem_of_app. right. apply list_elem_of_singleton. reflexivity.
    + destruct (IH (S index0) s1 j Hj Hs Hne Hfmt) as [Hin Hacq].
      replace (index0 + S j)%nat with (S index0 + j)%nat by lia.
      split; [exact Hin|lia].
Qed.

Lemma create_campaign_frame (name : str) (n : nat) (s : state) :
  let s1 := (_create_campaign w campaign_id name n s).2 in
  posted s1 = posted s /\ acquire_calls s1 = acquire_calls s /\
  messages s1 = messages s /\ successful s1 = successful s /\
  failed s1 = failed s.
Proof.
  cbv zeta.
  unfold _create_campaign, campaigns_insert_one, bind, db_call, get_state,
    raise, modify_state.
  destruct (db_answer w (db_calls s)); simpl; [repeat split|].
  destruct (find_one "_id" (VOid campaign_id) (campaigns s)); simpl; repeat split.
Qed.

Lemma update_campaign_frame (a b : nat) (s : state) :
  let s1 := (_update_campaign w campaign_id a b s).2 in
  posted s1 = posted s /\ acquire_calls s1 = acquire_calls s /\
  messages s1 = messages s /\ successful s1 = successful s /\
  failed s1 = failed s.
Proof.
  cbv zeta.
  unfold _update_campaign, campaigns_update_one, bind, db_call, get_state,
    raise, modify_state.
  destruct (db_answer w (db_calls s)); simpl; [repeat split|].
  destruct (update_one _ _ _ _ _ _); simpl; repeat split.
Qed.

Lemma campaign_writes_keep_sends (name : str) (n a b : nat) (s : state) :
  sends (_create_campaign w campaign_id name n s).2 = sends s /\
  sends (_update_campaign w campaign_id a b s).2 = sends s.
Proof.
  unfold _create_campaign, _update_campaign, campaigns_insert_one,
    campaigns_update_one, bind, db_call, get_state, raise, modify_state.
  destruct (db_answer w (db_calls s)); simpl; [split; reflexivity|].
  destruct (find_one "_id" (VOid campaign_id) (campaigns s));
    destruct (update_one _ _ _ _ _ _); simpl; split; reflexivity.
Qed.

End dispatcher_properties.

Section dispatch_properties.
Context `{Unicode}.

(** C2: the dispatcher does not count the digits of a phone. Every recipient
    whose stripped phone is not empty, however few digits it has, is handed
    to [send_text_message] with that phone as soon as [str.format] can build
    its message, and the rate limiter is asked for it; the check for ten
    digits is made by [validate_contacts] only, which the dispatcher does
    not call. *)
Theorem short_phone_recipient_reaches_channel
    (w : world) (contacts : list contact) (message_template campaign_name : str)
    (delay : Z) (progress_callback : callback) (s s' : state)
    (r : campaign_result) (j : nat) (c : contact) (p : str) :
  send_bulk_messages w contacts message_template campaign_name delay
    progress_callback s = (Returns r, s') ->
  contacts !! j = Some c ->
  stripped_phone c = Returns p -> p <> [] ->
  (forall e, str_format w message_template c = Raises e -> exists k, e = KeyError k) ->
  (S j, p, formatted_message w message_template c) ∈ sends s' /\
  (acquire_calls s < acquire_calls s')%nat.
Proof.
  intros Hrun Hj Hs Hne Hfmt.
  apply send_bulk_messages_stages in Hrun as (s1 & s2 & Hcreate & Hloop & Hupdate & _).
  pose proof (create_campaign_frame w (new_object_id w) campaign_name
                (length contacts) (set_failed [] (set_successful [] s))) as Hc.
  pose proof (update_campaign_frame w (new_object_id w) (length (successful s2))
                (length (failed s2)) s2) as Hu.
  destruct (campaign_writes_keep_sends w (new_object_id w) campaign_name
              (length contacts) 0 0 (set_failed [] (set_successful [] s)))
    as [Hcs _].
  destruct (campaign_writes_keep_sends w (new_object_id w) campaign_name 0
              (length (successful s2)) (length (failed s2)) s2) as [_ Hus].
  pose proof (loop_sent w message_template (new_object_id w) (length contacts)
                delay progress_callback contacts 1 s1 j c p Hj Hs Hne Hfmt) as Hsent.
  cbv zeta in Hc, Hu, Hsent.
  rewrite Hcreate in Hc, Hcs. rewrite Hupdate in Hu, Hus. rewrite Hloop in Hsent.
  cbn [snd] in Hc, Hu, Hcs, Hus, Hsent.
  destruct Hc as (_ & Ha1 & _). destruct Hu as (_ & Ha3 & _).
  destruct Hsent as [Hin Hacq]. simpl in Ha1.
  split; [rewrite Hus; exact Hin|lia].
Qed.

(** A dispatch call is aborted only by one of its two writes to the
    campaigns collection. When the first one (the insert of the Campaign
    record) raises, nothing has been sent or stored; otherwise every
    recipient is visited, whatever the channel, the message store, the
    template or the callback do, and only the final update of the Campaign
    record can still raise. *)
Theorem send_bulk_messages_raises_only_from_campaign_writes
    (w : world) (contacts : list contact) (message_template campaign_name : str)
    (delay : Z) (progress_callback : callback) (s s' : state) (e : exn) :
  send_bulk_messages w contacts message_template campaign_name delay
    progress_callback s = (Raises e, s') ->
  (_create_campaign w (new_object_id w) campaign_name (length contacts)
     (set_failed [] (set_successful [] s)) = (Raises e, s') /\
   posted s' = posted s /\ acquire_calls s' = acquire_calls s /\
   messages s' = messages s) \/
  (exists s1 s2,
     _create_campaign w (new_object_id w) campaign_name (length contacts)
       (set_failed [] (set_successful [] s)) = (Returns tt, s1) /\
     loop w message_template (new_object_id w) (length contacts) delay
       progress_callback 1 contacts s1 = (Returns tt, s2) /\
     _update_campaign w (new_object_id w) (length (successful s2))
       (length (failed s2)) s2 = (Raises e, s') /\
     (length contacts <= length (successful s') + length (failed s'))%nat).
Proof.
  unfold send_bulk_messages. unfold bind at 1. unfold modify_state at 1.
  unfold bind at 1.
  pose proof (create_campaign_frame w (new_object_id w) campaign_name
                (length contacts) (set_failed [] (set_successful [] s))) as Hc.
  cbv zeta in Hc.
  destruct (_create_campaign w (new_object_id w) campaign_name (length contacts) _)
    as [[[]|e1] s1] eqn:E1.
  2:{ intros [= <- <-]. left. cbn [snd] in Hc.
      destruct Hc as (Hp & Ha & Hm & _). repeat split; assumption. }
  unfold bind at 1.
  destruct (loop_effects w message_template (new_object_id w) (length contacts)
              delay progress_callback contacts 1 s1) as (s2 & Hloop & Heff).
  rewrite Hloop.
  unfold bind at 1. unfold get_state at 1. unfold bind at 1.
  pose proof (update_campaign_frame w (new_object_id w) (length (successful s2))
                (length (failed s2)) s2) as Hu.
  cbv zeta in Hu.
  destruct (_update_campaign w (new_object_id w) _ _ s2) as [[[]|e3] s3] eqn:E3.
  { unfold bind, get_state, ret. discriminate. }
  intros [= <- <-]. right. exists s1, s2.
  split; [reflexivity|]. split; [exact Hloop|]. split; [exact E3|].
  cbn [snd] in Hc, Hu.
  destruct Hc as (_ & _ & _ & Hs1 & Hf1). destruct Hu as (_ & _ & _ & Hs3 & Hf3).
  destruct Heff as [_ _ _ (ok & ko & Hok & Hko & Hge & _)].
  rewrite Hs3, Hf3, Hok, Hko, Hs1, Hf1. simpl. lia.
Qed.

(** The result of a dispatch call that returns: [successful] lists
    recipients in the order of the input; every entry of [failed] is a
    recipient with an [error] field added (a text, or [None] when the
    channel's error object carried a [null] message); every recipient is in
    one of the two lists; and when the progress callback returns normally
    (or there is none) the two lists together have one entry per
    recipient. *)
Theorem send_bulk_messages_keeps_order_and_covers_all
    (w : world) (contacts : list contact) (message_template campaign_name : str)
    (delay : Z) (progress_callback : callback) (s s' : state)
    (r : campaign_result) :
  send_bulk_messages w contacts message_template campaign_name delay
    progress_callback s = (Returns r, s') ->
  sublist (result_successful r) contacts /\
  Forall (fun f => exists c reason, c ∈ contacts /\ f = with_error_field c reason)
         (result_failed r) /\
  (forall c, c ∈ contacts ->
     c ∈ result_successful r \/
     exists reason, with_error_field c reason ∈ result_failed r) /\
  (callback_returns progress_callback ->
   (length (result_successful r) + length (result_failed r) = length contacts)%nat).
Proof.
  intros Hrun.
  destruct (send_bulk_messages_partitions _ _ _ _ _ _ _ _ _ Hrun)
    as (Hsum & Htotal & _).
  apply send_bulk_messages_stages in Hrun as (s1 & s2 & Hcreate & Hloop & Hupdate & ->).
  pose proof (create_campaign_frame w (new_object_id w) campaign_name
                (length contacts) (set_failed [] (set_successful [] s))) as Hc.
  pose proof (update_campaign_frame w (new_object_id w) (length (successful s2))
                (length (failed s2)) s2) as Hu.
  pose proof (loop_order w message_template (new_object_id w) (length contacts)
                delay progress_callback contacts 1 s1) as Hord.
  cbv zeta in Hc, Hu, Hord.
  rewrite Hcreate in Hc. rewrite Hupdate in Hu. rewrite Hloop in Hord.
  cbn [snd] in Hc, Hu, Hord.
  destruct Hc as (_ & _ & _ & Hs1 & Hf1). destruct Hu as (_ & _ & _ & Hs3 & Hf3).
  destruct Hord as (ok & ko & Hok & Hko & Hsub & Hall & Hcov).
  simpl in Hs1, Hf1. rewrite Hs1 in Hok. rewrite Hf1 in Hko. simpl in Hok, Hko.
  cbn [result_successful result_failed result_total] in *.
  rewrite Hs3, Hf3, Hok, Hko.
  split; [exact Hsub|]. split; [exact Hall|]. split; [exact Hcov|].
  intros Hcb. specialize (Hsum Hcb). rewrite Hs3, Hf3, Hok, Hko in Hsum. exact Hsum.
Qed.

(** What a dispatch call consumes, whatever its outcome: at most one request
    is posted per recipient with a non-empty phone, each of them a text
    message addressed to the normalised phone of a recipient; the rate
    limiter is asked at most three times per such recipient; at most one
    message per such recipient is stored; and no recipient is listed as
    successful without its message having been stored. *)
Theorem send_bulk_messages_usage_bounds
    (w : world) (contacts : list contact) (message_template campaign_name : str)
    (delay : Z) (progress_callback : callback) (s : state) :
  let run := send_bulk_messages w contacts message_template campaign_name delay
               progress_callback s in
  let n := length (List.filter (fun c => truthy (phone_of c)) contacts) in
  (exists new, posted run.2 = posted s ++ new /\ (length new <= n)%nat /\
     Forall (fun p => exists c, c ∈ contacts /\
                        payload_to p = normalize_phone_number (phone_of c) /\
                        payload_type p = lit "text") new) /\
  (acquire_calls s <= acquire_calls run.2 <= acquire_calls s + 3 * n)%nat /\
  exists stored,
    messages run.2 = messages s ++ stored /\ (length stored <= n)%nat /\
    forall r, run.1 = Returns r -> (length (result_successful r) <= length stored)%nat.
Proof.
  cbv zeta.
  destruct (send_bulk_messages w contacts message_template campaign_name delay
              progress_callback s) as [o s'] eqn:Hrun.
  cbn [fst snd]. revert Hrun.
  unfold send_bulk_messages. unfold bind at 1. unfold modify_state at 1.
  unfold bind at 1.
  pose proof (create_campaign_frame w (new_object_id w) campaign_name
                (length contacts) (set_failed [] (set_successful [] s))) as Hc.
  cbv zeta in Hc.
  destruct (_create_campaign w (new_object_id w) campaign_name (length contacts) _)
    as [[[]|e1] s1] eqn:E1; cbn [snd] in Hc;
    destruct Hc as (Hp1 & Ha1 & Hm1 & Hs1 & _); simpl in Hp1, Ha1, Hm1, Hs1.
  2:{ intros [= <- <-]. rewrite Hp1, Ha1, Hm1. split; [|split; [lia|]].
      - exists []. rewrite app_nil_r. repeat split; [simpl; lia|constructor].
      - exists []. rewrite app_nil_r. repeat split; [simpl; lia|discriminate]. }
  unfold bind at 1.
  pose proof (loop_usage w message_template (new_object_id w) (length contacts)
                delay progress_callback contacts 1 s1) as Hl.
  cbv zeta in Hl.
  destruct (loop_effects w message_template (new_object_id w) (length contacts)
              delay progress_callback contacts 1 s1) as (s2 & Hloop & _).
  rewrite Hloop in Hl |- *. cbn [snd] in Hl.
  destruct Hl as (Hp2 & Ha2 & stored & ok & Hm2 & Hs2 & Hlen).
  rewrite Hp1 in Hp2. rewrite Ha1 in Ha2. rewrite Hm1 in Hm2.
  rewrite Hs1 in Hs2. simpl in Hs2.
  unfold bind at 1. unfold get_state at 1. unfold bind at 1.
  pose proof (update_campaign_frame w (new_object_id w) (length (successful s2))
                (length (failed s2)) s2) as Hu.
  cbv zeta in Hu.
  destruct (_update_campaign w (new_object_id w) _ _ s2) as [[[]|e3] s3] eqn:E3;
    cbn [snd] in Hu; destruct Hu as (Hp3 & Ha3 & Hm3 & Hs3 & _);
    unfold bind, get_state, ret; intros [= <- <-];
    rewrite Hp3, Ha3, Hm3;
    (split; [exact Hp2|]); (split; [exact Ha2|]);
    exists stored; (split; [exact Hm2|]); (split; [lia|]).
  - intros r [= <-]. simpl. rewrite Hs3, Hs2. lia.
  - discriminate.
Qed.

End dispatch_properties.

Section dispatch_witnesses.

(** The failing input of C2: a phone of five digits. *)
Lemma short_phone_recipient_reaches_channel_witness :
  let run :=
    send_bulk_messages accepting_world [short_phone] (lit "Hello") (lit "promo")
      1 None empty_state in
  (length (digits_of (lit "12345")) < 10)%nat /\
  run = (Returns {| result_campaign_id := 7; result_total := 1;
                    result_successful := [short_phone]; result_failed := [] |},
         run.2) /\
  [short_phone] !! 0%nat = Some short_phone /\
  stripped_phone short_phone = Returns (lit "12345") /\
  (1%nat, lit "12345", formatted_message accepting_world (lit "Hello") short_phone)
    ∈ sends run.2 /\
  (acquire_calls empty_state < acquire_calls run.2)%nat.
Proof.
  cbv zeta.
  assert (Hrun :
    send_bulk_messages accepting_world [short_phone] (lit "Hello") (lit "promo")
      1 None empty_state
    = (Returns {| result_campaign_id := 7; result_total := 1;
                  result_successful := [short_phone]; result_failed := [] |},
       (send_bulk_messages accepting_world [short_phone] (lit "Hello")
          (lit "promo") 1 None empty_state).2)) by (vm_compute; reflexivity).
  assert (Hstrip : stripped_phone short_phone = Returns (lit "12345"))
    by (vm_compute; reflexivity).
  split; [vm_compute; lia|]. split; [exact Hrun|]. split; [reflexivity|].
  split; [exact Hstrip|].
  refine (short_phone_recipient_reaches_channel accepting_world [short_phone]
            (lit "Hello") (lit "promo") 1 None empty_state _ _ 0%nat short_phone
            (lit "12345") Hrun eq_refl Hstrip _ _).
  - discriminate.
  - intros e Habs. discriminate.
Defined.

Lemma send_bulk_messages_raises_only_from_campaign_writes_witness :
  let run := send_bulk_messages store_down_world [asha] (lit "Hello") (lit "promo")
               1 None empty_state in
  let e := PyMongoError (lit "connection refused") in
  run = (Raises e, run.2) /\
  ((_create_campaign store_down_world (new_object_id store_down_world) (lit "promo")
      (length [asha]) (set_failed [] (set_successful [] empty_state))
    = (Raises e, run.2) /\
    posted run.2 = posted empty_state /\
    acquire_calls run.2 = acquire_calls empty_state /\
    messages run.2 = messages empty_state) \/
   (exists s1 s2,
      _create_campaign store_down_world (new_object_id store_down_world)
        (lit "promo") (length [asha]) (set_failed [] (set_successful [] empty_state))
      = (Returns tt, s1) /\
      loop store_down_world (lit "Hello") (new_object_id store_down_world)
        (length [asha]) 1 None 1 [asha] s1 = (Returns tt, s2) /\
      _update_campaign store_down_world (new_object_id store_down_world)
        (length (successful s2)) (length (failed s2)) s2 = (Raises e, run.2) /\
      (length [asha] <= length (successful run.2) + length (failed run.2))%nat)).
Proof.
  cbv zeta.
  assert (Hrun :
    send_bulk_messages store_down_world [asha] (lit "Hello") (lit "promo")
      1 None empty_state
    = (Raises (PyMongoError (lit "connection refused")),
       (send_bulk_messages store_down_world [asha] (lit "Hello") (lit "promo")
          1 None empty_state).2)).
  { vm_compute. reflexivity. }
  split; [exact Hrun|].
  exact (send_bulk_messages_raises_only_from_campaign_writes store_down_world
           [asha] (lit "Hello") (lit "promo") 1 None empty_state _ _ Hrun).
Defined.

Lemma send_bulk_messages_keeps_order_and_covers_all_witness :
  let run := send_bulk_messages accepting_world [no_phone; asha] (lit "Hello")
               (lit "promo") 1 None empty_state in
  let r := {| result_campaign_id := 7; result_total := 2;
              result_successful := [asha];
              result_failed := [with_error no_phone (lit "No phone number")] |} in
  run = (Returns r, run.2) /\
  sublist (result_successful r) [no_phone; asha] /\
  Forall (fun f => exists c reason, c ∈ [no_phone; asha] /\
                                    f = with_error_field c reason)
         (result_failed r) /\
  (forall c, c ∈ [no_phone; asha] ->
     c ∈ result_successful r \/
     exists reason, with_error_field c reason ∈ result_failed r) /\
  (callback_returns None ->
   (length (result_successful r) + length (result_failed r)
    = length [no_phone; asha])%nat).
Proof.
  cbv zeta.
  assert (Hrun :
    send_bulk_messages accepting_world [no_phone; asha] (lit "Hello") (lit "promo")
      1 None empty_state
    = (Returns {| result_campaign_id := 7; result_total := 2;
                  result_successful := [asha];
                  result_failed := [with_error no_phone (lit "No phone number")] |},
       (send_bulk_messages accepting_world [no_phone; asha] (lit "Hello")
          (lit "promo") 1 None empty_state).2)).
  { vm_compute. reflexivity. }
  split; [exact Hrun|].
  exact (send_bulk_messages_keeps_order_and_covers_all accepting_world
           [no_phone; asha] (lit "Hello") (lit "promo") 1 None empty_state _ _ Hrun).
Defined.

(** [validate_contacts_reports_reasons] on a valid contact, a short phone
    and a blank phone. *)
Lemma validate_contacts_reports_reasons_witness :
  let invalid := [with_error short_phone (lit "Invalid phone number");
                  with_error no_phone (lit "Missing phone number")] in
  let accepted c :=
    truthy (phone_of c) && negb (length (digits_of (phone_of c)) <? 10)%nat in
  let report c :=
    with_error c (if truthy (phone_of c) then lit "Invalid phone number"
                  else lit "Missing phone number") in
  validate_contacts [asha; short_phone; no_phone] = Returns ([asha], invalid) /\
  invalid = List.map report
              (List.filter (fun c => negb (accepted c)) [asha; short_phone; no_phone]).
Proof.
  cbv zeta.
  assert (Hrun : validate_contacts [asha; short_phone; no_phone]
                 = Returns ([asha],
                            [with_error short_phone (lit "Invalid phone number");
                             with_error no_phone (lit "Missing phone number")]))
    by (vm_compute; reflexivity).
  split; [exact Hrun|].
  exact (validate_contacts_reports_reasons [asha; short_phone; no_phone] _ _ Hrun).
Defined.

(** A contact whose phone is [None] makes [validate_contacts] raise. *)
Example validate_contacts_raises_on_none_phone :
  validate_contacts [asha; null_phone; short_phone]
  = Raises (AttributeError (lit "'NoneType' object has no attribute 'strip'")).
Proof. vm_compute. reflexivity. Qed.

(** A failed entry whose [error] is [None]: the channel answered 400 with
    an error object whose message is [null]. *)
Example failed_entry_with_null_error :
  let run :=
    send_bulk_messages null_error_world [asha] (lit "Hello") (lit "promo")
      1 None empty_state in
  run.1 = Returns {| result_campaign_id := 7; result_total := 1;
                     result_successful := [];
                     result_failed := [with_error_field asha None] |}.
Proof. vm_compute. reflexivity. Qed.

End dispatch_witnesses.

(* ===================================================================== *)
(** ** The store: what an upsert leaves alone *)
(* ===================================================================== *)

Section store_frame_facts.

Lemma update_first_shape f p (coll coll' : collection) :
  update_first f p coll = Returns (Some coll') ->
  exists pre d d' post,
    coll = pre ++ d :: post /\ coll' = pre ++ d' :: post /\
    p d = true /\ f d = Returns d'.
Proof.
  revert coll'. induction coll as [|x rest IH]; intros coll'; simpl; [discriminate|].
  destruct (p x) eqn:Hp.
  - destruct (f x) as [d'|e] eqn:Hf; [|discriminate]. intros [= <-].
    exists [], x, d', rest. repeat split; assumption.
  - destruct (update_first f p rest) as [[r|]|e]; simpl; try discriminate.
    intros [= <-].
    destruct (IH r eq_refl) as (pre & d & d' & post & -> & -> & Hd & Hf).
    exists (x :: pre), d, d', post. repeat split; assumption.
Qed.

Lemma find_replace_other {A} (q : A -> bool) (pre post : list A) (d d' : A) :
  q d = false -> q d' = false ->
  List.find q (pre ++ d' :: post) = List.find q (pre ++ d :: post).
Proof.
  intros Hd Hd'. induction pre as [|x pre IH]; simpl.
  - rewrite Hd, Hd'. reflexivity.
  - destruct (q x); [reflexivity|exact IH].
Qed.

Lemma find_app_other {A} (q : A -> bool) (l : list A) (x : A) :
  q x = false -> List.find q (l ++ [x]) = List.find q l.
Proof.
  intros Hx. induction l as [|y l IH]; simpl.
  - rewrite Hx. reflexivity.
  - destruct (q y); [reflexivity|exact IH].
Qed.

(** Replacing the first match of [p] changes neither the size of the
    collection nor what a lookup [q] finds, when [q] accepts neither the old
    nor the new document. *)
Lemma update_first_frame f p q (coll coll' : collection) :
  update_first f p coll = Returns (Some coll') ->
  (forall d d', p d = true -> f d = Returns d' -> q d = false /\ q d' = false) ->
  List.find q coll' = List.find q coll /\ length coll' = length coll.
Proof.
  intros Hup Hq.
  apply update_first_shape in Hup as (pre & d & d' & post & -> & -> & Hd & Hf).
  destruct (Hq d d' Hd Hf) as [Hqd Hqd'].
  split; [apply find_replace_other; assumption|].
  rewrite !length_app. reflexivity.
Qed.

Lemma matches_other_key (field : string) (k k' : str) (d : document) :
  k' <> k -> matches field (VStr k) d = true -> matches field (VStr k') d = false.
Proof.
  unfold matches. intros Hne.
  destruct (d !! field) as [[]|]; simpl; try discriminate.
  intros Hk. apply bool_decide_eq_true in Hk. subst.
  apply bool_decide_eq_false. exact Hne.
Qed.

End store_frame_facts.

(* ===================================================================== *)
(** ** app/services/mongodb_cache.py: further properties *)
(* ===================================================================== *)

Section cache_frame_properties.

(** [set] on one key does not change what [get] returns for any other
    key, whether or not the store answers the write, and whatever the store
    does with the read. *)
Theorem cache_set_leaves_other_keys
    (set_error get_error : option exn)
    (policy : dollar_policy) (coll : collection) (key key' : str) (v : value)
    (ttl time : Z) :
  key' <> key ->
  Cache.get get_error
    (Cache.set set_error policy {| Cache.cache_collection := Some coll |}
       key v ttl time)
    key'
  = Cache.get get_error {| Cache.cache_collection := Some coll |} key'.
Proof.
  intros Hne. destruct set_error as [e|]; [reflexivity|].
  unfold Cache.set, Cache.get. simpl.
  rewrite update_one_set.
  set (a := ({[ "value"%string := v; "expires_at"%string := VTime (time + ttl) ]} : document)).
  assert (Hplain : forall d, modify policy a ∅ d = Returns (a ∪ d)).
  { intros d. apply no_dollar_modify. reflexivity. }
  assert (Hid : forall d, matches "_id" (VStr key') (a ∪ d) = matches "_id" (VStr key') d).
  { intros d. unfold matches. rewrite lookup_union_r by reflexivity. reflexivity. }
  destruct (update_first _ _ coll) as [[c|]|] eqn:E.
  - simpl. destruct get_error as [e|]; [reflexivity|]. unfold find_one.
    destruct (update_first_frame _ _ (matches "_id" (VStr key')) _ _ E) as [-> _];
      [|reflexivity].
    intros d d' Hd Hf. rewrite Hplain in Hf. injection Hf as <-.
    rewrite Hid. split; apply (matches_other_key _ key); assumption.
  - rewrite Hplain. simpl. destruct get_error as [e|]; [reflexivity|].
    unfold find_one.
    rewrite find_app_other; [reflexivity|].
    rewrite Hid. apply (matches_other_key _ key); [assumption|].
    unfold matches. rewrite lookup_union_r by apply lookup_empty.
    rewrite lookup_singleton_eq. simpl.
    apply bool_decide_eq_true. reflexivity.
  - exfalso. eapply update_first_total; [|exact E].
    intros d. rewrite Hplain. eauto.
Qed.

(** [set] never raises. When the store raises, the exception is swallowed
    and the cache is left as it was: the key is not written. When the store
    answers, [set] is an upsert: the collection grows by one document when
    the key was absent and keeps its size when the key was present, and the
    key is present afterwards. *)
Theorem cache_set_keeps_one_entry_per_key
    (store_error : option exn)
    (policy : dollar_policy) (coll : collection) (key : str) (v : value)
    (ttl time : Z) :
  let cache :=
    Cache.set store_error policy {| Cache.cache_collection := Some coll |}
      key v ttl time in
  match store_error with
  | Some _ => cache = {| Cache.cache_collection := Some coll |}
  | None =>
      exists coll',
        Cache.cache_collection cache = Some coll' /\
        length coll' = match find_one "_id" (VStr key) coll with
                       | Some _ => length coll
                       | None => S (length coll)
                       end /\
        find_one "_id" (VStr key) coll' <> None
  end.
Proof.
  cbv zeta. destruct store_error as [e|]; [reflexivity|].
  unfold Cache.set. simpl. rewrite update_one_set.
  set (a := ({[ "value"%string := v; "expires_at"%string := VTime (time + ttl) ]} : document)).
  assert (Hplain : forall d, modify policy a ∅ d = Returns (a ∪ d)).
  { intros d. apply no_dollar_modify. reflexivity. }
  assert (Hm : forall d, matches "_id" (VStr key) d = true ->
                         matches "_id" (VStr key) (a ∪ d) = true).
  { intros d. unfold matches. rewrite lookup_union_r by reflexivity. auto. }
  unfold find_one.
  destruct (update_first _ _ coll) as [[c|]|] eqn:E.
  - exists c. split; [reflexivity|].
    pose proof (update_first_shape _ _ _ _ E)
      as (pre & d0 & d0' & post & Hcoll & Hc & _ & _).
    apply update_first_some in E as (d & d' & Hfind & Hf & Hnew).
    rewrite Hplain in Hf. injection Hf as <-.
    rewrite Hfind. split.
    + rewrite Hcoll, Hc, !length_app. reflexivity.
    + rewrite Hnew; [discriminate|]. apply Hm.
      apply find_some in Hfind. apply Hfind.
  - apply update_first_none in E. rewrite Hplain, E.
    eexists. split; [reflexivity|]. split.
    + rewrite length_app. simpl. lia.
    + rewrite (find_app_none _ _ _ E). simpl.
      rewrite Hm; [discriminate|].
      unfold matches. rewrite lookup_union_r by apply lookup_empty.
    rewrite lookup_singleton_eq. simpl.
      apply bool_decide_eq_true. reflexivity.
  - exfalso. eapply update_first_total; [|exact E].
    intros d. rewrite Hplain. eauto.
Qed.

End cache_frame_properties.

Lemma cache_set_leaves_other_keys_witness :
  lit "template:bye" <> lit "template:welcome" /\
  Cache.get None
    (Cache.set None RejectDollarFields
       {| Cache.cache_collection := Some cached_bye |}
       (lit "template:welcome") (VStr (lit "hello")) 60 5)
    (lit "template:bye")
  = Cache.get None {| Cache.cache_collection := Some cached_bye |}
      (lit "template:bye").
Proof.
  assert (Hne : lit "template:bye" <> lit "template:welcome")
    by (vm_compute; discriminate).
  exact (conj Hne
           (cache_set_leaves_other_keys None None RejectDollarFields cached_bye
              (lit "template:welcome") (lit "template:bye") (VStr (lit "hello"))
              60 5 Hne)).
Defined.

(* ===================================================================== *)
(** ** app/services/inbox.py: further properties *)
(* ===================================================================== *)

Section inbox_frame_properties.

(** [_update_conversation] for a message of one counterparty leaves the
    conversation stored for every other counterparty as it was, on either
    kind of store; the collection loses no document and gains at most
    one. *)
Theorem update_conversation_leaves_other_conversations
    (policy : dollar_policy) (m : Message) (now : Z) (coll : collection)
    (user : str) :
  user <> user_id m ->
  conversation_of user (_update_conversation policy m now coll)
  = conversation_of user coll /\
  (length coll <= length (_update_conversation policy m now coll)
   <= S (length coll))%nat.
Proof.
  intros Hne. destruct policy.
  { rewrite conversation_update_rejected. split; [reflexivity|lia]. }
  unfold _update_conversation, conversation_of, find_one.
  rewrite update_one_set_soi by apply conversation_fields_disjoint.
  destruct (update_first _ _ coll) as [[c|]|] eqn:E.
  - destruct (update_first_frame _ _ (matches "user_id" (VStr user)) _ _ E)
      as [-> ->]; [|split; [reflexivity|lia]].
    intros d d' Hd Hf. rewrite modify_store_no_inc in Hf. injection Hf as <-.
    split; apply (matches_other_key _ (user_id m)); try assumption.
    apply conversation_data_matches.
  - simpl. rewrite modify_store_no_inc, length_app. simpl. split; [|lia].
    apply find_app_other.
    apply (matches_other_key _ (user_id m)); [assumption|].
    apply conversation_data_matches.
  - split; [reflexivity|lia].
Qed.

End inbox_frame_properties.

Lemma update_conversation_leaves_other_conversations_witness :
  lit "15550001111" <> user_id inbound_hello /\
  conversation_of (lit "15550001111")
    (_update_conversation StoreDollarFields inbound_hello 200 other_conversation)
  = conversation_of (lit "15550001111") other_conversation /\
  (length other_conversation
   <= length (_update_conversation StoreDollarFields inbound_hello 200
                other_conversation)
   <= S (length other_conversation))%nat.
Proof.
  assert (Hne : lit "15550001111" <> user_id inbound_hello)
    by (vm_compute; discriminate).
  exact (conj Hne
           (update_conversation_leaves_other_conversations StoreDollarFields
              inbound_hello 200 other_conversation (lit "15550001111") Hne)).
Defined.

(* ===================================================================== *)
(** ** app/websockets/connection_manager.py: further properties *)
(* ===================================================================== *)

Section connection_manager_counts.
Context {Event : Type}.
Implicit Types (self : manager Event) (message : Event)
               (send_json : transport Event).

Lemma send_all_healthy send_json message (connections : list WebSocket)
    (dead : gset positive) (sent : list (positive * Event * bool)) :
  (forall sent' c, c ∈ connections -> send_json sent' c message = true) ->
  (send_all send_json message connections (dead, sent)).1 = dead.
Proof.
  revert dead sent. induction connections as [|c rest IH]; intros dead sent Hok;
    simpl; [reflexivity|].
  rewrite Hok by (apply elem_of_cons; left; reflexivity).
  apply IH. intros sent' c' Hc'. apply Hok. apply elem_of_cons. right. exact Hc'.
Qed.

Lemma send_all_broken send_json message (connections : list WebSocket)
    (dead : gset positive) (sent : list (positive * Event * bool)) :
  (forall sent' c, c ∈ connections -> send_json sent' c message = false) ->
  forall c, c ∈ connections ->
            c ∈ (send_all send_json message connections (dead, sent)).1.
Proof.
  intros Hko c Hc.
  destruct (send_all_spec send_json message connections dead sent)
    as (attempts & _ & _ & _ & Hdead).
  assert (Hkeep : forall (l : list WebSocket) d t x, x ∈ d ->
            x ∈ (send_all send_json message l (d, t)).1).
  { induction l as [|y l IHl]; intros d t x Hx; simpl; [exact Hx|].
    destruct (send_json t y message); apply IHl; [exact Hx|].
    apply elem_of_union. left. exact Hx. }
  clear Hdead attempts. revert dead sent.
  induction connections as [|y rest IH]; intros dead sent;
    [apply elem_of_nil in Hc; contradiction|].
  simpl. rewrite Hko by (apply elem_of_cons; left; reflexivity).
  apply elem_of_cons in Hc as [->|Hc].
  - apply Hkeep. apply elem_of_union. right. apply elem_of_singleton. reflexivity.
  - apply IH; [|exact Hc].
    intros sent' c' Hc'. apply Hko. apply elem_of_cons. right. exact Hc'.
Qed.

(** [connect] adds the handle only once the handshake has returned: when
    [accept] raises, the exception leaves [connect] and the manager is as it
    was. Otherwise the handle is connected afterwards and the count grows by
    one, unless the handle was connected already. [disconnect] never raises:
    for a handle that is not connected it changes nothing, otherwise the
    count drops by one; the handle is not connected afterwards. *)
Theorem connect_disconnect_counts (accept : option exn) (websocket : WebSocket) self :
  match accept with
  | Some e => connect accept websocket self = (Raises e, self)
  | None =>
      (connect accept websocket self).1 = Returns tt /\
      websocket ∈ active_connections (connect accept websocket self).2 /\
      get_connection_count (connect accept websocket self).2
      = (if decide (websocket ∈ active_connections self)
         then get_connection_count self else S (get_connection_count self)) /\
      (websocket ∉ active_connections self ->
       disconnect websocket (connect accept websocket self).2 = self)
  end /\
  get_connection_count (disconnect websocket self)
  = (if decide (websocket ∈ active_connections self)
     then pred (get_connection_count self) else get_connection_count self) /\
  (websocket ∉ active_connections self -> disconnect websocket self = self) /\
  websocket ∉ active_connections (disconnect websocket self).
Proof.
  unfold get_connection_count, connect, disconnect.
  destruct self as [active sent]. simpl.
  assert (Hgone : websocket ∉ active ∖ {[ websocket ]}).
  { rewrite elem_of_difference, elem_of_singleton. intros [_ Hn]. apply Hn.
    reflexivity. }
  assert (Hsame : websocket ∉ active -> active ∖ {[ websocket ]} = active).
  { intros Hout. apply set_eq. intros x.
    rewrite elem_of_difference, elem_of_singleton.
    split; [intros [Hx _]; exact Hx|].
    intros Hx. split; [exact Hx|]. intros ->. contradiction. }
  assert (Hback : websocket ∉ active ->
                  (active ∪ {[ websocket ]}) ∖ {[ websocket ]} = active).
  { intros Hout. apply set_eq. intros x.
    rewrite elem_of_difference, elem_of_union, elem_of_singleton.
    split; [intros [[Hx|Hx] Hn]; [exact Hx|contradiction]|].
    intros Hx. split; [left; exact Hx|]. intros ->. contradiction. }
  split; [|split; [|split; [|exact Hgone]]].
  - destruct accept as [e|]; [reflexivity|]. simpl.
    split; [reflexivity|]. split.
    { apply elem_of_union. right. apply elem_of_singleton. reflexivity. }
    split.
    + destruct (decide (websocket ∈ active)) as [Hin|Hout].
      * f_equal. apply set_eq. intros x. rewrite elem_of_union, elem_of_singleton.
        split; [intros [Hx| ->]; assumption|auto].
      * rewrite size_union by (apply disjoint_singleton_r; exact Hout).
        rewrite size_singleton. lia.
    + intros Hout. rewrite (Hback Hout). reflexivity.
  - destruct (decide (websocket ∈ active)) as [Hin|Hout].
    + rewrite size_difference by (apply singleton_subseteq_l; exact Hin).
      rewrite size_singleton. lia.
    + rewrite (Hsame Hout). reflexivity.
  - intros Hout. rewrite (Hsame Hout). reflexivity.
Qed.

(** [broadcast] never adds a subscriber: the set afterwards is a subset of
    the set before and the count does not grow; it makes exactly one
    [send_json] call per subscriber; when every call returns the set is
    unchanged, and when every call raises the set is empty afterwards. *)
Theorem broadcast_never_adds_subscribers send_json message self :
  let self' := broadcast send_json message self in
  active_connections self' ⊆ active_connections self /\
  (get_connection_count self' <= get_connection_count self)%nat /\
  length (transcript self')
  = (length (transcript self) + get_connection_count self)%nat /\
  ((forall sent c, c ∈ active_connections self -> send_json sent c message = true) ->
   active_connections self' = active_connections self) /\
  ((forall sent c, c ∈ active_connections self -> send_json sent c message = false) ->
   active_connections self' = ∅).
Proof.
  cbv zeta. unfold broadcast, get_connection_count.
  destruct (decide (active_connections self = ∅)) as [Hempty|Hne].
  - rewrite Hempty, size_empty. repeat split; auto with lia.
  - destruct (send_all_spec send_json message (elements (active_connections self))
                ∅ (transcript self)) as (attempts & Hsent & Hconns & _ & _).
    pose proof (send_all_healthy send_json message
                  (elements (active_connections self)) ∅ (transcript self)) as Hok.
    pose proof (send_all_broken send_json message
                  (elements (active_connections self)) ∅ (transcript self)) as Hko.
    destruct (send_all send_json message _ (∅, transcript self)) as [dead sent] eqn:E.
    simpl in Hsent, Hok, Hko. simpl.
    assert (Hsub : discard_all (elements dead) (active_connections self)
                   ⊆ active_connections self).
    { intros c Hc. apply discard_all_spec in Hc. apply Hc. }
    split; [exact Hsub|]. split; [apply subseteq_size; exact Hsub|]. split.
    + rewrite Hsent, length_app. f_equal.
      unfold size, set_size. simpl. rewrite <- Hconns, !length_fmap. reflexivity.
    + split.
      * intros Hall. apply set_eq. intros c. rewrite discard_all_spec.
        rewrite Hok by (intros sent' c' Hc'; apply Hall, elem_of_elements, Hc').
        rewrite elements_empty. split; [intros [Hc _]; exact Hc|].
        intros Hc. split; [exact Hc|]. apply not_elem_of_nil.
      * intros Hall. apply set_eq. intros c. rewrite discard_all_spec.
        split; [|intros Hc; apply elem_of_empty in Hc; contradiction].
        intros [Hc Hnot]. exfalso. apply Hnot. apply elem_of_elements.
        apply Hko; [|apply elem_of_elements; exact Hc].
        intros sent' c' Hc'. apply Hall, elem_of_elements, Hc'.
Qed.

End connection_manager_counts.
